(** * mini_metro_display: a shallow embedding of [utils.py] and of the
      control logic of [mini_metro_display.py]

    The development follows the two source files.  Python exceptions are
    results of an error type, dictionaries are association lists in
    insertion order (the order in which Python iterates over them), and
    Python integers are [Z].  Text is [string], a sequence of bytes: the
    UTF-8 encoding of the Python [str].  Where the code itself encodes a
    [str] the [str] is the list of its code points ([py_str]), since not
    every [str] has an encoding. *)

From Stdlib Require Import ZArith List String Ascii Bool Lia Arith DecimalString.
From Stdlib Require Import Sorting.Sorted Sorting.Permutation.
Import ListNotations.
Local Open Scope string_scope.
Local Open Scope list_scope.
Local Open Scope Z_scope.

(** ** Exceptions *)

Inductive exn : Type :=
| ValueError
| OverflowError
| IndexError
| KeyError
| AttributeError
| TypeError
| UnicodeEncodeError.

Inductive result (A : Type) : Type :=
| Ok (a : A)
| Raise (e : exn).

Arguments Ok {A} a.
Arguments Raise {A} e.

Definition bind {A B : Type} (r : result A) (k : A -> result B) : result B :=
  match r with
  | Ok a => k a
  | Raise e => Raise e
  end.

Notation "x <- c ;; k" := (bind c (fun x => k))
  (at level 61, c at next level, right associativity).
Notation "' p <- c ;; k" := (bind c (fun x => let p := x in k))
  (at level 61, p pattern, c at next level, right associativity).

Lemma bind_Ok {A B : Type} (r : result A) (k : A -> result B) (b : B) :
  bind r k = Ok b -> exists a, r = Ok a /\ k a = Ok b.
Proof.
  destruct r as [a|e]; simpl; intros H; [exists a; auto | discriminate].
Qed.

(** ** Python's [int(text, base)] on ASCII text

    Leading and trailing white space is skipped, one sign is allowed, for
    base 16 a [0x] prefix (and one underscore after it), then digits with
    single underscores between them.  In a base that is not a power of
    two a literal of more than [sys.int_max_str_digits] digits is
    refused, 4300 digits as the interpreter starts.  Every rejection is a
    [ValueError].  In text that is not ASCII Python also accepts other
    decimal digits and white space; the model is of ASCII text. *)

Definition code (c : ascii) : Z := Z.of_nat (nat_of_ascii c).

Definition is_space (c : ascii) : bool :=
  ((9 <=? code c) && (code c <=? 13)) || (code c =? 32).

Definition is_digit (c : ascii) : bool :=
  (48 <=? code c) && (code c <=? 57).

Definition digit_value (base : Z) (c : ascii) : option Z :=
  let n := code c in
  let v := if (48 <=? n) && (n <=? 57) then n - 48
           else if (97 <=? n) && (n <=? 122) then n - 87
           else if (65 <=? n) && (n <=? 90) then n - 55
           else 36 in
  if v <? base then Some v else None.

Fixpoint drop_spaces (l : list ascii) : list ascii :=
  match l with
  | c :: l' => if is_space c then drop_spaces l' else l
  | [] => []
  end.

Definition strip (l : list ascii) : list ascii :=
  rev (drop_spaces (rev (drop_spaces l))).

Fixpoint int_digits (base acc : Z) (after_digit : bool) (l : list ascii)
  : option Z :=
  match l with
  | [] => if after_digit then Some acc else None
  | c :: l' =>
      if Ascii.eqb c "_"
      then (if after_digit then int_digits base acc false l' else None)
      else match digit_value base c with
           | Some v => int_digits base (acc * base + v) true l'
           | None => None
           end
  end.

Definition skip_prefix (base : Z) (l : list ascii) : list ascii :=
  if base =? 16 then
    match l with
    | "0"%char :: x :: l' =>
        if Ascii.eqb x "x" || Ascii.eqb x "X"
        then match l' with
             | "_"%char :: l'' => l''
             | _ => l'
             end
        else l
    | _ => l
    end
  else l.

(** [sys.int_max_str_digits], and the digits of a literal: leading
    zeros count, the underscores between digits do not. *)
Definition int_max_str_digits : Z := 4300.

Definition count_digits (l : list ascii) : Z :=
  Z.of_nat (List.length (filter (fun c => negb (Ascii.eqb c "_")) l)).

Definition is_power_of_two (base : Z) : bool :=
  existsb (Z.eqb base) [2; 4; 8; 16; 32].

Definition py_int_chars (base : Z) (l : list ascii) : result Z :=
  let body := strip l in
  let '(sign, rest) :=
    match body with
    | "-"%char :: r => (-1, r)
    | "+"%char :: r => (1, r)
    | _ => (1, body)
    end in
  let literal := skip_prefix base rest in
  match int_digits base 0 false literal with
  | Some v =>
      if negb (is_power_of_two base)
         && (int_max_str_digits <? count_digits literal)
      then Raise ValueError
      else Ok (sign * v)
  | None => Raise ValueError
  end.

Definition py_int (base : Z) (s : string) : result Z :=
  py_int_chars base (list_ascii_of_string s).

Example py_int_plain : py_int 10 "00012" = Ok 12.
Proof. reflexivity. Qed.

Example py_int_spaces_sign : py_int 10 " -5_0 " = Ok (-50).
Proof. reflexivity. Qed.

Example py_int_sign_gap : py_int 10 "+ 5" = Raise ValueError.
Proof. reflexivity. Qed.

Example py_int_double_underscore : py_int 10 "5__0" = Raise ValueError.
Proof. reflexivity. Qed.

Example py_int_empty : py_int 10 "" = Raise ValueError.
Proof. reflexivity. Qed.

Example py_int_hex_prefix : py_int 16 "-0x_1f" = Ok (-31).
Proof. reflexivity. Qed.

Example py_int_hex_b : py_int 16 "0b1" = Ok 177.
Proof. reflexivity. Qed.

Example py_int_hex_bad : py_int 16 "0xx1" = Raise ValueError.
Proof. reflexivity. Qed.

Definition returns {A : Type} (r : result A) : bool :=
  match r with Ok _ => true | Raise _ => false end.

(** Leading zeros count as digits, underscores do not, and base 16 has
    no limit. *)
Example py_int_digit_limit :
  py_int_chars 10 (repeat "0"%char 4300) = Ok 0
  /\ py_int_chars 10 (repeat "0"%char 4301) = Raise ValueError
  /\ returns (py_int_chars 10
                ("1"%char :: flat_map (fun c => ["_"%char; c])
                                      (repeat "1"%char 4299))) = true
  /\ returns (py_int_chars 16 (repeat "f"%char 4301)) = true.
Proof.
  split; [vm_compute; reflexivity|].
  split; [vm_compute; reflexivity|].
  split; vm_compute; reflexivity.
Qed.

(** ** MD5, as [hashlib.md5(data).hexdigest()] computes it (RFC 1321)

    Words are integers below 2^32 with the wrap-around written out. *)

Module MD5.

Definition wrap (x : Z) : Z := x mod 4294967296.

Definition not32 (x : Z) : Z := Z.lxor x 4294967295.

Definition rotl (x n : Z) : Z :=
  wrap (Z.lor (Z.shiftl x n) (Z.shiftr x (32 - n))).

Definition K : list Z :=
  [ 3614090360; 3905402710; 606105819; 3250441966;
    4118548399; 1200080426; 2821735955; 4249261313;
    1770035416; 2336552879; 4294925233; 2304563134;
    1804603682; 4254626195; 2792965006; 1236535329;
    4129170786; 3225465664; 643717713; 3921069994;
    3593408605; 38016083; 3634488961; 3889429448;
    568446438; 3275163606; 4107603335; 1163531501;
    2850285829; 4243563512; 1735328473; 2368359562;
    4294588738; 2272392833; 1839030562; 4259657740;
    2763975236; 1272893353; 4139469664; 3200236656;
    681279174; 3936430074; 3572445317; 76029189;
    3654602809; 3873151461; 530742520; 3299628645;
    4096336452; 1126891415; 2878612391; 4237533241;
    1700485571; 2399980690; 4293915773; 2240044497;
    1873313359; 4264355552; 2734768916; 1309151649;
    4149444226; 3174756917; 718787259; 3951481745 ].

Definition shifts : list Z :=
  [ 7; 12; 17; 22; 7; 12; 17; 22; 7; 12; 17; 22; 7; 12; 17; 22;
    5; 9; 14; 20; 5; 9; 14; 20; 5; 9; 14; 20; 5; 9; 14; 20;
    4; 11; 16; 23; 4; 11; 16; 23; 4; 11; 16; 23; 4; 11; 16; 23;
    6; 10; 15; 21; 6; 10; 15; 21; 6; 10; 15; 21; 6; 10; 15; 21 ].

Definition state : Type := (Z * Z * Z * Z)%type.

Definition initial : state :=
  (1732584193, 4023233417, 2562383102, 271733878).

(** Little-endian bytes of a word and back. *)
Definition le_bytes (n : nat) (x : Z) : list Z :=
  map (fun i => Z.shiftr x (8 * Z.of_nat i) mod 256) (seq 0 n).

Fixpoint le_word (bytes : list Z) : Z :=
  match bytes with
  | [] => 0
  | b :: bs => b + 256 * le_word bs
  end.

Fixpoint chunks (fuel n : nat) (l : list Z) : list (list Z) :=
  match fuel with
  | O => []
  | S fuel' =>
      match l with
      | [] => []
      | _ => firstn n l :: chunks fuel' n (skipn n l)
      end
  end.

Definition pad (msg : list Z) : list Z :=
  let len := Z.of_nat (List.length msg) in
  msg ++ [128] ++ repeat 0 (Z.to_nat ((55 - len) mod 64))
      ++ le_bytes 8 ((8 * len) mod 18446744073709551616).

Definition round (M : list Z) (st : state) (i : nat) : state :=
  let '(a, b, c, d) := st in
  let iz := Z.of_nat i in
  let '(f, g) :=
    if (i <? 16)%nat then (Z.lor (Z.land b c) (Z.land (not32 b) d), iz)
    else if (i <? 32)%nat
         then (Z.lor (Z.land d b) (Z.land (not32 d) c), (5 * iz + 1) mod 16)
    else if (i <? 48)%nat
         then (Z.lxor (Z.lxor b c) d, (3 * iz + 5) mod 16)
    else (Z.lxor c (Z.lor b (not32 d)), (7 * iz) mod 16) in
  let f' := wrap (f + a + nth i K 0 + nth (Z.to_nat g) M 0) in
  (d, wrap (b + rotl f' (nth i shifts 0)), b, c).

Definition block (st : state) (bytes : list Z) : state :=
  let M := map le_word (chunks 16 4 bytes) in
  let '(a0, b0, c0, d0) := st in
  let '(a, b, c, d) := fold_left (round M) (seq 0 64) st in
  (wrap (a0 + a), wrap (b0 + b), wrap (c0 + c), wrap (d0 + d)).

Definition digest (msg : list Z) : list Z :=
  let padded := pad msg in
  let '(a, b, c, d) :=
    fold_left block (chunks (List.length padded) 64 padded) initial in
  le_bytes 4 a ++ le_bytes 4 b ++ le_bytes 4 c ++ le_bytes 4 d.

Definition hex_digit (n : Z) : ascii :=
  nth (Z.to_nat n) (list_ascii_of_string "0123456789abcdef") "0"%char.

Definition hex_byte (b : Z) : list ascii :=
  [hex_digit (b / 16); hex_digit (b mod 16)].

(** [hashlib.md5(data).hexdigest()] for [data] given by its bytes, and
    for [data] given as text. *)
Definition hexdigest_bytes (data : list Z) : string :=
  string_of_list_ascii (flat_map hex_byte (digest data)).

Definition hexdigest (s : string) : string :=
  hexdigest_bytes (map code (list_ascii_of_string s)).

End MD5.

(** Text given by its bytes. *)
Definition utf8 (bytes : list Z) : string :=
  string_of_list_ascii (map (fun b => ascii_of_nat (Z.to_nat b)) bytes).

Example md5_empty : MD5.hexdigest "" = "d41d8cd98f00b204e9800998ecf8427e".
Proof. vm_compute. reflexivity. Qed.

Example md5_abc : MD5.hexdigest "abc" = "900150983cd24fb0d6963f7d28e17f72".
Proof. vm_compute. reflexivity. Qed.

Example md5_block_boundaries :
  map (fun n => MD5.hexdigest (string_of_list_ascii (repeat "a"%char n)))
      [55; 56; 63; 64; 119; 120]%nat
  = [ "ef1772b6dff9a122358552954ad0df65";
      "3b0c8ac703f828b04c6c197006d17218";
      "b06521f39153d618550606be297466d5";
      "014842d480b571495a4a0363793f7367";
      "8a7bd0732ed6a28ce75f6dabc90e1613";
      "5f61c0ccad4cac44c75ff505e1f1e537" ].
Proof. vm_compute. reflexivity. Qed.

Example md5_high_bytes :
  MD5.hexdigest (utf8 [195; 169; 255; 0; 128])
  = "9e39189ab7faee4c78451bbf476c2c3d".
Proof. vm_compute. reflexivity. Qed.

Example md5_two_blocks :
  MD5.hexdigest
    "12345678901234567890123456789012345678901234567890123456789012345678901234567890"
  = "57edf4a22be3c955ac49da2e2107b67a".
Proof. vm_compute. reflexivity. Qed.

(** ** [string_to_dark_background_color]

    The argument is a Python [str], a sequence of code points (numbers
    from 0 to 1114111).  [input_string.encode()] is its UTF-8 encoding,
    which the code points U+D800 to U+DFFF, the surrogates, do not have:
    on a [str] that holds one, [encode] raises [UnicodeEncodeError].
    [s[a:b]] on text is [substring a (b - a) s], which like Python's
    slice stops at the end of the text. *)

Definition py_str : Type := list Z.

Definition is_surrogate (c : Z) : bool := (55296 <=? c) && (c <=? 57343).

Definition encode_code_point (c : Z) : result (list Z) :=
  if c <? 128 then Ok [c]
  else if c <? 2048 then Ok [192 + c / 64; 128 + c mod 64]
  else if is_surrogate c then Raise UnicodeEncodeError
  else if c <? 65536
       then Ok [224 + c / 4096; 128 + c / 64 mod 64; 128 + c mod 64]
  else Ok [240 + c / 262144; 128 + c / 4096 mod 64;
           128 + c / 64 mod 64; 128 + c mod 64].

(** [text.encode()]. *)
Fixpoint encode (text : py_str) : result (list Z) :=
  match text with
  | [] => Ok []
  | c :: text' =>
      first <- encode_code_point c ;;
      rest <- encode text' ;;
      Ok (first ++ rest)
  end.

(** The [str] of a text of the model whose bytes are all below 128. *)
Definition code_points (s : string) : py_str := map code (list_ascii_of_string s).

Definition string_to_dark_background_color (input_string : py_str)
  : result (Z * Z * Z) :=
  encoded <- encode input_string ;;
  let hash_hex := MD5.hexdigest_bytes encoded in
  let hex_color := substring 0 6 hash_hex in
  red <- py_int 16 (substring 0 2 hex_color) ;;
  let red := red mod 128 in
  green <- py_int 16 (substring 2 2 hex_color) ;;
  let green := green mod 128 in
  blue <- py_int 16 (substring 4 2 hex_color) ;;
  let blue := blue mod 128 in
  Ok (red, green, blue).

(** The encoding of one, two, three and four bytes, and its ends next to
    the surrogates. *)
Example encode_sample :
  encode [233; 8364; 128512] = Ok [195; 169; 226; 130; 172; 240; 159; 152; 128]
  /\ encode [55295] = Ok [237; 159; 191]
  /\ encode [57344] = Ok [238; 128; 128]
  /\ encode [1114111] = Ok [244; 143; 191; 191]
  /\ encode [97; 57343; 98] = Raise UnicodeEncodeError.
Proof. repeat split. Qed.

Example md5_of_encoded :
  bind (encode [233; 8364; 128512]) (fun data => Ok (MD5.hexdigest_bytes data))
  = Ok "3b07a39fef0ac5d7ef21575e7315a482".
Proof. vm_compute. reflexivity. Qed.

Example color_of_route_10 :
  string_to_dark_background_color (code_points "10") = Ok (83, 89, 68).
Proof. vm_compute. reflexivity. Qed.

Lemma substring_0_0 (s : string) : substring 0 0 s = "".
Proof. destruct s; reflexivity. Qed.

(** The digest is sixteen bytes; only the first three matter here. *)
Lemma le_bytes_4 (x : Z) :
  MD5.le_bytes 4 x =
  [Z.shiftr x 0 mod 256; Z.shiftr x 8 mod 256;
   Z.shiftr x 16 mod 256; Z.shiftr x 24 mod 256].
Proof. reflexivity. Qed.

Lemma digest_head (msg : list Z) :
  exists b0 b1 b2 rest,
    MD5.digest msg = b0 :: b1 :: b2 :: rest /\
    0 <= b0 < 256 /\ 0 <= b1 < 256 /\ 0 <= b2 < 256.
Proof.
  unfold MD5.digest.
  destruct (fold_left MD5.block _ MD5.initial) as [[[a b] c] d].
  rewrite (le_bytes_4 a). simpl app.
  do 4 eexists. split; [reflexivity|].
  repeat split; apply Z.mod_pos_bound; lia.
Qed.

Definition hex_byte_string (b : Z) : string :=
  string_of_list_ascii (MD5.hex_byte b).

Definition hex_byte_reads_back (b : Z) : bool :=
  match py_int 16 (hex_byte_string b) with
  | Ok v => v =? b
  | Raise _ => false
  end.

Lemma hex_bytes_read_back :
  forallb hex_byte_reads_back (map Z.of_nat (seq 0 256)) = true.
Proof. vm_compute. reflexivity. Qed.

Lemma py_int_hex_byte (b : Z) :
  0 <= b < 256 -> py_int 16 (hex_byte_string b) = Ok b.
Proof.
  intros Hb.
  pose proof hex_bytes_read_back as H.
  rewrite forallb_forall in H.
  specialize (H b).
  assert (Hin : In b (map Z.of_nat (seq 0 256))).
  { apply in_map_iff. exists (Z.to_nat b). split; [lia|].
    apply in_seq. lia. }
  specialize (H Hin). unfold hex_byte_reads_back in H.
  destruct (py_int 16 (hex_byte_string b)) as [v|e]; [|discriminate].
  apply Z.eqb_eq in H. now subst.
Qed.

Lemma hexdigest_head (data : list Z) :
  exists b0 b1 b2 rest,
    MD5.hexdigest_bytes data =
      (hex_byte_string b0 ++ hex_byte_string b1 ++ hex_byte_string b2 ++ rest)%string /\
    0 <= b0 < 256 /\ 0 <= b1 < 256 /\ 0 <= b2 < 256.
Proof.
  unfold MD5.hexdigest_bytes.
  destruct (digest_head data)
    as (b0 & b1 & b2 & rest & -> & H0 & H1 & H2).
  exists b0, b1, b2, (string_of_list_ascii (flat_map MD5.hex_byte rest)).
  split; [reflexivity | auto].
Qed.

(** The colour of text that has been encoded. *)
Lemma color_of_encoded (input_string : py_str) (encoded : list Z) :
  encode input_string = Ok encoded ->
  exists red green blue,
    string_to_dark_background_color input_string = Ok (red, green, blue) /\
    0 <= red <= 127 /\ 0 <= green <= 127 /\ 0 <= blue <= 127.
Proof.
  intros Hencoded. unfold string_to_dark_background_color.
  rewrite Hencoded. cbn [bind].
  destruct (hexdigest_head encoded)
    as (b0 & b1 & b2 & rest & -> & H0 & H1 & H2).
  simpl substring. rewrite !substring_0_0.
  repeat match goal with
  | |- context [String (MD5.hex_digit (?b / 16)) (String (MD5.hex_digit (?b mod 16)) "")] =>
      change (String (MD5.hex_digit (b / 16)) (String (MD5.hex_digit (b mod 16)) ""))
        with (hex_byte_string b)
  end.
  rewrite !py_int_hex_byte by assumption. simpl.
  exists (b0 mod 128), (b1 mod 128), (b2 mod 128).
  split; [reflexivity|].
  pose proof (Z.mod_pos_bound b0 128).
  pose proof (Z.mod_pos_bound b1 128).
  pose proof (Z.mod_pos_bound b2 128).
  lia.
Qed.

Lemma encode_returns (text : py_str) :
  Forall (fun c => is_surrogate c = false) text ->
  exists encoded, encode text = Ok encoded.
Proof.
  induction 1 as [|c text Hc _ (rest & IH)]; simpl; [eauto|].
  unfold encode_code_point. rewrite Hc, IH.
  destruct (c <? 128), (c <? 2048), (c <? 65536); simpl; eauto.
Qed.

Lemma encode_raises (text : py_str) :
  Exists (fun c => is_surrogate c = true) text ->
  encode text = Raise UnicodeEncodeError.
Proof.
  induction 1 as [c text Hc | c text _ IH]; simpl.
  - unfold encode_code_point. rewrite Hc.
    unfold is_surrogate in Hc. apply andb_true_iff in Hc.
    destruct (Z.ltb_spec c 128); [lia|].
    destruct (Z.ltb_spec c 2048); [lia | reflexivity].
  - rewrite IH. destruct (encode_code_point c) as [first|e] eqn:E;
      [reflexivity|].
    cbn [bind]. unfold encode_code_point in E.
    destruct (c <? 128), (c <? 2048), (is_surrogate c), (c <? 65536);
      congruence.
Qed.

(** C8, as the code has it: on every [str] that holds no surrogate code
    point [string_to_dark_background_color] returns a triple (it does
    not raise) and each of the red, green and blue components is an
    integer between 0 and 127; on a [str] that holds a surrogate code
    point it raises [UnicodeEncodeError]. *)
Theorem string_to_dark_background_color_is_dark (input_string : py_str) :
  (Forall (fun c => is_surrogate c = false) input_string ->
   exists red green blue,
     string_to_dark_background_color input_string = Ok (red, green, blue) /\
     0 <= red <= 127 /\ 0 <= green <= 127 /\ 0 <= blue <= 127)
  /\ (Exists (fun c => is_surrogate c = true) input_string ->
      string_to_dark_background_color input_string = Raise UnicodeEncodeError).
Proof.
  split.
  - intros Hnone. destruct (encode_returns input_string Hnone) as (encoded & He).
    eapply color_of_encoded. exact He.
  - intros Hsome. unfold string_to_dark_background_color.
    now rewrite (encode_raises input_string Hsome).
Qed.

(** A [str] with a lone surrogate, as [json.loads] gives for the JSON
    text ["\ud83d"], has no colour: C8 as written has the function
    return for every input string. *)
Lemma string_to_dark_background_color_raises_on_surrogate :
  is_surrogate 55357 = true
  /\ string_to_dark_background_color [55357] = Raise UnicodeEncodeError
  /\ string_to_dark_background_color [50; 55357; 49] = Raise UnicodeEncodeError.
Proof. repeat split. Qed.

Lemma string_to_dark_background_color_is_dark_witness :
  exists red green blue,
    string_to_dark_background_color [50; 49; 233] = Ok (red, green, blue)
    /\ 0 <= red <= 127 /\ 0 <= green <= 127 /\ 0 <= blue <= 127.
Proof.
  apply (proj1 (string_to_dark_background_color_is_dark [50; 49; 233])).
  repeat constructor.
Defined.

(** ** [datetime]: naive dates and times of the proleptic Gregorian
    calendar, years 1 to 9999, as Python's [datetime.datetime] *)

Record datetime : Type := mk_datetime {
  year : Z;
  month : Z;
  day : Z;
  hour : Z;
  minute : Z;
  second : Z;
  microsecond : Z
}.

Definition MINYEAR : Z := 1.
Definition MAXYEAR : Z := 9999.
Definition MAXORDINAL : Z := 3652059.

Definition is_leap (y : Z) : bool :=
  (y mod 4 =? 0) && (negb (y mod 100 =? 0) || (y mod 400 =? 0)).

Definition days_in_month (y m : Z) : Z :=
  if m =? 2 then (if is_leap y then 29 else 28)
  else if (m =? 4) || (m =? 6) || (m =? 9) || (m =? 11) then 30
  else 31.

Definition valid_date (y m d : Z) : bool :=
  (MINYEAR <=? y) && (y <=? MAXYEAR) && (1 <=? m) && (m <=? 12)
  && (1 <=? d) && (d <=? days_in_month y m).

Definition valid_time (h mi s us : Z) : bool :=
  (0 <=? h) && (h <=? 23) && (0 <=? mi) && (mi <=? 59)
  && (0 <=? s) && (s <=? 59) && (0 <=? us) && (us <=? 999999).

(** The constructor [datetime(y, m, d, h, mi, s, us)]. *)
Definition make_datetime (y m d h mi s us : Z) : result datetime :=
  if valid_date y m d && valid_time h mi s us
  then Ok (mk_datetime y m d h mi s us)
  else Raise ValueError.

(** [dt.replace(hour=h, minute=mi, second=s)].  The arguments are taken
    as C [int]s first: one that does not fit raises [OverflowError],
    before any is checked against the range of its field. *)
Definition fits_c_int (n : Z) : bool :=
  (-2147483648 <=? n) && (n <=? 2147483647).

Definition replace_time (dt : datetime) (h mi s : Z) : result datetime :=
  if fits_c_int h && fits_c_int mi && fits_c_int s
  then make_datetime (year dt) (month dt) (day dt) h mi s (microsecond dt)
  else Raise OverflowError.

Definition days_before_year (y : Z) : Z :=
  let p := y - 1 in p * 365 + p / 4 - p / 100 + p / 400.

Definition days_before_month (y m : Z) : Z :=
  fold_right Z.add 0
    (map (fun k => days_in_month y (Z.of_nat k)) (seq 1 (Z.to_nat (m - 1)))).

Definition toordinal (dt : datetime) : Z :=
  days_before_year (year dt) + days_before_month (year dt) (month dt) + day dt.

(** The calendar day after [dt], same time of day. *)
Definition next_day (dt : datetime) : datetime :=
  let '(y, m, d) :=
    if day dt <? days_in_month (year dt) (month dt)
    then (year dt, month dt, day dt + 1)
    else if month dt <? 12 then (year dt, month dt + 1, 1)
    else (year dt + 1, 1, 1) in
  mk_datetime y m d (hour dt) (minute dt) (second dt) (microsecond dt).

(** [dt + timedelta(days=1)]: Python adds one to the ordinal and raises
    [OverflowError] beyond 9999-12-31. *)
Definition add_one_day (dt : datetime) : result datetime :=
  if toordinal dt + 1 <=? MAXORDINAL then Ok (next_day dt)
  else Raise OverflowError.

(** [a - b] as a number of microseconds (a [timedelta]). *)
Definition seconds_of_day (dt : datetime) : Z :=
  hour dt * 3600 + minute dt * 60 + second dt.

Definition datetime_sub (a b : datetime) : Z :=
  ((toordinal a - toordinal b) * 86400
   + (seconds_of_day a - seconds_of_day b)) * 1000000
  + (microsecond a - microsecond b).

(** Comparison is that of the tuples of fields. *)
Definition fields (dt : datetime) : list Z :=
  [year dt; month dt; day dt; hour dt; minute dt; second dt; microsecond dt].

Fixpoint lex_ltb (a b : list Z) : bool :=
  match a, b with
  | x :: a', y :: b' => (x <? y) || ((x =? y) && lex_ltb a' b')
  | [], _ :: _ => true
  | _, [] => false
  end.

Definition datetime_ltb (a b : datetime) : bool := lex_ltb (fields a) (fields b).

Definition datetime_leb (a b : datetime) : bool := negb (datetime_ltb b a).

(** ** [datetime.strptime]

    The format is compiled to a regular expression and matched with
    backtracking; a parser here returns every way to match a prefix, in
    the order the backtracking matcher tries them, so that the head of the
    list is the match Python finds.  A match that leaves text over, or
    fields that are not a date, raise [ValueError]. *)

Definition parser (A : Type) : Type := list ascii -> list (A * list ascii).

Definition p_bind {A B : Type} (p : parser A) (k : A -> parser B) : parser B :=
  fun l => flat_map (fun '(a, r) => k a r) (p l).

Definition p_ret {A : Type} (a : A) : parser A := fun l => [(a, l)].

Definition p_alt {A : Type} (p q : parser A) : parser A :=
  fun l => p l ++ q l.

(** A digit between [lo] and [hi], read as its value. *)
Definition p_digit (lo hi : Z) : parser Z :=
  fun l =>
    match l with
    | c :: r =>
        if (48 + lo <=? code c) && (code c <=? 48 + hi)
        then [(code c - 48, r)] else []
    | [] => []
    end.

Definition p_lit (ch : ascii) : parser unit :=
  fun l =>
    match l with
    | c :: r => if Ascii.eqb c ch then [(tt, r)] else []
    | [] => []
    end.

Definition p_two (p q : parser Z) : parser Z :=
  p_bind p (fun x => p_bind q (fun y => p_ret (10 * x + y))).

(** The class [\s] on ASCII text. *)
Definition is_re_space (c : ascii) : bool :=
  ((9 <=? code c) && (code c <=? 13))
  || ((28 <=? code c) && (code c <=? 32)).

(** [\s+], longest first. *)
Fixpoint p_spaces (l : list ascii) : list (unit * list ascii) :=
  match l with
  | c :: r => if is_re_space c then p_spaces r ++ [(tt, r)] else []
  | [] => []
  end.

(** [%Y], [%m], [%d], [%H], [%M], [%S]. *)
Definition p_Y : parser Z :=
  p_bind (p_two (p_digit 0 9) (p_digit 0 9)) (fun hi =>
  p_bind (p_two (p_digit 0 9) (p_digit 0 9)) (fun lo =>
  p_ret (100 * hi + lo))).

Definition p_m : parser Z :=
  p_alt (p_two (p_digit 1 1) (p_digit 0 2))
 (p_alt (p_two (p_digit 0 0) (p_digit 1 9))
        (p_digit 1 9)).

Definition p_d : parser Z :=
  p_alt (p_two (p_digit 3 3) (p_digit 0 1))
 (p_alt (p_two (p_digit 1 2) (p_digit 0 9))
 (p_alt (p_two (p_digit 0 0) (p_digit 1 9))
 (p_alt (p_digit 1 9)
        (p_bind (p_lit " ") (fun _ => p_digit 1 9))))).

Definition p_H : parser Z :=
  p_alt (p_two (p_digit 2 2) (p_digit 0 3))
 (p_alt (p_two (p_digit 0 1) (p_digit 0 9))
        (p_digit 0 9)).

Definition p_M : parser Z :=
  p_alt (p_two (p_digit 0 5) (p_digit 0 9)) (p_digit 0 9).

Definition p_S : parser Z :=
  p_alt (p_two (p_digit 6 6) (p_digit 0 1))
 (p_alt (p_two (p_digit 0 5) (p_digit 0 9))
        (p_digit 0 9)).

(** The match at the start of the text, then the check that nothing is
    left over. *)
Definition full_match {A : Type} (p : parser A) (s : string) : result A :=
  match p (list_ascii_of_string s) with
  | (a, []) :: _ => Ok a
  | _ => Raise ValueError
  end.

Definition p_date : parser (Z * Z * Z) :=
  p_bind p_Y (fun y => p_bind (p_lit "-") (fun _ =>
  p_bind p_m (fun m => p_bind (p_lit "-") (fun _ =>
  p_bind p_d (fun d => p_ret (y, m, d)))))).

Definition p_time : parser (Z * Z * Z) :=
  p_bind p_H (fun h => p_bind (p_lit ":") (fun _ =>
  p_bind p_M (fun mi => p_bind (p_lit ":") (fun _ =>
  p_bind p_S (fun s => p_ret (h, mi, s)))))).

(** [datetime.strptime(s, "%Y-%m-%d")]. *)
Definition strptime_date (s : string) : result datetime :=
  '(y, m, d) <- full_match p_date s ;;
  make_datetime y m d 0 0 0 0.

(** [datetime.strptime(s, "%Y-%m-%d %H:%M:%S")]. *)
Definition strptime_date_time (s : string) : result datetime :=
  '(y, m, d, (h, mi, sec)) <-
    full_match
      (p_bind p_date (fun ymd => p_bind p_spaces (fun _ =>
       p_bind p_time (fun hms => p_ret (ymd, hms))))) s ;;
  make_datetime y m d h mi sec 0.

(** ** [get_corrected_datetime] *)

(** [text.split(":")]. *)
Fixpoint split_on (sep : ascii) (l : list ascii) : list (list ascii) :=
  match l with
  | [] => [[]]
  | c :: l' =>
      if Ascii.eqb c sep then [] :: split_on sep l'
      else match split_on sep l' with
           | p :: ps => (c :: p) :: ps
           | [] => [[c]]
           end
  end.

(** [hour, minute, second = map(int, parts)]: a part that is not a number
    and a wrong number of parts both raise [ValueError]. *)
Definition unpack_hms (parts : list (list ascii)) : result (Z * Z * Z) :=
  match parts with
  | [a; b; c] =>
      h <- py_int_chars 10 a ;;
      mi <- py_int_chars 10 b ;;
      s <- py_int_chars 10 c ;;
      Ok (h, mi, s)
  | _ => Raise ValueError
  end.

Definition get_corrected_datetime (service_date arrival_time : string)
  : result datetime :=
  arrival_date <- strptime_date service_date ;;
  '(hour, minute, second) <-
    unpack_hms (split_on ":" (list_ascii_of_string arrival_time)) ;;
  '(arrival_date, hour) <-
    (if hour >? 23
     then (arrival_date' <- add_one_day arrival_date ;;
           Ok (arrival_date', hour mod 24))
     else Ok (arrival_date, hour)) ;;
  replace_time arrival_date hour minute second.

Example strptime_date_plain :
  strptime_date "2024-01-15" = Ok (mk_datetime 2024 1 15 0 0 0 0).
Proof. reflexivity. Qed.

Example strptime_date_short_fields :
  strptime_date "2024-1-5" = Ok (mk_datetime 2024 1 5 0 0 0 0)
  /\ strptime_date "2024-01- 5" = Ok (mk_datetime 2024 1 5 0 0 0 0)
  /\ strptime_date "2024-10-5" = Ok (mk_datetime 2024 10 5 0 0 0 0).
Proof. repeat split. Qed.

Example strptime_date_rejects :
  map strptime_date
    ["0000-01-01"; "2024-02-30"; "2023-02-29"; "2024-13-01"; "2024-01-32";
     "2024-01-15 "; " 2024-01-15"; "2024-01-015"; "24-01-15"; "2024-011-5";
     "2024-1-0"]
  = repeat (Raise ValueError) 11.
Proof. reflexivity. Qed.

Example strptime_date_time_accepts :
  strptime_date_time "2024-01-01 23:59:59" = Ok (mk_datetime 2024 1 1 23 59 59 0)
  /\ strptime_date_time "2024-01-01  07:5:0" = Ok (mk_datetime 2024 1 1 7 5 0 0)
  /\ strptime_date_time "2024-01- 1 07:03:04" = Ok (mk_datetime 2024 1 1 7 3 4 0)
  /\ strptime_date_time "2024-01-1 7:5:9" = Ok (mk_datetime 2024 1 1 7 5 9 0).
Proof. repeat split. Qed.

Example strptime_date_time_rejects :
  map strptime_date_time
    ["2024-01-01 24:05:00"; "2024-01-01 07:05:60"; "2024-01-01 07:60:00";
     "2024-01-01 None"; "2024-01-01 007:05:00"; "2024-01-01 07:05:00 ";
     "2024-01-01 07:05:000"; "2024-01-0107:05:00"; "2024-01-017:05:00"]
  = repeat (Raise ValueError) 9.
Proof. reflexivity. Qed.

Example get_corrected_datetime_same_day :
  get_corrected_datetime "2024-02-28" "7:05:09"
  = Ok (mk_datetime 2024 2 28 7 5 9 0).
Proof. reflexivity. Qed.

Example get_corrected_datetime_after_midnight :
  get_corrected_datetime "2024-02-28" "25:10:00"
  = Ok (mk_datetime 2024 2 29 1 10 0 0)
  /\ get_corrected_datetime "2023-12-31" "24:00:00"
     = Ok (mk_datetime 2024 1 1 0 0 0 0).
Proof. split; reflexivity. Qed.

Example toordinal_of_max :
  toordinal (mk_datetime 9999 12 31 0 0 0 0) = MAXORDINAL
  /\ toordinal (mk_datetime 1 1 1 0 0 0 0) = 1
  /\ toordinal (mk_datetime 2024 3 1 0 0 0 0) = 738946.
Proof. repeat split. Qed.

(** ** Timetable text: [YYYY-MM-DD] and [H:MM:SS] *)

Definition digit_char (k : Z) : ascii := ascii_of_nat (Z.to_nat (48 + k)).

Definition two_digits (n : Z) : list ascii :=
  [digit_char (n / 10); digit_char (n mod 10)].

Definition four_digits (n : Z) : list ascii :=
  [digit_char (n / 1000); digit_char (n / 100 mod 10);
   digit_char (n / 10 mod 10); digit_char (n mod 10)].

Definition date_text (y m d : Z) : string :=
  string_of_list_ascii
    (four_digits y ++ "-"%char :: two_digits m ++ "-"%char :: two_digits d).

(** The hour is any non-empty run of digits, so that both [7:05:00] and
    [07:05:00] are covered; its value is [digits_value]. *)
Definition digits_value (ds : list ascii) : Z :=
  fold_left (fun acc c => acc * 10 + (code c - 48)) ds 0.

Definition time_text (hs : list ascii) (mi s : Z) : string :=
  string_of_list_ascii
    (hs ++ ":"%char :: two_digits mi ++ ":"%char :: two_digits s).

Example date_text_sample : date_text 2024 2 9 = "2024-02-09".
Proof. reflexivity. Qed.

Example time_text_sample :
  time_text (list_ascii_of_string "7") 5 0 = "7:05:00".
Proof. reflexivity. Qed.

Lemma code_digit_char (k : Z) : 0 <= k <= 9 -> code (digit_char k) = 48 + k.
Proof.
  intros Hk. unfold code, digit_char.
  rewrite nat_ascii_embedding by lia. lia.
Qed.

Lemma is_digit_digit_char (k : Z) : 0 <= k <= 9 -> is_digit (digit_char k) = true.
Proof.
  intros Hk. unfold is_digit. rewrite code_digit_char by lia.
  apply andb_true_iff. split; apply Z.leb_le; lia.
Qed.

Lemma code_range (c : ascii) : 0 <= code c < 256.
Proof.
  unfold code. pose proof (nat_ascii_bounded c). lia.
Qed.

Lemma code_inj (c c' : ascii) : code c = code c' -> c = c'.
Proof.
  unfold code. intros H. apply Nat2Z.inj in H.
  rewrite <- (ascii_nat_embedding c), <- (ascii_nat_embedding c').
  now f_equal.
Qed.

Lemma eqb_code (c c' : ascii) : code c <> code c' -> Ascii.eqb c c' = false.
Proof.
  intros H. apply Ascii.eqb_neq. intros ->. now apply H.
Qed.

(** *** First matches *)

Definition first_match {A : Type} (p : parser A) (l : list ascii)
  (a : A) (r : list ascii) : Prop :=
  exists others, p l = (a, r) :: others.

Lemma first_match_bind {A B : Type} (p : parser A) (k : A -> parser B)
  l a r b r' :
  first_match p l a r -> first_match (k a) r b r' ->
  first_match (p_bind p k) l b r'.
Proof.
  intros [o1 H1] [o2 H2]. unfold first_match, p_bind.
  rewrite H1. simpl. rewrite H2. simpl. eauto.
Qed.

Lemma first_match_ret {A : Type} (a : A) l : first_match (p_ret a) l a l.
Proof. exists []. reflexivity. Qed.

Lemma first_match_lit (c : ascii) l : first_match (p_lit c) (c :: l) tt l.
Proof. exists []. simpl. now rewrite Ascii.eqb_refl. Qed.

Lemma first_match_full {A : Type} (p : parser A) (chars : list ascii) (a : A) :
  first_match p chars a [] ->
  full_match p (string_of_list_ascii chars) = Ok a.
Proof.
  intros [o H]. unfold full_match.
  rewrite list_ascii_of_string_of_list_ascii, H. reflexivity.
Qed.

Lemma p_digit_digit_char (lo hi k : Z) (r : list ascii) :
  0 <= k <= 9 -> lo <= k <= hi ->
  p_digit lo hi (digit_char k :: r) = [(k, r)].
Proof.
  intros Hk Hr. unfold p_digit. rewrite code_digit_char by lia.
  replace (48 + k - 48) with k by lia.
  destruct (Z.leb_spec (48 + lo) (48 + k)); [|lia].
  destruct (Z.leb_spec (48 + k) (48 + hi)); [|lia].
  reflexivity.
Qed.

Ltac zdiv := Z.to_euclidean_division_equations; lia.

Lemma first_match_two (r : list ascii) (n : Z) :
  0 <= n <= 99 ->
  first_match (p_two (p_digit 0 9) (p_digit 0 9)) (two_digits n ++ r) n r.
Proof.
  intros Hn. unfold two_digits. simpl app.
  eapply first_match_bind.
  - exists []. apply p_digit_digit_char; zdiv.
  - eapply first_match_bind.
    + exists []. apply p_digit_digit_char; zdiv.
    + replace (10 * (n / 10) + n mod 10) with n by zdiv.
      apply first_match_ret.
Qed.

Lemma four_digits_split (y : Z) :
  0 <= y <= 9999 ->
  four_digits y = two_digits (y / 100) ++ two_digits (y mod 100).
Proof.
  intros Hy. unfold four_digits, two_digits. simpl app.
  replace (y / 100 / 10) with (y / 1000) by zdiv.
  replace (y mod 100 / 10) with (y / 10 mod 10) by zdiv.
  replace ((y mod 100) mod 10) with (y mod 10) by zdiv.
  reflexivity.
Qed.

Lemma first_match_Y (r : list ascii) (y : Z) :
  0 <= y <= 9999 -> first_match p_Y (four_digits y ++ r) y r.
Proof.
  intros Hy. unfold p_Y.
  rewrite four_digits_split by assumption. rewrite <- app_assoc.
  eapply first_match_bind; [apply first_match_two; zdiv|].
  eapply first_match_bind; [apply first_match_two; zdiv|].
  replace (100 * (y / 100) + y mod 100) with y by zdiv.
  apply first_match_ret.
Qed.

(** Case analysis over a small range of integers. *)
Lemma Z_range_cases (P : Z -> Prop) (lo : Z) (n : nat) :
  (forall k, In k (map (fun i => lo + Z.of_nat i) (seq 0 n)) -> P k) ->
  forall m, lo <= m < lo + Z.of_nat n -> P m.
Proof.
  intros H m Hm. apply H. apply in_map_iff.
  exists (Z.to_nat (m - lo)). split; [lia | apply in_seq; lia].
Qed.

Ltac range_cases m lo n tac :=
  let k := fresh "k" in
  let Hk := fresh "Hk" in
  pattern m; apply (Z_range_cases _ lo n);
  [ intros k Hk; vm_compute in Hk;
    repeat (destruct Hk as [<- | Hk]; [tac |]); destruct Hk
  | lia ].

Ltac first_match_by_computation :=
  unfold first_match; eexists; cbv; reflexivity.

Lemma first_match_m (r : list ascii) (m : Z) :
  1 <= m <= 12 -> first_match p_m (two_digits m ++ r) m r.
Proof.
  intros Hm. range_cases m 1 12%nat first_match_by_computation.
Qed.

Lemma first_match_d_end (d : Z) :
  1 <= d <= 31 -> first_match p_d (two_digits d) d [].
Proof.
  intros Hd. range_cases d 1 31%nat first_match_by_computation.
Qed.

Lemma first_match_date (y m d : Z) :
  0 <= y <= 9999 -> 1 <= m <= 12 -> 1 <= d <= 31 ->
  first_match p_date
    (four_digits y ++ "-"%char :: two_digits m ++ "-"%char :: two_digits d)
    (y, m, d) [].
Proof.
  intros Hy Hm Hd. unfold p_date.
  eapply first_match_bind; [apply first_match_Y; assumption|].
  eapply first_match_bind; [apply first_match_lit|].
  eapply first_match_bind; [apply first_match_m; assumption|].
  eapply first_match_bind; [apply first_match_lit|].
  eapply first_match_bind; [apply first_match_d_end; assumption|].
  apply first_match_ret.
Qed.

Lemma days_in_month_range (y m : Z) : 28 <= days_in_month y m <= 31.
Proof.
  unfold days_in_month.
  destruct (m =? 2); [destruct (is_leap y); lia|].
  destruct ((m =? 4) || (m =? 6) || (m =? 9) || (m =? 11)); lia.
Qed.

Lemma valid_date_fields (y m d : Z) :
  valid_date y m d = true ->
  1 <= y <= 9999 /\ 1 <= m <= 12 /\ 1 <= d <= days_in_month y m.
Proof.
  unfold valid_date, MINYEAR, MAXYEAR. intros H.
  repeat (apply andb_true_iff in H; destruct H as [H ?]).
  repeat match goal with
         | H : (_ <=? _) = true |- _ => apply Z.leb_le in H
         end.
  lia.
Qed.

Lemma strptime_date_text (y m d : Z) :
  valid_date y m d = true ->
  strptime_date (date_text y m d) = Ok (mk_datetime y m d 0 0 0 0).
Proof.
  intros Hv. pose proof (valid_date_fields _ _ _ Hv) as (Hy & Hm & Hd).
  pose proof (days_in_month_range y m).
  unfold strptime_date, date_text.
  rewrite (first_match_full p_date _ (y, m, d))
    by (apply first_match_date; lia).
  simpl. unfold make_datetime. rewrite Hv. reflexivity.
Qed.

(** *** [split] and [int] on runs of digits *)

Lemma split_on_no_sep (sep : ascii) (l : list ascii) :
  Forall (fun c => Ascii.eqb c sep = false) l -> split_on sep l = [l].
Proof.
  induction 1 as [|c l Hc Hl IH]; simpl; [reflexivity|].
  now rewrite Hc, IH.
Qed.

Lemma split_on_app (sep : ascii) (l1 l2 : list ascii) :
  Forall (fun c => Ascii.eqb c sep = false) l1 ->
  split_on sep (l1 ++ sep :: l2) = l1 :: split_on sep l2.
Proof.
  induction 1 as [|c l Hc Hl IH]; simpl.
  - now rewrite Ascii.eqb_refl.
  - now rewrite Hc, IH.
Qed.

Lemma digit_not_colon (c : ascii) : is_digit c = true -> Ascii.eqb c ":" = false.
Proof.
  unfold is_digit. intros H. apply eqb_code.
  change (code ":") with 58. lia.
Qed.

Lemma digit_not_space (c : ascii) : is_digit c = true -> is_space c = false.
Proof.
  unfold is_digit, is_space. intros H. lia.
Qed.

Lemma digit_value_10 (c : ascii) :
  is_digit c = true -> digit_value 10 c = Some (code c - 48).
Proof.
  unfold is_digit, digit_value. intros H. rewrite H.
  destruct (Z.ltb_spec (code c - 48) 10); [reflexivity | lia].
Qed.

Lemma int_digits_run (ds : list ascii) :
  Forall (fun c => is_digit c = true) ds ->
  forall acc flag, ds <> [] \/ flag = true ->
  int_digits 10 acc flag ds
  = Some (fold_left (fun a c => a * 10 + (code c - 48)) ds acc).
Proof.
  induction 1 as [|c ds Hc Hds IH]; intros acc flag Hne; simpl.
  - destruct Hne as [Hne | ->]; [congruence | reflexivity].
  - rewrite eqb_code by (unfold is_digit in Hc; change (code "_") with 95; lia).
    rewrite digit_value_10 by assumption.
    apply IH. now right.
Qed.

Lemma drop_spaces_digit (c : ascii) (l : list ascii) :
  is_digit c = true -> drop_spaces (c :: l) = c :: l.
Proof.
  intros H. simpl. now rewrite digit_not_space.
Qed.

Lemma strip_digits (ds : list ascii) :
  Forall (fun c => is_digit c = true) ds -> strip ds = ds.
Proof.
  intros H. unfold strip.
  destruct ds as [|c ds]; [reflexivity|].
  rewrite drop_spaces_digit by (now inversion H).
  assert (Hr : Forall (fun c => is_digit c = true) (rev (c :: ds)))
    by (now apply Forall_rev).
  destruct (rev (c :: ds)) as [|c' l'] eqn:E.
  - apply (f_equal (@List.length ascii)) in E.
    rewrite length_rev in E. discriminate.
  - rewrite drop_spaces_digit by (now inversion Hr).
    rewrite <- E. apply rev_involutive.
Qed.

Lemma count_digits_run (ds : list ascii) :
  Forall (fun c => is_digit c = true) ds ->
  count_digits ds = Z.of_nat (List.length ds).
Proof.
  intros H. unfold count_digits. f_equal. f_equal.
  induction H as [|c ds Hc _ IH]; [reflexivity|].
  cbn [filter].
  rewrite eqb_code by (unfold is_digit in Hc; change (code "_") with 95; lia).
  cbn [negb]. now rewrite IH.
Qed.

(** [int] of a run of digits: its value, up to 4300 digits. *)
Lemma py_int_digits_limit (ds : list ascii) :
  Forall (fun c => is_digit c = true) ds -> ds <> [] ->
  py_int_chars 10 ds
  = if int_max_str_digits <? Z.of_nat (List.length ds)
    then Raise ValueError
    else Ok (digits_value ds).
Proof.
  intros H Hne. unfold py_int_chars. rewrite strip_digits by assumption.
  destruct ds as [|c ds]; [congruence|].
  assert (Hc : is_digit c = true) by (now inversion H).
  match goal with
  | |- ?returned = _ =>
      assert (Hsign : returned
                      = match int_digits 10 0 false (c :: ds) with
                        | Some v =>
                            if int_max_str_digits <? count_digits (c :: ds)
                            then Raise ValueError
                            else Ok (1 * v)
                        | None => Raise ValueError
                        end)
  end.
  { unfold is_digit in Hc.
    destruct c as [[] [] [] [] [] [] [] []]; try reflexivity;
      vm_compute in Hc; discriminate. }
  rewrite Hsign, (int_digits_run (c :: ds) H 0 false) by (left; congruence).
  rewrite count_digits_run by assumption.
  destruct (int_max_str_digits <? Z.of_nat (List.length (c :: ds)));
    [reflexivity|].
  unfold digits_value. f_equal. lia.
Qed.

Lemma py_int_digits (ds : list ascii) :
  Forall (fun c => is_digit c = true) ds -> ds <> [] ->
  (List.length ds <= 4300)%nat ->
  py_int_chars 10 ds = Ok (digits_value ds).
Proof.
  intros H Hne Hlen. rewrite py_int_digits_limit by assumption.
  unfold int_max_str_digits.
  destruct (Z.ltb_spec 4300 (Z.of_nat (List.length ds))); [lia | reflexivity].
Qed.

Lemma two_digits_are_digits (n : Z) :
  0 <= n <= 99 -> Forall (fun c => is_digit c = true) (two_digits n).
Proof.
  intros Hn. unfold two_digits.
  repeat constructor; apply is_digit_digit_char; zdiv.
Qed.

Lemma digits_value_two (n : Z) : 0 <= n <= 99 -> digits_value (two_digits n) = n.
Proof.
  intros Hn. unfold digits_value, two_digits. simpl.
  rewrite !code_digit_char by zdiv. zdiv.
Qed.

Lemma unpack_time_text (hs : list ascii) (mi s : Z) :
  Forall (fun c => is_digit c = true) hs -> hs <> [] ->
  (List.length hs <= 4300)%nat ->
  0 <= mi <= 59 -> 0 <= s <= 59 ->
  unpack_hms (split_on ":"
    (list_ascii_of_string (time_text hs mi s)))
  = Ok (digits_value hs, mi, s).
Proof.
  intros Hhs Hne Hlen Hmi Hs. unfold time_text.
  rewrite list_ascii_of_string_of_list_ascii.
  assert (Hc : forall l, Forall (fun c => is_digit c = true) l ->
                    Forall (fun c => Ascii.eqb c ":" = false) l).
  { intros l Hl. eapply Forall_impl; [|exact Hl]. apply digit_not_colon. }
  rewrite split_on_app by auto.
  rewrite split_on_app by (apply Hc, two_digits_are_digits; lia).
  rewrite split_on_no_sep by (apply Hc, two_digits_are_digits; lia).
  unfold unpack_hms.
  rewrite py_int_digits by assumption. simpl bind.
  rewrite !py_int_digits
    by (try (apply two_digits_are_digits; lia); try discriminate;
        simpl; lia).
  simpl bind. rewrite !digits_value_two by lia. reflexivity.
Qed.

(** An hour of more than 4300 digits is refused by [int]. *)
Lemma unpack_time_text_long (hs : list ascii) (mi s : Z) :
  Forall (fun c => is_digit c = true) hs ->
  (4300 < List.length hs)%nat ->
  unpack_hms (split_on ":"
    (list_ascii_of_string (time_text hs mi s)))
  = Raise ValueError.
Proof.
  intros Hhs Hlen. unfold time_text.
  rewrite list_ascii_of_string_of_list_ascii.
  assert (Hc : Forall (fun c => Ascii.eqb c ":" = false) hs).
  { eapply Forall_impl; [|exact Hhs]. apply digit_not_colon. }
  rewrite split_on_app by auto.
  destruct (split_on ":" (two_digits mi ++ ":"%char :: two_digits s))
    as [|b [|c [|x rest]]]; cbn [unpack_hms]; try reflexivity.
  rewrite py_int_digits_limit
    by (try assumption; intros ->; simpl in Hlen; lia).
  unfold int_max_str_digits.
  destruct (Z.ltb_spec 4300 (Z.of_nat (List.length hs))); [reflexivity | lia].
Qed.

(** *** The calendar *)

Definition year_length (y : Z) : Z := if is_leap y then 366 else 365.

Lemma days_before_month_table (y m : Z) :
  1 <= m <= 13 ->
  days_before_month y m
  = nth (Z.to_nat (m - 1))
        [0; 31; 59; 90; 120; 151; 181; 212; 243; 273; 304; 334; 365] 0
    + (if (3 <=? m) && is_leap y then 1 else 0).
Proof.
  intros Hm.
  range_cases m 1 13%nat
    ltac:(unfold days_before_month, days_in_month;
          cbn -[is_leap]; destruct (is_leap y); reflexivity).
Qed.

Lemma days_in_month_step (y m : Z) :
  1 <= m <= 12 ->
  days_before_month y (m + 1) = days_before_month y m + days_in_month y m.
Proof.
  intros Hm. rewrite !days_before_month_table by lia.
  range_cases m 1 12%nat
    ltac:(unfold days_in_month; destruct (is_leap y); reflexivity).
Qed.

Lemma days_before_month_13 (y : Z) : days_before_month y 13 = year_length y.
Proof.
  rewrite days_before_month_table by lia. unfold year_length.
  cbn -[is_leap]. destruct (is_leap y); reflexivity.
Qed.

Lemma days_before_month_mono (y m : Z) :
  1 <= m <= 12 -> days_before_month y m + days_in_month y m <= year_length y.
Proof.
  intros Hm. rewrite days_before_month_table by lia.
  unfold year_length, days_in_month.
  range_cases m 1 12%nat
    ltac:(destruct (is_leap y); apply Z.leb_le; vm_compute; reflexivity).
Qed.

Lemma days_before_year_step (y : Z) :
  days_before_year (y + 1) = days_before_year y + year_length y.
Proof.
  unfold days_before_year, year_length, is_leap.
  replace (y + 1 - 1) with y by lia.
  destruct (Z.eqb_spec (y mod 4) 0), (Z.eqb_spec (y mod 100) 0),
    (Z.eqb_spec (y mod 400) 0); simpl; zdiv.
Qed.

Lemma days_before_year_mono (y y' : Z) :
  y <= y' -> days_before_year y <= days_before_year y'.
Proof.
  intros H. unfold days_before_year. zdiv.
Qed.

(** [next_day] is the date whose ordinal is one more. *)
Lemma toordinal_next_day (dt : datetime) :
  valid_date (year dt) (month dt) (day dt) = true ->
  toordinal (next_day dt) = toordinal dt + 1.
Proof.
  intros Hv. apply valid_date_fields in Hv. destruct Hv as (Hy & Hm & Hd).
  unfold next_day, toordinal.
  destruct (Z.ltb_spec (day dt) (days_in_month (year dt) (month dt))).
  - simpl. lia.
  - destruct (Z.ltb_spec (month dt) 12); simpl.
    + rewrite days_in_month_step by lia. lia.
    + assert (month dt = 12) as E by lia. rewrite E in *.
      pose proof (days_in_month_step (year dt) 12 ltac:(lia)) as S12.
      change (12 + 1) with 13 in S12. rewrite days_before_month_13 in S12.
      rewrite days_before_year_step.
      assert (Z1 : days_before_month (year dt + 1) 1 = 0) by reflexivity.
      lia.
Qed.

Lemma toordinal_max (y m d : Z) :
  valid_date y m d = true ->
  toordinal (mk_datetime y m d 0 0 0 0) <= MAXORDINAL
  /\ (toordinal (mk_datetime y m d 0 0 0 0) = MAXORDINAL ->
      y = 9999 /\ m = 12 /\ d = 31).
Proof.
  intros Hv. apply valid_date_fields in Hv. destruct Hv as (Hy & Hm & Hd).
  unfold toordinal. simpl.
  pose proof (days_before_month_mono y m Hm) as Hmo.
  pose proof (days_before_year_step y) as Hs.
  change MAXORDINAL with (days_before_year 10000).
  destruct (Z.eq_dec y 9999) as [->|Hne].
  - change (9999 + 1) with 10000 in Hs.
    split; [lia|]. intros E.
    assert (Hd' : d = days_in_month 9999 m) by lia.
    assert (Hm' : days_before_month 9999 m + days_in_month 9999 m
                  = year_length 9999) by lia.
    assert (m = 12).
    { revert Hm'. rewrite days_before_month_table by lia.
      range_cases m 1 12%nat ltac:(vm_compute; congruence). }
    subst m. subst d. auto.
  - pose proof (days_before_year_mono (y + 1) 9999 ltac:(lia)).
    assert (days_before_year 9999 < days_before_year 10000) by (vm_compute; reflexivity).
    split; [lia|]. intros E. lia.
Qed.

Lemma next_day_valid (y m d : Z) :
  valid_date y m d = true ->
  (y, m, d) <> (9999, 12, 31) ->
  let n := next_day (mk_datetime y m d 0 0 0 0) in
  valid_date (year n) (month n) (day n) = true.
Proof.
  intros Hv Hne. pose proof (valid_date_fields _ _ _ Hv) as (Hy & Hm & Hd).
  unfold next_day. simpl.
  assert (V : forall a b c, 1 <= a <= 9999 -> 1 <= b <= 12 ->
                            1 <= c <= days_in_month a b ->
                            valid_date a b c = true).
  { intros a b c Ha Hb Hc. unfold valid_date, MINYEAR, MAXYEAR.
    repeat (apply andb_true_iff; split); apply Z.leb_le; lia. }
  destruct (Z.ltb_spec d (days_in_month y m)); simpl.
  - apply V; lia.
  - destruct (Z.ltb_spec m 12); simpl.
    + apply V; try lia. pose proof (days_in_month_range y (m + 1)). lia.
    + assert (m = 12) by lia. subst m.
      assert (d = 31) by (change (days_in_month y 12) with 31 in *; lia).
      subst d.
      assert (y <> 9999) by (intros ->; now apply Hne).
      apply V; try lia. change (days_in_month (y + 1) 1) with 31. lia.
Qed.

Lemma next_day_microsecond (dt : datetime) :
  microsecond (next_day dt) = microsecond dt.
Proof.
  unfold next_day.
  destruct (day dt <? _); [reflexivity|].
  destruct (month dt <? 12); reflexivity.
Qed.

Lemma digits_value_nonneg (ds : list ascii) :
  Forall (fun c => is_digit c = true) ds -> 0 <= digits_value ds.
Proof.
  intros H. unfold digits_value.
  assert (G : forall acc, 0 <= acc ->
              0 <= fold_left (fun a c => a * 10 + (code c - 48)) ds acc).
  { induction H as [|c ds Hc Hds IH]; intros acc Hacc; simpl; [assumption|].
    apply IH. unfold is_digit in Hc. lia. }
  apply G. lia.
Qed.

(** [dt.replace(hour, minute, second)] on a valid date and time. *)
Definition with_time (dt : datetime) (h mi s : Z) : datetime :=
  mk_datetime (year dt) (month dt) (day dt) h mi s (microsecond dt).

Lemma replace_time_valid (dt : datetime) (h mi s : Z) :
  valid_date (year dt) (month dt) (day dt) = true ->
  microsecond dt = 0 ->
  0 <= h <= 23 -> 0 <= mi <= 59 -> 0 <= s <= 59 ->
  replace_time dt h mi s = Ok (with_time dt h mi s).
Proof.
  intros Hv Hus Hh Hmi Hs.
  unfold replace_time, fits_c_int, make_datetime, with_time.
  rewrite Hv, Hus. unfold valid_time.
  repeat match goal with
         | |- context [?a <=? ?b] =>
             destruct (Z.leb_spec a b); [|lia]
         end.
  reflexivity.
Qed.

(** On well-formed text the two parsing steps succeed and leave the
    roll-over and the replacement of the time. *)
Lemma get_corrected_datetime_on_text (y m d : Z) (hs : list ascii) (mi s : Z) :
  valid_date y m d = true ->
  Forall (fun c => is_digit c = true) hs -> hs <> [] ->
  (List.length hs <= 4300)%nat ->
  0 <= mi <= 59 -> 0 <= s <= 59 ->
  get_corrected_datetime (date_text y m d) (time_text hs mi s)
  = ('(arrival_date, hour) <-
       (if digits_value hs >? 23
        then (arrival_date' <- add_one_day (mk_datetime y m d 0 0 0 0) ;;
              Ok (arrival_date', digits_value hs mod 24))
        else Ok (mk_datetime y m d 0 0 0 0, digits_value hs)) ;;
     replace_time arrival_date hour mi s).
Proof.
  intros Hv Hhs Hne Hlen Hmi Hs. unfold get_corrected_datetime.
  rewrite strptime_date_text by assumption. simpl bind.
  rewrite unpack_time_text by assumption. reflexivity.
Qed.

Lemma get_corrected_datetime_long_hour (y m d : Z) (hs : list ascii) (mi s : Z) :
  valid_date y m d = true ->
  Forall (fun c => is_digit c = true) hs ->
  (4300 < List.length hs)%nat ->
  get_corrected_datetime (date_text y m d) (time_text hs mi s)
  = Raise ValueError.
Proof.
  intros Hv Hhs Hlen. unfold get_corrected_datetime.
  rewrite strptime_date_text by assumption. simpl bind.
  now rewrite unpack_time_text_long.
Qed.

(** C9, as the code has it: on a calendar date of the years 1 to 9999
    written [YYYY-MM-DD] and a time written [H:MM:SS] (an hour of one to
    4300 digits, minutes and seconds of two digits and below 60),
    [get_corrected_datetime] returns the service date with the given hour,
    minute and second when the hour is at most 23; when the hour exceeds
    23 it returns the day after the service date with the hour taken
    modulo 24, except on 9999-12-31, the last date a [datetime] can hold,
    where it raises [OverflowError].  An hour of more than 4300 digits
    is refused by [int], with a [ValueError]. *)
Theorem get_corrected_datetime_rolls_over
  (y m d : Z) (hs : list ascii) (mi s : Z) :
  valid_date y m d = true ->
  Forall (fun c => is_digit c = true) hs -> hs <> [] ->
  0 <= mi <= 59 -> 0 <= s <= 59 ->
  let h := digits_value hs in
  let service_day := mk_datetime y m d 0 0 0 0 in
  let returned := get_corrected_datetime (date_text y m d) (time_text hs mi s) in
  ((List.length hs <= 4300)%nat ->
     (h <= 23 -> returned = Ok (with_time service_day h mi s))
     /\ (23 < h -> (y, m, d) <> (9999, 12, 31) ->
          returned = Ok (with_time (next_day service_day) (h mod 24) mi s)
          /\ toordinal (next_day service_day) = toordinal service_day + 1)
     /\ (23 < h -> (y, m, d) = (9999, 12, 31) ->
          returned = Raise OverflowError))
  /\ ((4300 < List.length hs)%nat -> returned = Raise ValueError).
Proof.
  intros Hv Hhs Hne Hmi Hs h service_day returned.
  split; [|intros Hlen; now apply get_corrected_datetime_long_hour].
  intros Hlen.
  pose proof (digits_value_nonneg hs Hhs) as Hh0. fold h in Hh0.
  assert (E : returned =
    ('(arrival_date, hour) <-
       (if h >? 23
        then (arrival_date' <- add_one_day service_day ;;
              Ok (arrival_date', h mod 24))
        else Ok (service_day, h)) ;;
     replace_time arrival_date hour mi s))
    by (now apply get_corrected_datetime_on_text).
  rewrite E. clear E.
  pose proof (toordinal_max y m d Hv) as [Hle Hmax]. fold service_day in Hle, Hmax.
  repeat split.
  - intros Hh. destruct (Z.gtb_spec h 23); [lia|]. simpl bind.
    apply replace_time_valid; [exact Hv | reflexivity | lia | lia | lia].
  - destruct (Z.gtb_spec h 23); [|lia]. unfold add_one_day.
    destruct (Z.leb_spec (toordinal service_day + 1) MAXORDINAL) as [Hok|Hov].
    + simpl bind.
      apply replace_time_valid;
        [now apply next_day_valid | apply next_day_microsecond
        | pose proof (Z.mod_pos_bound h 24); lia | lia | lia].
    + exfalso. assert (Heq : toordinal service_day = MAXORDINAL) by lia.
      destruct (Hmax Heq) as (-> & -> & ->). now apply H0.
  - apply toordinal_next_day. exact Hv.
  - intros Hh Heq. inversion Heq; subst y m d.
    destruct (Z.gtb_spec h 23); [|lia]. reflexivity.
Qed.

(** The last date a [datetime] can hold has no day after it: there the
    function raises where C9 as written has it return the next day. *)
Lemma get_corrected_datetime_overflows_at_max :
  valid_date 9999 12 31 = true
  /\ date_text 9999 12 31 = "9999-12-31"
  /\ time_text (list_ascii_of_string "24") 0 0 = "24:00:00"
  /\ get_corrected_datetime "9999-12-31" "24:00:00" = Raise OverflowError.
Proof. repeat split. Qed.

Lemma get_corrected_datetime_rolls_over_witness :
  get_corrected_datetime "2024-02-28" "07:05:09"
    = Ok (mk_datetime 2024 2 28 7 5 9 0)
  /\ get_corrected_datetime "2024-02-28" "25:10:00"
    = Ok (mk_datetime 2024 2 29 1 10 0 0).
Proof.
  pose proof (get_corrected_datetime_rolls_over 2024 2 28
                (list_ascii_of_string "07") 5 9
                eq_refl
                ltac:(repeat constructor) ltac:(discriminate)
                ltac:(lia) ltac:(lia)) as (H1 & _).
  pose proof (get_corrected_datetime_rolls_over 2024 2 28
                (list_ascii_of_string "25") 10 0
                eq_refl
                ltac:(repeat constructor) ltac:(discriminate)
                ltac:(lia) ltac:(lia)) as (H2 & _).
  split.
  - apply (proj1 (H1 ltac:(simpl; lia))). vm_compute. discriminate.
  - apply (proj1 (proj2 (H2 ltac:(simpl; lia)))); [reflexivity | discriminate].
Defined.

(** *** Times before midnight read the same both ways

    On a calendar date and a time [HH:MM:SS] with an hour below 24,
    [strptime] with the format of date and time returns what
    [get_corrected_datetime] returns. *)

Lemma first_match_d (r : list ascii) (d : Z) :
  1 <= d <= 31 -> first_match p_d (two_digits d ++ r) d r.
Proof.
  intros Hd. range_cases d 1 31%nat first_match_by_computation.
Qed.

Lemma first_match_H (r : list ascii) (h : Z) :
  0 <= h <= 23 -> first_match p_H (two_digits h ++ r) h r.
Proof.
  intros Hh. range_cases h 0 24%nat first_match_by_computation.
Qed.

Lemma first_match_M (r : list ascii) (mi : Z) :
  0 <= mi <= 59 -> first_match p_M (two_digits mi ++ r) mi r.
Proof.
  intros Hmi. range_cases mi 0 60%nat first_match_by_computation.
Qed.

Lemma first_match_S_end (s : Z) :
  0 <= s <= 59 -> first_match p_S (two_digits s) s [].
Proof.
  intros Hs. range_cases s 0 60%nat first_match_by_computation.
Qed.

Lemma first_match_space (k : Z) (r : list ascii) :
  0 <= k <= 9 ->
  first_match p_spaces (" "%char :: digit_char k :: r) tt (digit_char k :: r).
Proof.
  intros Hk. exists []. simpl.
  assert (E : is_re_space (digit_char k) = false).
  { unfold is_re_space. rewrite code_digit_char by lia. lia. }
  rewrite E. reflexivity.
Qed.

Lemma list_ascii_of_string_append (a b : string) :
  list_ascii_of_string (a ++ b) = list_ascii_of_string a ++ list_ascii_of_string b.
Proof. induction a; simpl; congruence. Qed.

Lemma strptime_date_time_text (y m d h mi s : Z) :
  valid_date y m d = true ->
  0 <= h <= 23 -> 0 <= mi <= 59 -> 0 <= s <= 59 ->
  strptime_date_time (date_text y m d ++ " " ++ time_text (two_digits h) mi s)
  = Ok (mk_datetime y m d h mi s 0).
Proof.
  intros Hv Hh Hmi Hs.
  pose proof (valid_date_fields _ _ _ Hv) as (Hy & Hm & Hd).
  pose proof (days_in_month_range y m).
  unfold strptime_date_time, full_match.
  rewrite !list_ascii_of_string_append. unfold date_text, time_text.
  rewrite !list_ascii_of_string_of_list_ascii.
  assert (F : first_match
            (p_bind p_date (fun ymd => p_bind p_spaces (fun _ =>
             p_bind p_time (fun hms => p_ret (ymd, hms)))))
            ((four_digits y ++ "-"%char :: two_digits m ++ "-"%char :: two_digits d)
             ++ list_ascii_of_string " "
             ++ two_digits h ++ ":"%char :: two_digits mi ++ ":"%char :: two_digits s)
            ((y, m, d), (h, mi, s)) []).
  { eapply first_match_bind.
    - unfold p_date.
      rewrite <- app_assoc. simpl app.
      eapply first_match_bind; [apply first_match_Y; lia|].
      eapply first_match_bind; [apply first_match_lit|].
      eapply first_match_bind; [apply first_match_m; assumption|].
      eapply first_match_bind; [apply first_match_lit|].
      eapply first_match_bind; [apply first_match_d; lia|].
      apply first_match_ret.
    - eapply first_match_bind; [apply first_match_space; zdiv|].
      unfold p_time.
      eapply first_match_bind.
      + eapply first_match_bind; [apply (first_match_H _ h); assumption|].
        eapply first_match_bind; [apply first_match_lit|].
        eapply first_match_bind; [apply first_match_M; assumption|].
        eapply first_match_bind; [apply first_match_lit|].
        eapply first_match_bind; [apply first_match_S_end; assumption|].
        apply first_match_ret.
      + apply first_match_ret. }
  destruct F as (others & ->). simpl.
  unfold make_datetime. rewrite Hv. unfold valid_time.
  repeat match goal with
         | |- context [?a <=? ?b] => destruct (Z.leb_spec a b); [|lia]
         end.
  reflexivity.
Qed.

Lemma digits_value_two_digits (h : Z) :
  0 <= h <= 99 ->
  Forall (fun c => is_digit c = true) (two_digits h)
  /\ two_digits h <> [] /\ digits_value (two_digits h) = h.
Proof.
  intros Hh. repeat split.
  - now apply two_digits_are_digits.
  - discriminate.
  - now apply digits_value_two.
Qed.

Lemma get_corrected_datetime_text (y m d h mi s : Z) :
  valid_date y m d = true ->
  0 <= h <= 23 -> 0 <= mi <= 59 -> 0 <= s <= 59 ->
  get_corrected_datetime (date_text y m d) (time_text (two_digits h) mi s)
  = Ok (mk_datetime y m d h mi s 0).
Proof.
  intros Hv Hh Hmi Hs.
  destruct (digits_value_two_digits h ltac:(lia)) as (Hf & Hne & Hval).
  rewrite get_corrected_datetime_on_text by (assumption || (simpl; lia)).
  rewrite Hval.
  destruct (Z.gtb_spec h 23); [lia|]. simpl bind.
  rewrite replace_time_valid; [reflexivity | exact Hv | reflexivity | lia | lia | lia].
Qed.

Example strptime_has_no_hour_24 :
  strptime_date_time ("2024-01-01" ++ " " ++ "24:10:00") = Raise ValueError
  /\ get_corrected_datetime "2024-01-01" "24:10:00"
     = Ok (mk_datetime 2024 1 2 0 10 0 0).
Proof. split; reflexivity. Qed.

(** ** [time_difference_strings]

    The module defines the function twice; the two definitions differ in
    the marker they append, and the second replaces the first when the
    module is loaded.  The second marker is the four characters the
    source file holds, given here by their UTF-8 bytes. *)

Definition first_marker : string := "*".

Definition realtime_marker : string :=
  utf8 [195; 176; 197; 184; 226; 128; 156; 194; 161].

(** [str(n)] for [n] not negative. *)
Definition str_nonneg (n : Z) : string :=
  DecimalString.NilZero.string_of_uint (N.to_uint (Z.to_N n)).

Section Program.

(** [int(td.total_seconds() / 60)] for a [timedelta] of the given number
    of microseconds.  Python evaluates the two divisions in binary
    floating point and truncates towards zero; the development holds for
    whatever function that is. *)
Variable truncated_minutes : Z -> Z.

(** [realtime_data and realtime_data[date_index]]: [None] and the empty
    list are false without the index being taken. *)
Definition realtime_flag (realtime_data : option (list bool))
  (date_index : nat) : result bool :=
  match realtime_data with
  | None => Ok false
  | Some [] => Ok false
  | Some flags =>
      match nth_error flags date_index with
      | Some b => Ok b
      | None => Raise IndexError
      end
  end.

(** The body of the loop, for either marker. *)
Definition time_string (marker : string) (current_time : datetime)
  (realtime_data : option (list bool)) (date_index : nat) (date : datetime)
  : result string :=
  let time_difference := datetime_sub date current_time in
  let minutes_difference := truncated_minutes time_difference in
  let time_string_to_add :=
    if minutes_difference =? 0 then "Now"
    else (str_nonneg (Z.abs minutes_difference) ++ " min")%string in
  flag <- realtime_flag realtime_data date_index ;;
  Ok (if flag then (time_string_to_add ++ marker)%string
      else time_string_to_add).

(** The loop over [enumerate(date_list)], from index [date_index] on. *)
Fixpoint time_strings_loop (marker : string) (current_time : datetime)
  (realtime_data : option (list bool)) (date_index : nat)
  (date_list : list datetime) (time_strings : list string)
  : result (list string) :=
  match date_list with
  | [] => Ok time_strings
  | date :: rest =>
      s <- time_string marker current_time realtime_data date_index date ;;
      time_strings_loop marker current_time realtime_data (S date_index) rest
        (time_strings ++ [s])
  end.

(** The first definition; nothing calls it. *)
Definition time_difference_strings_first (current_time : datetime)
  (date_list : list datetime) (realtime_data : option (list bool))
  : result (list string) :=
  time_strings_loop first_marker current_time realtime_data 0 date_list [].

(** The definition in effect.  [current_time] is what [datetime.now()]
    returns. *)
Definition time_difference_strings (current_time : datetime)
  (date_list : list datetime) (realtime_data : option (list bool))
  : result (list string) :=
  time_strings_loop realtime_marker current_time realtime_data 0 date_list [].

(** The text element [date_index] is specified to be. *)
Definition minutes_text (minutes_difference : Z) : string :=
  if minutes_difference =? 0 then "Now"
  else (str_nonneg (Z.abs minutes_difference) ++ " min")%string.

Definition flag_value (realtime_data : option (list bool)) (i : nat) : bool :=
  match realtime_data with
  | Some flags => nth i flags false
  | None => false
  end.

Definition shown (marker : string) (current_time : datetime)
  (realtime_data : option (list bool)) (i : nat) (date : datetime) : string :=
  (minutes_text (truncated_minutes (datetime_sub date current_time))
   ++ (if flag_value realtime_data i then marker else ""))%string.

Definition flags_cover (realtime_data : option (list bool)) (n : nat) : Prop :=
  match realtime_data with
  | None => True
  | Some [] => True
  | Some flags => (n <= List.length flags)%nat
  end.

Lemma append_empty (s : string) : (s ++ "")%string = s.
Proof. induction s; simpl; congruence. Qed.

Lemma length_append (s1 s2 : string) :
  String.length (s1 ++ s2) = (String.length s1 + String.length s2)%nat.
Proof. induction s1; simpl; congruence. Qed.

Lemma realtime_flag_covered (realtime_data : option (list bool)) (n i : nat) :
  flags_cover realtime_data n -> (i < n)%nat ->
  realtime_flag realtime_data i = Ok (flag_value realtime_data i).
Proof.
  unfold flags_cover, realtime_flag, flag_value.
  destruct realtime_data as [[|b flags]|]; intros Hc Hi.
  - now destruct i.
  - destruct (nth_error (b :: flags) i) as [x|] eqn:E.
    + now rewrite (nth_error_nth _ _ false E).
    + apply nth_error_None in E. lia.
  - reflexivity.
Qed.

Lemma time_string_covered marker current_time realtime_data n i date :
  flags_cover realtime_data n -> (i < n)%nat ->
  time_string marker current_time realtime_data i date
  = Ok (shown marker current_time realtime_data i date).
Proof.
  intros Hc Hi. unfold time_string, shown, minutes_text.
  rewrite (realtime_flag_covered _ n) by assumption. simpl.
  destruct (flag_value realtime_data i); [reflexivity|].
  now rewrite append_empty.
Qed.

Lemma time_strings_loop_covered marker current_time realtime_data date_list :
  forall i acc,
    flags_cover realtime_data (i + List.length date_list) ->
    exists out,
      time_strings_loop marker current_time realtime_data i date_list acc
        = Ok (acc ++ out)
      /\ List.length out = List.length date_list
      /\ forall j date, nth_error date_list j = Some date ->
           nth_error out j
           = Some (shown marker current_time realtime_data (i + j) date).
Proof.
  induction date_list as [|date rest IH]; intros i acc Hc; simpl.
  - exists []. rewrite app_nil_r. repeat split; auto.
    intros [|j] d; discriminate.
  - rewrite (time_string_covered _ _ _ (i + S (List.length rest)))
      by (simpl in Hc; auto; lia).
    simpl bind.
    destruct (IH (S i) (acc ++ [shown marker current_time realtime_data i date]))
      as (out & Hout & Hlen & Hnth).
    { simpl in Hc. now replace (S i + List.length rest)%nat
        with (i + S (List.length rest))%nat by lia. }
    exists (shown marker current_time realtime_data i date :: out).
    rewrite Hout, <- app_assoc. repeat split; simpl; auto.
    intros [|j] d Hd; simpl in *.
    + inversion Hd; subst. now rewrite Nat.add_0_r.
    + rewrite (Hnth j d Hd). do 2 f_equal. lia.
Qed.

(** With a flag for every datetime the function returns as many texts
    as it is given datetimes. *)
Lemma time_difference_strings_returns current_time date_list flags :
  (List.length date_list <= List.length flags)%nat ->
  exists time_strings,
    time_difference_strings current_time date_list (Some flags)
      = Ok time_strings
    /\ List.length time_strings = List.length date_list.
Proof.
  intros Hlen.
  destruct (time_strings_loop_covered realtime_marker current_time
              (Some flags) date_list 0%nat []) as (out & Hout & Hl & _).
  - simpl. destruct flags; [exact I | exact Hlen].
  - exists out. split; assumption.
Qed.

Lemma minutes_text_now (minutes_difference : Z) :
  minutes_text minutes_difference = "Now" <-> minutes_difference = 0.
Proof.
  unfold minutes_text. destruct (Z.eqb_spec minutes_difference 0) as [E|E].
  - tauto.
  - split; [|tauto]. intros H.
    apply (f_equal String.length) in H.
    rewrite length_append in H. simpl in H. lia.
Qed.

(** C10: for every list of datetimes and every realtime flag list that is
    [None], empty or at least as long as the datetime list, the later
    definition of [time_difference_strings] returns (it does not raise) a
    list of the same length as the datetime list; element [i] is ["Now"]
    exactly when the truncated whole-minute difference from the current
    time is 0 and otherwise the absolute value of that difference followed
    by [" min"], with the realtime marker appended when flag [i] is
    true. *)
Theorem time_difference_strings_total
  (current_time : datetime) (date_list : list datetime)
  (realtime_data : option (list bool)) :
  realtime_data = None \/ realtime_data = Some []
  \/ (exists flags, realtime_data = Some flags
                    /\ (List.length date_list <= List.length flags)%nat) ->
  exists time_strings,
    time_difference_strings current_time date_list realtime_data
      = Ok time_strings
    /\ List.length time_strings = List.length date_list
    /\ forall i date, nth_error date_list i = Some date ->
         let minutes_difference :=
           truncated_minutes (datetime_sub date current_time) in
         let text :=
           if minutes_difference =? 0 then "Now"
           else (str_nonneg (Z.abs minutes_difference) ++ " min")%string in
         nth_error time_strings i
           = Some (text ++ (if flag_value realtime_data i
                            then realtime_marker else ""))%string
         /\ (text = "Now" <-> minutes_difference = 0)
         /\ (minutes_difference <> 0 -> 0 < Z.abs minutes_difference).
Proof.
  intros Hflags.
  assert (Hc : flags_cover realtime_data (0 + List.length date_list)).
  { destruct Hflags as [-> | [-> | (flags & -> & Hlen)]]; simpl; auto.
    destruct flags; simpl; auto. }
  destruct (time_strings_loop_covered realtime_marker current_time
              realtime_data date_list 0%nat [] Hc) as (out & Hout & Hlen & Hnth).
  exists out. unfold time_difference_strings. rewrite Hout.
  repeat split; auto.
  - apply (Hnth i date H).
  - apply minutes_text_now.
  - apply minutes_text_now.
  - lia.
Qed.

(** A flag list shorter than the datetime list (and not empty) makes the
    function raise: the condition on the flags is needed. *)
Example time_difference_strings_first_marker :
  forall now d, time_difference_strings_first now [d] (Some [true])
                = bind (time_difference_strings now [d] (Some [false]))
                       (fun l => Ok (map (fun s => (s ++ "*")%string) l)).
Proof. reflexivity. Qed.

Example time_difference_strings_short_flags :
  forall now d1 d2,
    time_difference_strings now [d1; d2] (Some [true]) = Raise IndexError.
Proof. reflexivity. Qed.

End Program.

Definition exact_minutes (microseconds : Z) : Z :=
  Z.quot microseconds 60000000.

Example time_difference_strings_sample :
  time_difference_strings exact_minutes
    (mk_datetime 2024 3 1 12 0 30 0)
    [mk_datetime 2024 3 1 12 0 59 0; mk_datetime 2024 3 1 12 7 0 0;
     mk_datetime 2024 3 1 11 57 0 0]
    (Some [false; true; false])
  = Ok ["Now"; ("6 min" ++ realtime_marker)%string; "3 min"].
Proof. vm_compute. reflexivity. Qed.

Lemma time_difference_strings_total_witness :
  exists time_strings,
    time_difference_strings exact_minutes
      (mk_datetime 2024 3 1 12 0 30 0)
      [mk_datetime 2024 3 1 12 0 59 0; mk_datetime 2024 3 1 12 7 0 0]
      (Some [false; true; false]) = Ok time_strings
    /\ List.length time_strings = 2%nat.
Proof.
  destruct (time_difference_strings_total exact_minutes
              (mk_datetime 2024 3 1 12 0 30 0)
              [mk_datetime 2024 3 1 12 0 59 0; mk_datetime 2024 3 1 12 7 0 0]
              (Some [false; true; false]))
    as (out & Hout & Hlen & _).
  - right. right. exists [false; true; false]. split; [reflexivity | simpl; lia].
  - exists out. split; assumption.
Defined.

(** ** [get_lat_long_from_string_address]

    The request is outside the model: the function is given [data], the
    body of the lookup service's answer as [response.json()] returns it.
    Floating-point numbers are a parameter, with the conversions Python's
    [float] performs. *)

Section Geocoder.

Variable float : Type.
Variable zero : float.
(** [float(text)], a [ValueError] when the text is not a number. *)
Variable float_of_text : string -> result float.
(** [float(n)] for an integer, an [OverflowError] when it is too large. *)
Variable float_of_Z : Z -> result float.
(** [x == 0.0]. *)
Variable float_is_zero : float -> bool.

Local Unset Elimination Schemes.

Inductive json : Type :=
| JNull
| JBool (b : bool)
| JInt (n : Z)
| JFloat (x : float)
| JString (s : string)
| JArray (items : list json)
| JObject (members : list (string * json)).

Local Set Elimination Schemes.

(** Truth value of a Python object read from JSON. *)
Definition truthy (v : json) : bool :=
  match v with
  | JNull => false
  | JBool b => b
  | JInt n => negb (n =? 0)
  | JFloat x => negb (float_is_zero x)
  | JString s => negb (String.eqb s "")
  | JArray items => match items with [] => false | _ => true end
  | JObject members => match members with [] => false | _ => true end
  end.

(** The value of a key of an object; of two members with one key the
    later one is the one the Python dictionary holds. *)
Fixpoint member (key : string) (members : list (string * json)) : option json :=
  match members with
  | [] => None
  | (k, v) :: rest =>
      match member key rest with
      | Some v' => Some v'
      | None => if String.eqb k key then Some v else None
      end
  end.

(** [data[0]]. *)
Definition first_item (data : json) : result json :=
  match data with
  | JArray (x :: _) => Ok x
  | JArray [] => Raise IndexError
  | JString (String c _) => Ok (JString (String c ""))
  | JString EmptyString => Raise IndexError
  | JObject _ => Raise KeyError
  | JNull | JBool _ | JInt _ | JFloat _ => Raise TypeError
  end.

(** [location[key]] for a text key. *)
Definition item (location : json) (key : string) : result json :=
  match location with
  | JObject members =>
      match member key members with
      | Some v => Ok v
      | None => Raise KeyError
      end
  | _ => Raise TypeError
  end.

(** [float(v)]. *)
Definition py_float (v : json) : result float :=
  match v with
  | JString s => float_of_text s
  | JFloat x => Ok x
  | JInt n => float_of_Z n
  | JBool b => float_of_Z (if b then 1 else 0)
  | JNull | JArray _ | JObject _ => Raise TypeError
  end.

Definition get_lat_long_from_string_address (data : json)
  : result (float * float) :=
  if negb (truthy data) then Ok (zero, zero)
  else
    location <- first_item data ;;
    lat_value <- item location "lat" ;;
    lat <- py_float lat_value ;;
    lon_value <- item location "lon" ;;
    lon <- py_float lon_value ;;
    Ok (lat, lon).

(** C7: when the lookup answers a list whose first result is an object
    with a latitude and a longitude that [float] accepts, the function
    returns that pair of floats; when the lookup answers an empty list it
    does not raise and returns (0.0, 0.0). *)
Theorem get_lat_long_first_result_or_zero :
  (forall members rest lat_value lon_value lat lon,
      member "lat" members = Some lat_value ->
      member "lon" members = Some lon_value ->
      py_float lat_value = Ok lat ->
      py_float lon_value = Ok lon ->
      get_lat_long_from_string_address (JArray (JObject members :: rest))
      = Ok (lat, lon))
  /\ get_lat_long_from_string_address (JArray []) = Ok (zero, zero).
Proof.
  split; [|reflexivity].
  intros members rest lat_value lon_value lat lon Hlat Hlon Flat Flon.
  unfold get_lat_long_from_string_address. simpl.
  rewrite Hlat. simpl. rewrite Flat. simpl.
  rewrite Hlon. simpl. rewrite Flon. reflexivity.
Qed.

(** A first result without coordinates, or with text that is not a
    number, does raise. *)
Example get_lat_long_missing_key :
  get_lat_long_from_string_address (JArray [JObject [("lat", JString "1")]])
  = (lat <- float_of_text "1" ;; Raise KeyError).
Proof. reflexivity. Qed.

End Geocoder.

Lemma get_lat_long_first_result_or_zero_witness :
  get_lat_long_from_string_address Z 0 (py_int 10) Ok (Z.eqb 0)
    (JArray Z [JObject Z [("lat", JString Z "40"); ("lon", JString Z "-75")]])
  = Ok (40, -75).
Proof.
  apply (proj1 (get_lat_long_first_result_or_zero Z 0 (py_int 10) Ok (Z.eqb 0))
           [("lat", JString Z "40"); ("lon", JString Z "-75")] []
           (JString Z "40") (JString Z "-75")); reflexivity.
Defined.

(** ** Dictionaries

    A Python [dict] iterates in insertion order, and assigning to a key
    that is present keeps its place: an association list with one pair
    per key. *)

Section Dict.

Context {K V : Type}.
Variable eqb : K -> K -> bool.

Fixpoint dict_get (k : K) (d : list (K * V)) : option V :=
  match d with
  | [] => None
  | (k', v) :: d' => if eqb k k' then Some v else dict_get k d'
  end.

Fixpoint dict_set (k : K) (v : V) (d : list (K * V)) : list (K * V) :=
  match d with
  | [] => [(k, v)]
  | (k', v') :: d' =>
      if eqb k k' then (k', v) :: d' else (k', v') :: dict_set k v d'
  end.

Hypothesis eqb_eq : forall a b, eqb a b = true <-> a = b.

Lemma eqb_same (a : K) : eqb a a = true.
Proof. now apply eqb_eq. Qed.

Lemma eqb_other (a b : K) : a <> b -> eqb a b = false.
Proof.
  intros H. destruct (eqb a b) eqn:E; [|reflexivity].
  apply eqb_eq in E. contradiction.
Qed.

Lemma dict_get_In (k : K) (v : V) (d : list (K * V)) :
  dict_get k d = Some v -> In (k, v) d.
Proof.
  induction d as [|[k' v'] d IH]; simpl; [discriminate|].
  destruct (eqb k k') eqn:E.
  - apply eqb_eq in E. subst. intros H. inversion H. now left.
  - intros H. right. now apply IH.
Qed.

Lemma dict_get_None (k : K) (d : list (K * V)) :
  dict_get k d = None <-> ~ In k (map fst d).
Proof.
  induction d as [|[k' v'] d IH]; simpl; [tauto|].
  destruct (eqb k k') eqn:E.
  - apply eqb_eq in E. subst. split; [discriminate | tauto].
  - rewrite IH. split; [|tauto].
    intros H [H'|H']; [|tauto]. subst. rewrite eqb_same in E. discriminate.
Qed.

Lemma In_dict_get (k : K) (v : V) (d : list (K * V)) :
  NoDup (map fst d) -> In (k, v) d -> dict_get k d = Some v.
Proof.
  induction d as [|[k' v'] d IH]; simpl; [tauto|].
  intros Hnd [H|H]; inversion Hnd; subst.
  - inversion H; subst. now rewrite eqb_same.
  - destruct (eqb k k') eqn:E.
    + apply eqb_eq in E. subst. exfalso. apply H2.
      change k' with (fst (k', v)). now apply in_map.
    + now apply IH.
Qed.

Lemma dict_set_fresh (k : K) (v : V) (d : list (K * V)) :
  dict_get k d = None -> dict_set k v d = d ++ [(k, v)].
Proof.
  induction d as [|[k' v'] d IH]; simpl; [reflexivity|].
  destruct (eqb k k'); [discriminate|]. intros H. now rewrite IH.
Qed.

Lemma dict_set_keys (k : K) (v v0 : V) (d : list (K * V)) :
  dict_get k d = Some v0 -> map fst (dict_set k v d) = map fst d.
Proof.
  induction d as [|[k' v'] d IH]; simpl; [discriminate|].
  destruct (eqb k k'); simpl; [reflexivity|]. intros H. now rewrite IH.
Qed.

Lemma dict_get_set (k : K) (v : V) (d : list (K * V)) (k' : K) :
  dict_get k' (dict_set k v d) = if eqb k' k then Some v else dict_get k' d.
Proof.
  induction d as [|[k0 v0] d IH]; simpl.
  - destruct (eqb k' k); reflexivity.
  - destruct (eqb k k0) eqn:E; simpl.
    + apply eqb_eq in E. subst k0. destruct (eqb k' k); reflexivity.
    + rewrite IH. destruct (eqb k' k0) eqn:E0; [|reflexivity].
      apply eqb_eq in E0. subst k0.
      destruct (eqb k' k) eqn:E1; [|reflexivity].
      apply eqb_eq in E1. subst k'. rewrite eqb_same in E. discriminate.
Qed.

Lemma dict_set_keys_fresh (k : K) (v : V) (d : list (K * V)) :
  dict_get k d = None -> map fst (dict_set k v d) = map fst d ++ [k].
Proof.
  intros H. rewrite dict_set_fresh by assumption. now rewrite map_app.
Qed.

Lemma dict_get_Some_key (k : K) (v : V) (d : list (K * V)) :
  dict_get k d = Some v -> In k (map fst d).
Proof.
  intros H. apply dict_get_In in H.
  change k with (fst (k, v)). now apply in_map.
Qed.

Lemma dict_key_get (k : K) (d : list (K * V)) :
  In k (map fst d) -> exists v, dict_get k d = Some v.
Proof.
  intros H. destruct (dict_get k d) as [v|] eqn:E; [eauto|].
  apply dict_get_None in E. contradiction.
Qed.

Lemma dict_set_NoDup (k : K) (v : V) (d : list (K * V)) :
  NoDup (map fst d) -> NoDup (map fst (dict_set k v d)).
Proof.
  intros H. destruct (dict_get k d) as [v0|] eqn:E.
  - now rewrite (dict_set_keys k v v0).
  - rewrite dict_set_keys_fresh by assumption.
    apply NoDup_rev in H. rewrite <- (rev_involutive (_ ++ _)).
    apply NoDup_rev. rewrite rev_app_distr. simpl. constructor; [|assumption].
    rewrite <- in_rev. now apply dict_get_None.
Qed.

End Dict.

(** A loop whose body can raise. *)
Fixpoint fold_result {A B : Type} (f : B -> A -> result B) (l : list A) (b : B)
  : result B :=
  match l with
  | [] => Ok b
  | a :: l' => b' <- f b a ;; fold_result f l' b'
  end.

(** ** [gtfs_route_type_to_string]

    The names end in the characters the source file holds after the
    word, given by their UTF-8 bytes. *)

Definition route_type_to_string_mapping : list (Z * string) :=
  [ (0, "Trolley " ++ utf8 [195; 176; 197; 184; 197; 161; 226; 128; 185]);
    (1, "Subway " ++ utf8 [195; 176; 197; 184; 197; 161; 226; 128; 161]);
    (2, "Train " ++ utf8 [195; 176; 197; 184; 197; 161; 226; 128; 160]);
    (3, "Bus " ++ utf8 [195; 176; 197; 184; 197; 161]);
    (4, "Ferry " ++ utf8 [195; 162; 226; 128; 186; 194; 180; 195; 175; 194; 184]);
    (5, "Cable Tram " ++ utf8 [195; 176; 197; 184; 197; 161; 226; 128; 185]);
    (6, "Aerial Lift " ++ utf8 [195; 176; 197; 184; 197; 161; 194; 160]);
    (7, "Funicular " ++ utf8 [195; 176; 197; 184; 197; 161; 194; 161]);
    (11, "TrolleyBus " ++ utf8 [195; 176; 197; 184; 197; 161; 197; 189]);
    (12, "Monorail " ++ utf8 [195; 176; 197; 184; 197; 161]) ]%string.

Definition gtfs_route_type_to_string (route_type_int : Z) : result string :=
  match dict_get Z.eqb route_type_int route_type_to_string_mapping with
  | Some name => Ok name
  | None => Raise KeyError
  end.

(** ** Stops, departures and the aggregation *)

(** Python floats and the operations on them that the program uses.
    Binary floating point and the functions of [math] are an interface
    here, not an implementation: the development holds for every
    implementation of it.  [sin], [cos] and [sqrt] raise [ValueError]
    outside their domain and [x ** 2] raises [OverflowError] when the
    result is too large. *)
Record float_ops : Type := mk_float_ops {
  fl : Type;
  fl_ltb : fl -> fl -> bool;
  fl_of_int : Z -> fl;
  fl_add : fl -> fl -> fl;
  fl_sub : fl -> fl -> fl;
  fl_mul : fl -> fl -> fl;
  fl_div : fl -> fl -> fl;
  fl_square : fl -> result fl;
  fl_radians : fl -> fl;
  fl_sin : fl -> result fl;
  fl_cos : fl -> result fl;
  fl_sqrt : fl -> result fl;
  fl_atan2 : fl -> fl -> fl
}.

Section Transit.

Variable F : float_ops.

Local Abbreviation float := (fl F).
Local Abbreviation float_ltb := (fl_ltb F).

(** ** [haversine] *)

Definition haversine (lat1 lon1 lat2 lon2 : float) : result float :=
  (* Convert latitude and longitude from degrees to radians *)
  let lat1 := fl_radians F lat1 in
  let lon1 := fl_radians F lon1 in
  let lat2 := fl_radians F lat2 in
  let lon2 := fl_radians F lon2 in
  (* Haversine formula *)
  let d_lat := fl_sub F lat2 lat1 in
  let d_lon := fl_sub F lon2 lon1 in
  sin_lat <- fl_sin F (fl_div F d_lat (fl_of_int F 2)) ;;
  sin_lat_2 <- fl_square F sin_lat ;;
  cos_lat1 <- fl_cos F lat1 ;;
  cos_lat2 <- fl_cos F lat2 ;;
  sin_lon <- fl_sin F (fl_div F d_lon (fl_of_int F 2)) ;;
  sin_lon_2 <- fl_square F sin_lon ;;
  let a := fl_add F sin_lat_2 (fl_mul F (fl_mul F cos_lat1 cos_lat2) sin_lon_2) in
  sqrt_a <- fl_sqrt F a ;;
  sqrt_1_a <- fl_sqrt F (fl_sub F (fl_of_int F 1) a) ;;
  let c := fl_mul F (fl_of_int F 2) (fl_atan2 F sqrt_a sqrt_1_a) in
  (* Radius of Earth in kilometers (approximate) *)
  let r := fl_of_int F 6371 in
  (* Calculate distance *)
  let distance := fl_mul F r c in
  Ok distance.

(** A stop of the transit API: [stop["id"]], [stop["stop_name"]] and
    [stop["geometry"]["coordinates"]], longitude first. *)
Record stop : Type := mk_stop {
  stop_id : Z;
  stop_name : string;
  coordinates : float * float
}.

(** A departure of a stop: the fields of [stop_departure] the program
    reads.  [estimated] and [scheduled] are those of
    [stop_departure["arrival"]] and may be [null].  Of
    [stop_departure["arrival_time"]] the program only prints the value:
    what matters is whether the key is there. *)
Record departure : Type := mk_stop_departure {
  trip_id : Z;
  route_short_name : string;
  route_type : Z;
  agency_name : string;
  trip_headsign : string;
  service_date : string;
  estimated : option string;
  scheduled : option string;
  has_arrival_time : bool
}.

(** A departure as the API sends them, with its ["arrival_time"]. *)
Definition mk_departure (trip_id : Z) (route_short_name : string)
  (route_type : Z) (agency_name trip_headsign service_date : string)
  (estimated scheduled : option string) : departure :=
  mk_stop_departure trip_id route_short_name route_type agency_name
    trip_headsign service_date estimated scheduled true.

(** The value kept per trip id. *)
Record tracked : Type := mk_tracked {
  t_departure : departure;
  t_closest_stop : stop;
  t_distance : float;
  t_arrival_time : datetime;
  t_realtime_data : bool
}.

(** [if realtime_arrival_time:] is false on [None] and on empty text. *)
Definition text_truthy (t : option string) : bool :=
  match t with
  | Some s => negb (String.eqb s "")
  | None => false
  end.

Definition chosen_arrival (stop_departure : departure) : bool * option string :=
  if text_truthy (estimated stop_departure)
  then (true, estimated stop_departure)
  else (false, scheduled stop_departure).

(** [get_corrected_datetime] applied to what may be [None]: the date is
    parsed first, then [None.split] raises. *)
Definition get_corrected_datetime_opt (service_date : string)
  (arrival_time : option string) : result datetime :=
  match arrival_time with
  | Some t => get_corrected_datetime service_date t
  | None => _ <- strptime_date service_date ;; Raise AttributeError
  end.

(** [f"{service_date} {arrival_time}"]. *)
Definition date_and_time_text (service_date : string)
  (arrival_time : option string) : string :=
  (service_date ++ " "
   ++ match arrival_time with Some t => t | None => "None" end)%string.

(** The body of the inner loop. *)
Definition track_departure (starting_coords : float * float) (s : stop)
  (departures : list (Z * tracked)) (stop_departure : departure)
  : result (list (Z * tracked)) :=
  let stop_point := coordinates s in
  user_distance_from_stop <-
    haversine (fst starting_coords) (snd starting_coords)
              (snd stop_point) (fst stop_point) ;;
  let '(realtime_data, arrival_time) := chosen_arrival stop_departure in
  match dict_get Z.eqb (trip_id stop_departure) departures with
  | None =>
      arrival_datetime <-
        get_corrected_datetime_opt (service_date stop_departure) arrival_time ;;
      Ok (dict_set Z.eqb (trip_id stop_departure)
            (mk_tracked stop_departure s user_distance_from_stop
                        arrival_datetime realtime_data)
            departures)
  | Some cached =>
      let current_distance_from_cached_stop := t_distance cached in
      if float_ltb user_distance_from_stop current_distance_from_cached_stop
      then
        arrival_datetime <-
          strptime_date_time
            (date_and_time_text (service_date stop_departure) arrival_time) ;;
        Ok (dict_set Z.eqb (trip_id stop_departure)
              (mk_tracked stop_departure s user_distance_from_stop
                          arrival_datetime realtime_data)
              departures)
      else Ok departures
  end.

(** [fetched] pairs every stop of the list with the departures the API
    returned for it (the call [get_departures_for_stop_id]). *)
Definition get_next_departures_for_stop_list
  (fetched : list (stop * list departure)) (starting_coords : float * float)
  : result (list (Z * tracked)) :=
  fold_result
    (fun departures '(s, departures_for_stop) =>
       fold_result (track_departure starting_coords s)
                   departures_for_stop departures)
    fetched [].

(** ** [get_upcoming_departures] *)

(** [sorted(items, key=arrival_time)]: the stable sort. *)
Fixpoint insert_by_arrival (x : Z * tracked) (l : list (Z * tracked))
  : list (Z * tracked) :=
  match l with
  | [] => [x]
  | y :: l' =>
      if datetime_ltb (t_arrival_time (snd y)) (t_arrival_time (snd x))
      then y :: insert_by_arrival x l'
      else x :: l
  end.

Definition sorted_by_arrival (all_departures : list (Z * tracked))
  : list (Z * tracked) :=
  fold_right insert_by_arrival [] all_departures.

(** The value kept per route and direction. *)
Record display_row : Type := mk_display_row {
  g_route : string;
  g_route_type : string;
  g_direction : string;
  g_stop : string;
  g_arrival_times : list datetime;
  g_realtime_data : list bool;
  g_agency_name : string;
  g_full_stop : stop
}.

Definition route_headsign_combo (d : departure) : string :=
  (route_short_name d ++ " - " ++ trip_headsign d)%string.

(** The line the loop logs for every departure ends in
    [departure['arrival_time']]: a [KeyError] when the key is missing. *)
Definition log_monitoring (d : departure) : result unit :=
  if has_arrival_time d then Ok tt else Raise KeyError.

(** The body of the loop over the sorted departures. *)
Definition add_departure (departure_dict : list (string * display_row))
  (item : Z * tracked) : result (list (string * display_row)) :=
  let trip_vals := snd item in
  let d := t_departure trip_vals in
  let combo := route_headsign_combo d in
  _ <- log_monitoring d ;;
  match dict_get String.eqb combo departure_dict with
  | None =>
      type_name <- gtfs_route_type_to_string (route_type d) ;;
      Ok (dict_set String.eqb combo
            (mk_display_row (route_short_name d) type_name (trip_headsign d)
               (stop_name (t_closest_stop trip_vals))
               [t_arrival_time trip_vals] [t_realtime_data trip_vals]
               (agency_name d) (t_closest_stop trip_vals))
            departure_dict)
  | Some row =>
      if (List.length (g_arrival_times row) <? 4)%nat
      then Ok (dict_set String.eqb combo
                 (mk_display_row (g_route row) (g_route_type row)
                    (g_direction row) (g_stop row)
                    (g_arrival_times row ++ [t_arrival_time trip_vals])
                    (g_realtime_data row ++ [t_realtime_data trip_vals])
                    (g_agency_name row) (g_full_stop row))
                 departure_dict)
      else Ok departure_dict
  end.

(** The stops worth monitoring: the [full_stop] of every row, once per
    stop id. *)
Definition add_stop (updated_stop_list : list stop)
  (entry : string * display_row) : list stop :=
  if existsb (fun stop_list_entry =>
                stop_id stop_list_entry =? stop_id (g_full_stop (snd entry)))
             updated_stop_list
  then updated_stop_list
  else updated_stop_list ++ [g_full_stop (snd entry)].

Definition get_upcoming_departures
  (fetched : list (stop * list departure)) (address_geo_coords : float * float)
  : result (list (string * display_row) * list stop) :=
  all_departures <-
    get_next_departures_for_stop_list fetched address_geo_coords ;;
  let sorted_departures := sorted_by_arrival all_departures in
  departure_dict <- fold_result add_departure sorted_departures [] ;;
  let updated_stop_list := fold_left add_stop departure_dict [] in
  Ok (departure_dict, updated_stop_list).

(** ** [WorkerThread.run]

    One iteration of the loop, given what the API answers during it:
    the departures of the stop polled in position [i] of the monitored
    list, and the stops near the address. *)

Record worker_thread : Type := mk_worker_thread {
  monitored_stop_list : list stop;
  update_intervals_to_use_cached_stop_data : Z
}.

Record poll : Type := mk_poll {
  departures_for : nat -> stop -> list departure;
  nearby_stops : list stop
}.

Definition fetch (p : poll) (stops : list stop) : list (stop * list departure) :=
  map (fun '(i, s) => (s, departures_for p i s))
      (combine (seq 0 (List.length stops)) stops).

Definition UPDATE_INTERVALS_TO_USE_CACHED_STOP_DATA : Z := 30.

(** The iteration returns the new state of the thread and the
    [display_data] it emits. *)
Definition run_iteration (address_coords : float * float) (p : poll)
  (w : worker_thread) : result (worker_thread * list (string * display_row)) :=
  '(display_data, updated_stops_list) <-
    get_upcoming_departures (fetch p (monitored_stop_list w)) address_coords ;;
  let w' :=
    if negb (update_intervals_to_use_cached_stop_data w =? 0)
    then mk_worker_thread updated_stops_list
           (update_intervals_to_use_cached_stop_data w - 1)
    else mk_worker_thread (nearby_stops p)
           UPDATE_INTERVALS_TO_USE_CACHED_STOP_DATA in
  Ok (w', display_data).

(** The state of the thread after [n] iterations of [while True], of
    which iteration [i] (from 0) meets [polls i]; an iteration that raises
    ends the thread. *)
Fixpoint run (address_coords : float * float) (polls : nat -> poll)
  (n : nat) (w : worker_thread) : result worker_thread :=
  match n with
  | O => Ok w
  | S n' =>
      w1 <- run address_coords polls n' w ;;
      '(w', _) <- run_iteration address_coords (polls n') w1 ;;
      Ok w'
  end.

(** [WorkerThread.__init__]. *)
Definition new_worker (stops : list stop) : worker_thread :=
  mk_worker_thread stops UPDATE_INTERVALS_TO_USE_CACHED_STOP_DATA.

(** ** The aggregation keeps one entry per trip *)

Lemma Z_eqb_eq (a b : Z) : (a =? b) = true <-> a = b.
Proof. apply Z.eqb_eq. Qed.

Lemma fold_result_app {A B : Type} (f : B -> A -> result B) (l1 l2 : list A) (b : B) :
  fold_result f (l1 ++ l2) b = (b' <- fold_result f l1 b ;; fold_result f l2 b').
Proof.
  revert b. induction l1 as [|a l1 IH]; intros b; simpl; [reflexivity|].
  destruct (f b a); simpl; [apply IH | reflexivity].
Qed.

(** Every departure with the stop that reports it, in the order the two
    loops visit them. *)
Definition reports (fetched : list (stop * list departure))
  : list (stop * departure) :=
  flat_map (fun '(s, ds) => map (pair s) ds) fetched.

Definition distance_to (starting_coords : float * float) (s : stop) : result float :=
  haversine (fst starting_coords) (snd starting_coords)
            (snd (coordinates s)) (fst (coordinates s)).

Definition track_report (starting_coords : float * float)
  (departures : list (Z * tracked)) (r : stop * departure) :=
  track_departure starting_coords (fst r) departures (snd r).

Lemma get_next_departures_flat fetched starting_coords :
  get_next_departures_for_stop_list fetched starting_coords
  = fold_result (track_report starting_coords) (reports fetched) [].
Proof.
  unfold get_next_departures_for_stop_list. generalize (@nil (Z * tracked)).
  induction fetched as [|[s ds] fetched IH]; intros acc; simpl; [reflexivity|].
  rewrite fold_result_app.
  assert (E : forall acc', fold_result (track_departure starting_coords s) ds acc'
              = fold_result (track_report starting_coords) (map (pair s) ds) acc').
  { induction ds as [|dep ds IHds]; intros acc'; simpl; [reflexivity|].
    unfold track_report at 1. simpl.
    destruct (track_departure starting_coords s acc' dep); simpl; auto. }
  rewrite E. destruct (fold_result _ (map (pair s) ds) acc); simpl; auto.
Qed.

Lemma In_reports fetched s dep :
  In (s, dep) (reports fetched)
  <-> exists ds, In (s, ds) fetched /\ In dep ds.
Proof.
  unfold reports. rewrite in_flat_map. split.
  - intros ([s' ds] & Hin & Hmap). apply in_map_iff in Hmap.
    destruct Hmap as (dep' & E & Hdep). inversion E; subst. eauto.
  - intros (ds & Hin & Hdep). exists (s, ds). split; [assumption|].
    apply in_map_iff. eauto.
Qed.

(** What an entry records of the report it was made from. *)
Definition made_from (starting_coords : float * float) (e : tracked)
  (r : stop * departure) : Prop :=
  t_closest_stop e = fst r
  /\ t_departure e = snd r
  /\ distance_to starting_coords (fst r) = Ok (t_distance e)
  /\ t_realtime_data e = fst (chosen_arrival (snd r))
  /\ (get_corrected_datetime_opt (service_date (snd r))
         (snd (chosen_arrival (snd r))) = Ok (t_arrival_time e)
      \/ strptime_date_time
           (date_and_time_text (service_date (snd r))
              (snd (chosen_arrival (snd r)))) = Ok (t_arrival_time e)).

Definition tracking_ok (starting_coords : float * float)
  (seen : list (stop * departure)) (d : list (Z * tracked)) : Prop :=
  NoDup (map fst d)
  /\ (forall t, In t (map fst d)
                <-> exists r, In r seen /\ trip_id (snd r) = t)
  /\ (forall t e, dict_get Z.eqb t d = Some e ->
        exists r, In r seen /\ trip_id (snd r) = t
                  /\ made_from starting_coords e r).

Lemma tracking_ok_step starting_coords seen d r d' :
  tracking_ok starting_coords seen d ->
  track_report starting_coords d r = Ok d' ->
  tracking_ok starting_coords (seen ++ [r]) d'.
Proof.
  intros (Hnd & Hkeys & Hent) Hstep.
  unfold track_report, track_departure in Hstep.
  apply bind_Ok in Hstep. destruct Hstep as (dist & Hdist & Hstep).
  destruct (chosen_arrival (snd r)) as [rt at_] eqn:Hch.
  assert (Hnew : forall a, made_from starting_coords
                    (mk_tracked (snd r) (fst r) dist a rt) r
                  <-> (get_corrected_datetime_opt (service_date (snd r)) at_ = Ok a
                       \/ strptime_date_time
                            (date_and_time_text (service_date (snd r)) at_) = Ok a)).
  { intros a. unfold made_from. simpl. rewrite Hch. simpl.
    unfold distance_to. tauto. }
  assert (Hold : forall t e, dict_get Z.eqb t d = Some e ->
            exists r0, In r0 (seen ++ [r]) /\ trip_id (snd r0) = t
                       /\ made_from starting_coords e r0).
  { intros t e H. destruct (Hent t e H) as (r0 & Hin & Ht & Hm).
    exists r0. rewrite in_app_iff. auto. }
  assert (Hkeys' : forall t, In t (map fst d) \/ t = trip_id (snd r)
            <-> exists r0, In r0 (seen ++ [r]) /\ trip_id (snd r0) = t).
  { intros t. rewrite Hkeys. split.
    - intros [(r0 & Hin & Ht) | ->].
      + exists r0. rewrite in_app_iff. auto.
      + exists r. rewrite in_app_iff. simpl. auto.
    - intros (r0 & Hin & Ht). apply in_app_iff in Hin.
      destruct Hin as [Hin | [<- | []]]; eauto. }
  assert (Hset : forall a,
            made_from starting_coords
              (mk_tracked (snd r) (fst r) dist a rt) r ->
            tracking_ok starting_coords (seen ++ [r])
              (dict_set Z.eqb (trip_id (snd r))
                 (mk_tracked (snd r) (fst r) dist a rt) d)).
  { intros a Hm. repeat split.
    - now apply (dict_set_NoDup Z.eqb Z_eqb_eq).
    - intros Hin. apply Hkeys'.
      destruct (dict_get Z.eqb (trip_id (snd r)) d) as [c|] eqn:E.
      + rewrite (dict_set_keys Z.eqb _ _ c) in Hin by assumption. auto.
      + rewrite (dict_set_keys_fresh Z.eqb) in Hin by assumption.
        apply in_app_iff in Hin. simpl in Hin. intuition.
    - intros Hex. apply Hkeys' in Hex.
      destruct (dict_get Z.eqb (trip_id (snd r)) d) as [c|] eqn:E.
      + rewrite (dict_set_keys Z.eqb _ _ c) by assumption.
        destruct Hex as [Hex | ->]; [assumption|].
        eapply (dict_get_Some_key Z.eqb Z_eqb_eq); eassumption.
      + rewrite (dict_set_keys_fresh Z.eqb) by assumption.
        apply in_app_iff. simpl. intuition.
    - intros t e Hget. rewrite (dict_get_set Z.eqb Z_eqb_eq) in Hget.
      destruct (Z.eqb_spec t (trip_id (snd r))) as [->|Hne].
      + inversion Hget; subst e. exists r. rewrite in_app_iff. simpl. auto.
      + now apply Hold. }
  destruct (dict_get Z.eqb (trip_id (snd r)) d) as [cached|] eqn:Hget.
  - destruct (float_ltb dist (t_distance cached)).
    + apply bind_Ok in Hstep. destruct Hstep as (a & Ha & Hd').
      inversion Hd'; subst d'. apply Hset, Hnew. now right.
    + inversion Hstep; subst d'. repeat split; auto.
      * intros Hin. apply Hkeys'. now left.
      * intros Hex. apply Hkeys' in Hex. destruct Hex as [Hex | ->]; auto.
        eapply (dict_get_Some_key Z.eqb Z_eqb_eq); eassumption.
  - apply bind_Ok in Hstep. destruct Hstep as (a & Ha & Hd').
    inversion Hd'; subst d'. apply Hset, Hnew. now left.
Qed.

Lemma tracking_ok_fold starting_coords l :
  forall seen d d',
    tracking_ok starting_coords seen d ->
    fold_result (track_report starting_coords) l d = Ok d' ->
    tracking_ok starting_coords (seen ++ l) d'.
Proof.
  induction l as [|r l IH]; intros seen d d' Hok Hrun; simpl in Hrun.
  - inversion Hrun; subst. now rewrite app_nil_r.
  - apply bind_Ok in Hrun. destruct Hrun as (d1 & H1 & Hrest).
    replace (seen ++ r :: l) with ((seen ++ [r]) ++ l)
      by (now rewrite <- app_assoc).
    eapply IH; [|exact Hrest].
    eapply tracking_ok_step; eassumption.
Qed.

Lemma tracking_ok_result fetched starting_coords d :
  get_next_departures_for_stop_list fetched starting_coords = Ok d ->
  tracking_ok starting_coords (reports fetched) d.
Proof.
  rewrite get_next_departures_flat. intros H.
  apply (tracking_ok_fold starting_coords (reports fetched) [] [] d);
    [|exact H].
  repeat split; simpl; try constructor; try tauto.
  - intros (r & [] & _).
  - discriminate.
Qed.

(** The aggregation returns whenever the distance of every reporting
    stop can be computed and the date and time of every departure are
    accepted by both ways of parsing them. *)
Definition parses (dep : departure) : Prop :=
  (exists a, get_corrected_datetime_opt (service_date dep)
               (snd (chosen_arrival dep)) = Ok a)
  /\ (exists a, strptime_date_time
                  (date_and_time_text (service_date dep)
                     (snd (chosen_arrival dep))) = Ok a).

Lemma track_report_returns starting_coords d r :
  (exists dist, distance_to starting_coords (fst r) = Ok dist) ->
  parses (snd r) ->
  exists d', track_report starting_coords d r = Ok d'.
Proof.
  intros (dist & Hdist) ((a1 & H1) & (a2 & H2)).
  unfold track_report, track_departure.
  unfold distance_to in Hdist. rewrite Hdist. simpl.
  destruct (chosen_arrival (snd r)) as [rt at_]. simpl in H1, H2.
  destruct (dict_get Z.eqb (trip_id (snd r)) d) as [cached|].
  - destruct (float_ltb dist (t_distance cached)); [|eauto].
    rewrite H2. simpl. eauto.
  - rewrite H1. simpl. eauto.
Qed.

Lemma get_next_departures_returns fetched starting_coords :
  (forall s ds dep, In (s, ds) fetched -> In dep ds ->
      (exists dist, distance_to starting_coords s = Ok dist) /\ parses dep) ->
  exists d, get_next_departures_for_stop_list fetched starting_coords = Ok d.
Proof.
  intros Hwf. rewrite get_next_departures_flat.
  assert (H : forall r, In r (reports fetched) ->
            (exists dist, distance_to starting_coords (fst r) = Ok dist)
            /\ parses (snd r)).
  { intros [s dep] Hin. apply In_reports in Hin.
    destruct Hin as (ds & Hin & Hdep). simpl. eauto. }
  clear Hwf. generalize (@nil (Z * tracked)).
  induction (reports fetched) as [|r l IH]; intros acc; simpl; [eauto|].
  destruct (H r (or_introl eq_refl)) as (Hd & Hp).
  destruct (track_report_returns starting_coords acc r Hd Hp) as (d' & ->).
  simpl. apply IH. intros r' Hr'. apply H. now right.
Qed.

(** Timetable text with an hour below 24 is accepted both ways. *)
Lemma timetable_parses (dep : departure) (y m d h mi s : Z) :
  valid_date y m d = true ->
  0 <= h <= 23 -> 0 <= mi <= 59 -> 0 <= s <= 59 ->
  service_date dep = date_text y m d ->
  snd (chosen_arrival dep) = Some (time_text (two_digits h) mi s) ->
  parses dep.
Proof.
  intros Hv Hh Hmi Hs Hdate Htime. unfold parses.
  rewrite Hdate, Htime. simpl get_corrected_datetime_opt.
  unfold date_and_time_text.
  rewrite get_corrected_datetime_text, strptime_date_time_text by assumption.
  split; eexists; reflexivity.
Qed.

(** C2: the result of [get_next_departures_for_stop_list] has exactly
    one entry per distinct trip id occurring in any stop's departures:
    no trip id is a key twice, a trip id is a key exactly when some stop
    reports a departure of that trip, and the entry under a key is made
    from a departure of that trip; the function returns such a result
    whenever the distances can be computed and the dates and times
    parse. *)
Theorem one_entry_per_trip
  (fetched : list (stop * list departure)) (starting_coords : float * float) :
  (forall d,
      get_next_departures_for_stop_list fetched starting_coords = Ok d ->
      NoDup (map fst d)
      /\ (forall t, In t (map fst d)
                    <-> exists s ds dep,
                          In (s, ds) fetched /\ In dep ds /\ trip_id dep = t)
      /\ (forall t e, In (t, e) d ->
            trip_id (t_departure e) = t
            /\ exists ds, In (t_closest_stop e, ds) fetched
                          /\ In (t_departure e) ds))
  /\ ((forall s ds dep, In (s, ds) fetched -> In dep ds ->
         (exists dist, distance_to starting_coords s = Ok dist) /\ parses dep) ->
      exists d, get_next_departures_for_stop_list fetched starting_coords = Ok d).
Proof.
  split; [|apply get_next_departures_returns].
  intros d Hrun. apply tracking_ok_result in Hrun.
  destruct Hrun as (Hnd & Hkeys & Hent). repeat split.
  - exact Hnd.
  - intros Hin. apply Hkeys in Hin. destruct Hin as ([s dep] & Hin & Ht).
    apply In_reports in Hin. destruct Hin as (ds & Hin & Hdep).
    simpl in Ht. exists s, ds, dep. auto.
  - intros (s & ds & dep & Hin & Hdep & Ht). apply Hkeys.
    exists (s, dep). split; [|exact Ht]. apply In_reports. eauto.
  - apply (In_dict_get Z.eqb Z_eqb_eq) in H; [|exact Hnd].
    destruct (Hent t e H) as (r & _ & Ht & (_ & -> & _)). exact Ht.
  - apply (In_dict_get Z.eqb Z_eqb_eq) in H; [|exact Hnd].
    destruct (Hent t e H) as ([s dep] & Hin & Ht & (-> & -> & _)).
    apply In_reports in Hin. exact Hin.
Qed.

(** ** The entry of a trip is at a closest stop *)

(** [<] on floats is irreflexive and transitive (with or without NaN). *)
Hypothesis float_ltb_irrefl : forall x, float_ltb x x = false.
Hypothesis float_ltb_trans : forall x y z,
    float_ltb x y = true -> float_ltb y z = true -> float_ltb x z = true.

Definition closest_ok (starting_coords : float * float)
  (seen : list (stop * departure)) (d : list (Z * tracked)) : Prop :=
  forall t e, dict_get Z.eqb t d = Some e ->
    forall r, In r seen -> trip_id (snd r) = t ->
      exists dist, distance_to starting_coords (fst r) = Ok dist
                   /\ float_ltb dist (t_distance e) = false.

Lemma closest_ok_step starting_coords seen d r d' :
  tracking_ok starting_coords seen d ->
  closest_ok starting_coords seen d ->
  track_report starting_coords d r = Ok d' ->
  closest_ok starting_coords (seen ++ [r]) d'.
Proof.
  intros (Hnd & Hkeys & Hent) Hcl Hstep.
  unfold track_report, track_departure in Hstep.
  apply bind_Ok in Hstep. destruct Hstep as (dist & Hdist & Hstep).
  fold (distance_to starting_coords (fst r)) in Hdist.
  destruct (chosen_arrival (snd r)) as [rt at_].
  (* entries of other trips are not concerned by the new report *)
  assert (Hother : forall t e, t <> trip_id (snd r) ->
            dict_get Z.eqb t d = Some e ->
            forall r0, In r0 (seen ++ [r]) -> trip_id (snd r0) = t ->
              exists dist0, distance_to starting_coords (fst r0) = Ok dist0
                            /\ float_ltb dist0 (t_distance e) = false).
  { intros t e Hne Hget r0 Hin Ht. apply in_app_iff in Hin.
    destruct Hin as [Hin | [<- | []]]; [eauto | congruence]. }
  destruct (dict_get Z.eqb (trip_id (snd r)) d) as [cached|] eqn:Hget.
  - destruct (float_ltb dist (t_distance cached)) eqn:Hlt.
    + apply bind_Ok in Hstep. destruct Hstep as (a & Ha & Hd').
      inversion Hd'; subst d'. intros t e Hget' r0 Hin Ht.
      rewrite (dict_get_set Z.eqb Z_eqb_eq) in Hget'.
      destruct (Z.eqb_spec t (trip_id (snd r))) as [->|Hne]; [|eauto].
      inversion Hget'; subst e. simpl.
      apply in_app_iff in Hin. destruct Hin as [Hin | [<- | []]].
      * destruct (Hcl _ _ Hget r0 Hin Ht) as (dist0 & Hd0 & Hge).
        exists dist0. split; [exact Hd0|].
        destruct (float_ltb dist0 dist) eqn:Hlt0; [|reflexivity].
        rewrite (float_ltb_trans _ _ _ Hlt0 Hlt) in Hge. discriminate.
      * eauto.
    + inversion Hstep; subst d'. intros t e Hget' r0 Hin Ht.
      destruct (Z.eq_dec t (trip_id (snd r))) as [->|Hne]; [|eauto].
      rewrite Hget in Hget'. inversion Hget'; subst e.
      apply in_app_iff in Hin. destruct Hin as [Hin | [<- | []]]; eauto.
  - apply bind_Ok in Hstep. destruct Hstep as (a & Ha & Hd').
    inversion Hd'; subst d'. intros t e Hget' r0 Hin Ht.
    rewrite (dict_get_set Z.eqb Z_eqb_eq) in Hget'.
    destruct (Z.eqb_spec t (trip_id (snd r))) as [->|Hne]; [|eauto].
    inversion Hget'; subst e. simpl.
    apply in_app_iff in Hin. destruct Hin as [Hin | [<- | []]]; [|eauto].
    exfalso. apply (dict_get_None Z.eqb Z_eqb_eq) in Hget. apply Hget.
    apply Hkeys. eauto.
Qed.

Lemma closest_ok_fold starting_coords l :
  forall seen d d',
    tracking_ok starting_coords seen d ->
    closest_ok starting_coords seen d ->
    fold_result (track_report starting_coords) l d = Ok d' ->
    closest_ok starting_coords (seen ++ l) d'.
Proof.
  induction l as [|r l IH]; intros seen d d' Hok Hcl Hrun; simpl in Hrun.
  - inversion Hrun; subst. now rewrite app_nil_r.
  - apply bind_Ok in Hrun. destruct Hrun as (d1 & H1 & Hrest).
    replace (seen ++ r :: l) with ((seen ++ [r]) ++ l)
      by (now rewrite <- app_assoc).
    eapply IH; [| |exact Hrest].
    + eapply tracking_ok_step; eassumption.
    + eapply closest_ok_step; eassumption.
Qed.

(** Whenever the aggregation returns, the entry of a trip records a stop
    that reports the trip and from which no reporting stop is strictly
    closer, with the distance of that stop. *)
Lemma kept_entry_is_closest fetched starting_coords d t e :
  get_next_departures_for_stop_list fetched starting_coords = Ok d ->
  In (t, e) d ->
  distance_to starting_coords (t_closest_stop e) = Ok (t_distance e)
  /\ forall s ds dep, In (s, ds) fetched -> In dep ds -> trip_id dep = t ->
       exists dist, distance_to starting_coords s = Ok dist
                    /\ float_ltb dist (t_distance e) = false.
Proof.
  intros Hrun Hin.
  pose proof (tracking_ok_result _ _ _ Hrun) as (Hnd & Hkeys & Hent).
  apply (In_dict_get Z.eqb Z_eqb_eq) in Hin; [|exact Hnd].
  split.
  - destruct (Hent t e Hin) as (r & _ & _ & (-> & _ & Hd & _)). exact Hd.
  - intros s ds dep Hs Hdep Ht.
    rewrite get_next_departures_flat in Hrun.
    assert (Hcl : closest_ok starting_coords ([] ++ reports fetched) d).
    { eapply closest_ok_fold; [| |exact Hrun].
      - repeat split; simpl; try constructor; try tauto.
        + intros (r & [] & _).
        + discriminate.
      - intros t0 e0 H0. discriminate. }
    apply (Hcl t e Hin (s, dep)); [|exact Ht].
    simpl. apply In_reports. eauto.
Qed.

(** C1, where the code departs from it: two stops report one trip whose
    arrival time is after midnight of the service date, written 24:10:00
    as timetables do, and the second stop is strictly closer.  C1
    has the entry of the trip record the closer stop with the arrival
    time read from the two texts; the function raises [ValueError]
    instead, because the branch that replaces the entry reads the time
    with [strptime], which has no hour 24.  The first sighting of the
    same departure, and the same two reports in the other order, go
    through [get_corrected_datetime] and give 2024-01-02 00:10:00. *)
Theorem closer_stop_after_midnight_raises
  (far near : stop) (starting_coords : float * float) (d_far d_near : float) :
  let dep := mk_departure 7 "21" 3 "SEPTA" "West" "2024-01-01"
                          None (Some "24:10:00") in
  let after_midnight := mk_datetime 2024 1 2 0 10 0 0 in
  distance_to starting_coords far = Ok d_far ->
  distance_to starting_coords near = Ok d_near ->
  float_ltb d_near d_far = true ->
  float_ltb d_far d_near = false ->
  get_next_departures_for_stop_list [(far, [dep]); (near, [dep])]
    starting_coords = Raise ValueError
  /\ get_next_departures_for_stop_list [(far, [dep])] starting_coords
     = Ok [(7, mk_tracked dep far d_far after_midnight false)]
  /\ get_next_departures_for_stop_list [(near, [dep]); (far, [dep])]
       starting_coords
     = Ok [(7, mk_tracked dep near d_near after_midnight false)].
Proof.
  intros dep after_midnight Hfar Hnear Hlt Hge.
  unfold distance_to in Hfar, Hnear.
  unfold get_next_departures_for_stop_list. simpl.
  unfold track_departure. simpl.
  repeat (rewrite ?Hfar, ?Hnear, ?Hlt, ?Hge; simpl).
  repeat split; reflexivity.
Qed.

(** ** Departures in the order of their arrival *)

Lemma lex_ltb_irrefl (a : list Z) : lex_ltb a a = false.
Proof.
  induction a as [|x a IH]; simpl; [reflexivity|].
  rewrite Z.ltb_irrefl, Z.eqb_refl, IH. reflexivity.
Qed.

Lemma lex_ltb_trans (a : list Z) :
  forall b c, lex_ltb a b = true -> lex_ltb b c = true -> lex_ltb a c = true.
Proof.
  induction a as [|x a IH]; intros [|y b] [|z c]; simpl; try congruence.
  intros H1 H2.
  apply orb_true_iff in H1. apply orb_true_iff in H2. apply orb_true_iff.
  destruct H1 as [H1|H1], H2 as [H2|H2];
    try apply andb_true_iff in H1; try apply andb_true_iff in H2.
  - left. apply Z.ltb_lt in H1, H2. apply Z.ltb_lt. lia.
  - destruct H2 as [H2 _]. apply Z.ltb_lt in H1. apply Z.eqb_eq in H2.
    left. apply Z.ltb_lt. lia.
  - destruct H1 as [H1 _]. apply Z.ltb_lt in H2. apply Z.eqb_eq in H1.
    left. apply Z.ltb_lt. lia.
  - destruct H1 as [H1 H1'], H2 as [H2 H2'].
    apply Z.eqb_eq in H1, H2. right. apply andb_true_iff.
    split; [apply Z.eqb_eq; lia | eapply IH; eassumption].
Qed.

Lemma lex_ltb_total (a : list Z) :
  forall b, List.length a = List.length b ->
    lex_ltb a b = false -> lex_ltb b a = false -> a = b.
Proof.
  induction a as [|x a IH]; intros [|y b] Hlen H1 H2;
    simpl in *; try discriminate; [reflexivity|].
  apply orb_false_iff in H1, H2.
  destruct H1 as [H1 H1'], H2 as [H2 H2'].
  apply Z.ltb_ge in H1, H2. assert (x = y) by lia. subst y.
  rewrite Z.eqb_refl in H1', H2'. simpl in H1', H2'.
  f_equal. apply IH; auto.
Qed.

Lemma datetime_ltb_irrefl (a : datetime) : datetime_ltb a a = false.
Proof. apply lex_ltb_irrefl. Qed.

Lemma datetime_ltb_trans (a b c : datetime) :
  datetime_ltb a b = true -> datetime_ltb b c = true -> datetime_ltb a c = true.
Proof. apply lex_ltb_trans. Qed.

Lemma datetime_ltb_asym (a b : datetime) :
  datetime_ltb a b = true -> datetime_ltb b a = false.
Proof.
  intros H. destruct (datetime_ltb b a) eqn:E; [|reflexivity].
  rewrite <- (datetime_ltb_irrefl a). symmetry.
  eapply datetime_ltb_trans; eassumption.
Qed.

Lemma datetime_leb_refl (a : datetime) : datetime_leb a a = true.
Proof. unfold datetime_leb. now rewrite datetime_ltb_irrefl. Qed.

Lemma datetime_leb_trans (a b c : datetime) :
  datetime_leb a b = true -> datetime_leb b c = true -> datetime_leb a c = true.
Proof.
  unfold datetime_leb. intros H1 H2.
  apply negb_true_iff in H1, H2. apply negb_true_iff.
  destruct (datetime_ltb c a) eqn:Hca; [|reflexivity].
  destruct (datetime_ltb a b) eqn:Hab.
  - rewrite (datetime_ltb_trans _ _ _ Hca Hab) in H2. discriminate.
  - assert (E : fields a = fields b)
      by (apply lex_ltb_total; [reflexivity | exact Hab | exact H1]).
    unfold datetime_ltb in Hca, H2. rewrite E in Hca. congruence.
Qed.

Definition arrival_of (item : Z * tracked) : datetime := t_arrival_time (snd item).

Definition arrival_le (x y : Z * tracked) : Prop :=
  datetime_leb (arrival_of x) (arrival_of y) = true.

Lemma insert_by_arrival_perm x l : Permutation (x :: l) (insert_by_arrival x l).
Proof.
  induction l as [|y l IH]; simpl; [apply Permutation_refl|].
  destruct (datetime_ltb _ _); [|apply Permutation_refl].
  eapply perm_trans; [apply perm_swap|]. now apply perm_skip.
Qed.

Lemma insert_by_arrival_sorted x l :
  StronglySorted arrival_le l -> StronglySorted arrival_le (insert_by_arrival x l).
Proof.
  induction 1 as [|y l Hl IH Hy]; simpl.
  - repeat constructor.
  - fold (arrival_of y) (arrival_of x).
    destruct (datetime_ltb (arrival_of y) (arrival_of x)) eqn:E.
    + constructor; [exact IH|].
      rewrite Forall_forall. intros z Hz.
      apply Permutation_in with (l' := x :: l) in Hz;
        [|apply Permutation_sym, insert_by_arrival_perm].
      destruct Hz as [<-|Hz].
      * unfold arrival_le, datetime_leb.
        now rewrite (datetime_ltb_asym _ _ E).
      * rewrite Forall_forall in Hy. now apply Hy.
    + assert (Hxy : arrival_le x y)
        by (unfold arrival_le, datetime_leb; now rewrite E).
      constructor; [now constructor|].
      constructor; [exact Hxy|].
      eapply Forall_impl; [|exact Hy].
      intros z Hz. unfold arrival_le in *.
      eapply datetime_leb_trans; eassumption.
Qed.

Lemma sorted_by_arrival_perm d : Permutation d (sorted_by_arrival d).
Proof.
  induction d as [|x d IH]; simpl; [constructor|].
  eapply perm_trans; [apply perm_skip, IH | apply insert_by_arrival_perm].
Qed.

Lemma sorted_by_arrival_sorted d : StronglySorted arrival_le (sorted_by_arrival d).
Proof.
  induction d as [|x d IH]; simpl; [constructor|].
  now apply insert_by_arrival_sorted.
Qed.

(** Python's [sorted] is a stable sort: its result is in order, and the
    elements of equal key keep the order they had.  There is one such
    arrangement of a list, and [sorted_by_arrival] returns it. *)

Definition same_arrival (a : datetime) (x : Z * tracked) : bool :=
  negb (datetime_ltb a (arrival_of x)) && negb (datetime_ltb (arrival_of x) a).

Lemma same_arrival_fields a x :
  same_arrival a x = true <-> fields a = fields (arrival_of x).
Proof.
  unfold same_arrival, datetime_ltb. split.
  - intros H. apply andb_true_iff in H. destruct H as [H1 H2].
    apply negb_true_iff in H1, H2. now apply lex_ltb_total.
  - intros ->. now rewrite lex_ltb_irrefl.
Qed.

Lemma same_arrival_not_lt a x y :
  same_arrival a x = true -> same_arrival a y = true ->
  datetime_ltb (arrival_of y) (arrival_of x) = false.
Proof.
  intros Hx Hy. apply same_arrival_fields in Hx, Hy.
  unfold datetime_ltb. rewrite <- Hx, <- Hy. apply lex_ltb_irrefl.
Qed.

Lemma insert_by_arrival_stable a x l :
  filter (same_arrival a) (insert_by_arrival x l)
  = filter (same_arrival a) (x :: l).
Proof.
  induction l as [|y l IH]; [reflexivity|].
  cbn [insert_by_arrival]. fold (arrival_of y) (arrival_of x).
  destruct (datetime_ltb (arrival_of y) (arrival_of x)) eqn:E; [|reflexivity].
  cbn [filter] in *. rewrite IH.
  destruct (same_arrival a y) eqn:Hy, (same_arrival a x) eqn:Hx; try reflexivity.
  rewrite (same_arrival_not_lt a x y Hx Hy) in E. discriminate.
Qed.

Lemma sorted_by_arrival_stable a d :
  filter (same_arrival a) (sorted_by_arrival d) = filter (same_arrival a) d.
Proof.
  induction d as [|x d IH]; [reflexivity|].
  cbn [sorted_by_arrival fold_right]. fold (sorted_by_arrival d).
  rewrite insert_by_arrival_stable. cbn [filter]. now rewrite IH.
Qed.

Lemma stable_sort_unique l1 :
  forall l2,
    StronglySorted arrival_le l1 -> StronglySorted arrival_le l2 ->
    (forall a, filter (same_arrival a) l1 = filter (same_arrival a) l2) ->
    l1 = l2.
Proof.
  assert (Hself : forall x, same_arrival (arrival_of x) x = true)
    by (intros x; now apply same_arrival_fields).
  induction l1 as [|x l1 IH]; intros l2 Hs1 Hs2 Hf.
  - destruct l2 as [|y l2]; [reflexivity|].
    specialize (Hf (arrival_of y)). cbn [filter] in Hf.
    rewrite Hself in Hf. discriminate.
  - destruct l2 as [|y l2].
    { specialize (Hf (arrival_of x)). cbn [filter] in Hf.
      rewrite Hself in Hf. discriminate. }
    inversion Hs1 as [|? ? Hs1' Hall1]; subst.
    inversion Hs2 as [|? ? Hs2' Hall2]; subst.
    rewrite Forall_forall in Hall1, Hall2.
    assert (Hxy : x = y).
    { pose proof (Hf (arrival_of x)) as Hfx.
      pose proof (Hf (arrival_of y)) as Hfy.
      cbn [filter] in Hfx, Hfy. rewrite Hself in Hfx, Hfy.
      destruct (same_arrival (arrival_of x) y) eqn:Hy; [now inversion Hfx|].
      destruct (same_arrival (arrival_of y) x) eqn:Hx; [now inversion Hfy|].
      (* [x] is further down the second list and [y] further down the
         first: each arrives no later than the other *)
      assert (Hinx : In x l2).
      { assert (Hin : In x (filter (same_arrival (arrival_of x)) l2))
          by (rewrite <- Hfx; now left).
        now apply filter_In in Hin. }
      assert (Hiny : In y l1).
      { assert (Hin : In y (filter (same_arrival (arrival_of y)) l1))
          by (rewrite Hfy; now left).
        now apply filter_In in Hin. }
      pose proof (Hall2 x Hinx) as Hyx. pose proof (Hall1 y Hiny) as Hxy.
      unfold arrival_le, datetime_leb in Hyx, Hxy.
      apply negb_true_iff in Hyx, Hxy.
      unfold same_arrival in Hy. rewrite Hyx, Hxy in Hy. discriminate. }
    subst y. f_equal. apply IH; try assumption.
    intros a. specialize (Hf a). cbn [filter] in Hf.
    destruct (same_arrival a x); [now inversion Hf | exact Hf].
Qed.

Lemma sorted_by_arrival_is_the_stable_sort d l :
  StronglySorted arrival_le l ->
  (forall a, filter (same_arrival a) l = filter (same_arrival a) d) ->
  l = sorted_by_arrival d.
Proof.
  intros Hs Hf. apply stable_sort_unique.
  - exact Hs.
  - apply sorted_by_arrival_sorted.
  - intros a. now rewrite sorted_by_arrival_stable.
Qed.

(** ** Rows by route and direction *)

Definition combo_of (item : Z * tracked) : string :=
  route_headsign_combo (t_departure (snd item)).

(** The departures of a list that fall under a key, in their order. *)
Definition with_combo (k : string) (l : list (Z * tracked)) : list (Z * tracked) :=
  filter (fun item => String.eqb (combo_of item) k) l.

Definition arrivals_for (k : string) (l : list (Z * tracked)) : list datetime :=
  map arrival_of (with_combo k l).

Definition flags_for (k : string) (l : list (Z * tracked)) : list bool :=
  map (fun item => t_realtime_data (snd item)) (with_combo k l).

Lemma string_eqb_eq (a b : string) : String.eqb a b = true <-> a = b.
Proof. apply String.eqb_eq. Qed.

Lemma with_combo_snoc k l item :
  with_combo k (l ++ [item])
  = with_combo k l ++ (if String.eqb (combo_of item) k then [item] else []).
Proof.
  unfold with_combo. rewrite filter_app. simpl.
  destruct (String.eqb (combo_of item) k); reflexivity.
Qed.

Lemma firstn_snoc_short {A : Type} (n : nat) (l : list A) (x : A) :
  (List.length (firstn n l) < n)%nat ->
  firstn n l ++ [x] = firstn n (l ++ [x]).
Proof.
  intros H. rewrite length_firstn in H.
  assert (Hl : (List.length l < n)%nat) by lia.
  rewrite (@firstn_all2 _ n l) by lia.
  rewrite (@firstn_all2 _ n (l ++ [x])); [reflexivity|].
  rewrite length_app. simpl. lia.
Qed.

Lemma firstn_snoc_full {A : Type} (n : nat) (l : list A) (x : A) :
  (n <= List.length (firstn n l))%nat ->
  firstn n l = firstn n (l ++ [x]).
Proof.
  intros H. rewrite length_firstn in H.
  rewrite firstn_app.
  replace (n - List.length l)%nat with 0%nat by lia.
  simpl. now rewrite app_nil_r.
Qed.

Definition rows_ok (done : list (Z * tracked))
  (dd : list (string * display_row)) : Prop :=
  NoDup (map fst dd)
  /\ (forall k, dict_get String.eqb k dd = None -> with_combo k done = [])
  /\ (forall k row, dict_get String.eqb k dd = Some row ->
        g_arrival_times row = firstn 4 (arrivals_for k done)
        /\ g_realtime_data row = firstn 4 (flags_for k done)
        /\ exists first rest,
             with_combo k done = first :: rest
             /\ g_full_stop row = t_closest_stop (snd first)).

Lemma rows_ok_step done dd item dd' :
  rows_ok done dd ->
  add_departure dd item = Ok dd' ->
  rows_ok (done ++ [item]) dd'.
Proof.
  intros (Hnd & Hnone & Hsome) Hstep.
  unfold add_departure in Hstep.
  apply bind_Ok in Hstep. destruct Hstep as (logged & _ & Hstep).
  fold (combo_of item) in Hstep.
  (* keys other than that of the item see the same departures *)
  assert (Hsame : forall k, k <> combo_of item ->
            with_combo k (done ++ [item]) = with_combo k done).
  { intros k Hk. rewrite with_combo_snoc.
    rewrite (eqb_other String.eqb string_eqb_eq) by congruence.
    apply app_nil_r. }
  assert (Hown : with_combo (combo_of item) (done ++ [item])
                 = with_combo (combo_of item) done ++ [item]).
  { rewrite with_combo_snoc. now rewrite String.eqb_refl. }
  assert (Hkeep : forall k row, k <> combo_of item ->
            dict_get String.eqb k dd = Some row ->
            g_arrival_times row = firstn 4 (arrivals_for k (done ++ [item]))
            /\ g_realtime_data row = firstn 4 (flags_for k (done ++ [item]))
            /\ exists first rest,
                 with_combo k (done ++ [item]) = first :: rest
                 /\ g_full_stop row = t_closest_stop (snd first)).
  { intros k row Hk Hget. unfold arrivals_for, flags_for.
    rewrite (Hsame k Hk). now apply Hsome. }
  destruct (dict_get String.eqb (combo_of item) dd) as [row|] eqn:Hget.
  - pose proof (Hsome _ _ Hget) as (Ht & Hf & first & rest & Hw & Hs).
    destruct (Nat.ltb_spec (List.length (g_arrival_times row)) 4) as [Hlt|Hge];
      inversion Hstep; subst dd'; clear Hstep.
    + assert (Hlf : List.length (g_realtime_data row)
                    = List.length (g_arrival_times row)).
      { rewrite Ht, Hf. unfold arrivals_for, flags_for.
        now rewrite !length_firstn, !length_map. }
      assert (Ha : (List.length (firstn 4 (arrivals_for (combo_of item) done)) < 4)%nat)
        by (rewrite <- Ht; exact Hlt).
      assert (Hb : (List.length (firstn 4 (flags_for (combo_of item) done)) < 4)%nat)
        by (rewrite <- Hf; lia).
      repeat split.
      * now apply (dict_set_NoDup String.eqb string_eqb_eq).
      * intros k Hk. rewrite (dict_get_set String.eqb string_eqb_eq) in Hk.
        destruct (String.eqb k (combo_of item)) eqn:E; [discriminate|].
        rewrite Hsame; [now apply Hnone|].
        intros ->. rewrite String.eqb_refl in E. discriminate.
      * rewrite (dict_get_set String.eqb string_eqb_eq) in H.
        destruct (String.eqb k (combo_of item)) eqn:E.
        -- apply string_eqb_eq in E. subst k. inversion H; subst row0.
           cbn [g_arrival_times g_realtime_data g_full_stop].
           unfold arrivals_for. rewrite Hown, map_app. cbn [map].
           rewrite Ht. apply firstn_snoc_short. exact Ha.
        -- apply (Hkeep k row0); [|exact H].
           intros ->. rewrite String.eqb_refl in E. discriminate.
      * rewrite (dict_get_set String.eqb string_eqb_eq) in H.
        destruct (String.eqb k (combo_of item)) eqn:E.
        -- apply string_eqb_eq in E. subst k. inversion H; subst row0.
           cbn [g_arrival_times g_realtime_data g_full_stop].
           unfold flags_for. rewrite Hown, map_app. cbn [map].
           rewrite Hf. apply firstn_snoc_short. exact Hb.
        -- apply (Hkeep k row0); [|exact H].
           intros ->. rewrite String.eqb_refl in E. discriminate.
      * rewrite (dict_get_set String.eqb string_eqb_eq) in H.
        destruct (String.eqb k (combo_of item)) eqn:E.
        -- apply string_eqb_eq in E. subst k. inversion H; subst row0.
           cbn [g_arrival_times g_realtime_data g_full_stop].
           exists first, (rest ++ [item]). rewrite Hown, Hw. auto.
        -- apply (Hkeep k row0); [|exact H].
           intros ->. rewrite String.eqb_refl in E. discriminate.
    + assert (Hlf : List.length (g_realtime_data row)
                    = List.length (g_arrival_times row)).
      { rewrite Ht, Hf. unfold arrivals_for, flags_for.
        now rewrite !length_firstn, !length_map. }
      assert (Ha : (4 <= List.length (firstn 4 (arrivals_for (combo_of item) done)))%nat)
        by (rewrite <- Ht; exact Hge).
      assert (Hb : (4 <= List.length (firstn 4 (flags_for (combo_of item) done)))%nat)
        by (rewrite <- Hf; lia).
      repeat split.
      * exact Hnd.
      * intros k Hk. rewrite Hsame; [now apply Hnone|].
        intros ->. congruence.
      * destruct (String.eqb k (combo_of item)) eqn:E.
        -- apply string_eqb_eq in E. subst k.
           rewrite Hget in H. inversion H; subst row0.
           unfold arrivals_for. rewrite Hown, map_app. cbn [map].
           rewrite Ht. apply firstn_snoc_full. exact Ha.
        -- apply (Hkeep k row0); [|exact H].
           intros ->. rewrite String.eqb_refl in E. discriminate.
      * destruct (String.eqb k (combo_of item)) eqn:E.
        -- apply string_eqb_eq in E. subst k.
           rewrite Hget in H. inversion H; subst row0.
           unfold flags_for. rewrite Hown, map_app. cbn [map].
           rewrite Hf. apply firstn_snoc_full. exact Hb.
        -- apply (Hkeep k row0); [|exact H].
           intros ->. rewrite String.eqb_refl in E. discriminate.
      * destruct (String.eqb k (combo_of item)) eqn:E.
        -- apply string_eqb_eq in E. subst k.
           rewrite Hget in H. inversion H; subst row0.
           exists first, (rest ++ [item]). rewrite Hown, Hw. auto.
        -- apply (Hkeep k row0); [|exact H].
           intros ->. rewrite String.eqb_refl in E. discriminate.
  - apply bind_Ok in Hstep. destruct Hstep as (type_name & _ & Hd').
    inversion Hd'; subst dd'; clear Hd'.
    pose proof (Hnone _ Hget) as Hempty.
    repeat split.
    + now apply (dict_set_NoDup String.eqb string_eqb_eq).
    + intros k Hk. rewrite (dict_get_set String.eqb string_eqb_eq) in Hk.
      destruct (String.eqb k (combo_of item)) eqn:E; [discriminate|].
      rewrite Hsame; [now apply Hnone|].
      intros ->. rewrite String.eqb_refl in E. discriminate.
    + rewrite (dict_get_set String.eqb string_eqb_eq) in H.
      destruct (String.eqb k (combo_of item)) eqn:E.
      * apply string_eqb_eq in E. subst k. inversion H; subst row.
        cbn [g_arrival_times g_realtime_data g_full_stop].
        unfold arrivals_for. rewrite Hown, Hempty. reflexivity.
      * apply (Hkeep k row); [|exact H].
        intros ->. rewrite String.eqb_refl in E. discriminate.
    + rewrite (dict_get_set String.eqb string_eqb_eq) in H.
      destruct (String.eqb k (combo_of item)) eqn:E.
      * apply string_eqb_eq in E. subst k. inversion H; subst row.
        cbn [g_arrival_times g_realtime_data g_full_stop].
        unfold flags_for. rewrite Hown, Hempty. reflexivity.
      * apply (Hkeep k row); [|exact H].
        intros ->. rewrite String.eqb_refl in E. discriminate.
    + rewrite (dict_get_set String.eqb string_eqb_eq) in H.
      destruct (String.eqb k (combo_of item)) eqn:E.
      * apply string_eqb_eq in E. subst k. inversion H; subst row.
        cbn [g_arrival_times g_realtime_data g_full_stop].
        exists item, []. rewrite Hown, Hempty. auto.
      * apply (Hkeep k row); [|exact H].
        intros ->. rewrite String.eqb_refl in E. discriminate.
Qed.

Lemma rows_ok_fold l :
  forall done dd dd',
    rows_ok done dd ->
    fold_result add_departure l dd = Ok dd' ->
    rows_ok (done ++ l) dd'.
Proof.
  induction l as [|item l IH]; intros done dd dd' Hok Hrun; simpl in Hrun.
  - inversion Hrun; subst. now rewrite app_nil_r.
  - apply bind_Ok in Hrun. destruct Hrun as (d1 & H1 & Hrest).
    replace (done ++ item :: l) with ((done ++ [item]) ++ l)
      by (now rewrite <- app_assoc).
    eapply IH; [|exact Hrest].
    eapply rows_ok_step; eassumption.
Qed.

Lemma rows_ok_nil : rows_ok [] [].
Proof.
  repeat split; simpl; try constructor; try discriminate.
Qed.

(** The three stages of [get_upcoming_departures]. *)
Lemma get_upcoming_departures_stages fetched coords departure_dict updated_stop_list :
  get_upcoming_departures fetched coords = Ok (departure_dict, updated_stop_list) ->
  exists all_departures,
    get_next_departures_for_stop_list fetched coords = Ok all_departures
    /\ fold_result add_departure (sorted_by_arrival all_departures) []
       = Ok departure_dict
    /\ updated_stop_list = fold_left add_stop departure_dict [].
Proof.
  unfold get_upcoming_departures. intros H.
  apply bind_Ok in H. destruct H as (all_departures & Hall & H).
  apply bind_Ok in H. destruct H as (dd & Hdd & H).
  inversion H; subst. eauto.
Qed.

Lemma rows_ok_result fetched coords departure_dict updated_stop_list :
  get_upcoming_departures fetched coords = Ok (departure_dict, updated_stop_list) ->
  exists all_departures,
    get_next_departures_for_stop_list fetched coords = Ok all_departures
    /\ rows_ok (sorted_by_arrival all_departures) departure_dict.
Proof.
  intros H. apply get_upcoming_departures_stages in H.
  destruct H as (all_departures & Hall & Hfold & _).
  exists all_departures. split; [exact Hall|].
  apply (rows_ok_fold _ [] [] departure_dict rows_ok_nil Hfold).
Qed.

(** Once the aggregation has returned, the grouping raises only on a
    departure without an ["arrival_time"] or on a route type that is not
    in the table. *)
Lemma get_upcoming_departures_returns fetched coords all_departures :
  get_next_departures_for_stop_list fetched coords = Ok all_departures ->
  (forall t e, In (t, e) all_departures ->
     has_arrival_time (t_departure e) = true
     /\ exists name,
          gtfs_route_type_to_string (route_type (t_departure e)) = Ok name) ->
  exists departure_dict updated_stop_list,
    get_upcoming_departures fetched coords = Ok (departure_dict, updated_stop_list).
Proof.
  intros Hall Htypes. unfold get_upcoming_departures. rewrite Hall. simpl bind.
  assert (Hsorted : forall item, In item (sorted_by_arrival all_departures) ->
            has_arrival_time (t_departure (snd item)) = true
            /\ exists name, gtfs_route_type_to_string
                              (route_type (t_departure (snd item))) = Ok name).
  { intros [t e] Hin. apply (Htypes t e).
    eapply Permutation_in;
      [apply Permutation_sym, sorted_by_arrival_perm | exact Hin]. }
  assert (Hfold : forall l dd,
            (forall item, In item l ->
               has_arrival_time (t_departure (snd item)) = true
               /\ exists name, gtfs_route_type_to_string
                                 (route_type (t_departure (snd item))) = Ok name) ->
            exists dd', fold_result add_departure l dd = Ok dd').
  { induction l as [|item l IH]; intros dd Hl; simpl; [eauto|].
    assert (Hstep : exists d1, add_departure dd item = Ok d1).
    { unfold add_departure, log_monitoring.
      destruct (Hl item (or_introl eq_refl)) as (-> & name & Hname).
      cbn [bind].
      destruct (dict_get String.eqb _ dd) as [row|].
      - destruct (_ <? 4)%nat; eauto.
      - rewrite Hname. simpl. eauto. }
    destruct Hstep as (d1 & ->). simpl. apply IH.
    intros item' Hin. apply Hl. now right. }
  destruct (Hfold _ [] Hsorted) as (dd & ->). simpl. eauto.
Qed.

(** C3: in the dictionary [get_upcoming_departures] returns, every row
    (one per key made of the route short name and the headsign of a
    tracked departure) holds at most 4 arrival times and as many realtime
    flags as arrival times; the arrival times are those of the first four
    departures of that key in the order of processing, so that a fifth
    and later departure of the key is in no row: keys are not repeated,
    and a row holds departures of its own key only. *)
Theorem rows_hold_at_most_four
  (fetched : list (stop * list departure)) (coords : float * float)
  (departure_dict : list (string * display_row)) (updated_stop_list : list stop) :
  get_upcoming_departures fetched coords = Ok (departure_dict, updated_stop_list) ->
  exists all_departures,
    get_next_departures_for_stop_list fetched coords = Ok all_departures
    /\ NoDup (map fst departure_dict)
    /\ (forall t e, In (t, e) all_departures ->
          In (route_headsign_combo (t_departure e)) (map fst departure_dict))
    /\ forall k row, In (k, row) departure_dict ->
         (List.length (g_arrival_times row) <= 4)%nat
         /\ List.length (g_realtime_data row) = List.length (g_arrival_times row)
         /\ g_arrival_times row
            = firstn 4 (arrivals_for k (sorted_by_arrival all_departures))
         /\ g_realtime_data row
            = firstn 4 (flags_for k (sorted_by_arrival all_departures))
         /\ exists t e, In (t, e) all_departures
                        /\ route_headsign_combo (t_departure e) = k.
Proof.
  intros H. destruct (rows_ok_result _ _ _ _ H) as (all_departures & Hall & Hok).
  destruct Hok as (Hnd & Hnone & Hsome).
  pose proof (sorted_by_arrival_perm all_departures) as Hperm.
  exists all_departures.
  split; [exact Hall|]. split; [exact Hnd|]. split.
  - intros t e Hin.
    destruct (dict_get String.eqb (route_headsign_combo (t_departure e))
                departure_dict) as [row|] eqn:Hget.
    + eapply (dict_get_Some_key String.eqb string_eqb_eq); exact Hget.
    + apply Hnone in Hget.
      assert (Hin' : In (t, e) (with_combo (route_headsign_combo (t_departure e))
                                  (sorted_by_arrival all_departures))).
      { apply filter_In. split.
        - eapply Permutation_in; eassumption.
        - apply String.eqb_refl. }
      rewrite Hget in Hin'. destruct Hin'.
  - intros k row Hin.
    apply (In_dict_get String.eqb string_eqb_eq) in Hin; [|exact Hnd].
    destruct (Hsome _ _ Hin) as (Ht & Hf & first & rest & Hw & _).
    split; [rewrite Ht; apply firstn_le_length|].
    split; [rewrite Ht, Hf; unfold arrivals_for, flags_for;
            now rewrite !length_firstn, !length_map|].
    split; [exact Ht|]. split; [exact Hf|].
    assert (Hfirst : In first (with_combo k (sorted_by_arrival all_departures)))
      by (rewrite Hw; now left).
    apply filter_In in Hfirst. destruct Hfirst as (Hin1 & Hk).
    destruct first as [t e]. exists t, e. split.
    + eapply Permutation_in; [apply Permutation_sym; exact Hperm | exact Hin1].
    + now apply String.eqb_eq in Hk.
Qed.

Lemma StronglySorted_filter {A : Type} (R : A -> A -> Prop) (f : A -> bool) l :
  StronglySorted R l -> StronglySorted R (filter f l).
Proof.
  induction 1 as [|x l Hl IH Hx]; simpl; [constructor|].
  destruct (f x); [|exact IH].
  constructor; [exact IH|].
  rewrite Forall_forall in *. intros y Hy. apply filter_In in Hy. now apply Hx.
Qed.

Lemma StronglySorted_map {A B : Type} (R : A -> A -> Prop) (R' : B -> B -> Prop)
  (f : A -> B) l :
  (forall x y, R x y -> R' (f x) (f y)) ->
  StronglySorted R l -> StronglySorted R' (map f l).
Proof.
  intros Hf. induction 1 as [|x l Hl IH Hx]; simpl; constructor; [exact IH|].
  rewrite Forall_forall in *. intros y Hy. apply in_map_iff in Hy.
  destruct Hy as (z & <- & Hz). now apply Hf, Hx.
Qed.

Lemma In_firstn_In {A : Type} (n : nat) (l : list A) (x : A) :
  In x (firstn n l) -> In x l.
Proof.
  intros H. rewrite <- (firstn_skipn n l). apply in_or_app. now left.
Qed.

Lemma StronglySorted_firstn {A : Type} (R : A -> A -> Prop) (n : nat) l :
  StronglySorted R l -> StronglySorted R (firstn n l).
Proof.
  intros H. revert n. induction H as [|x l Hl IH Hx]; intros [|n]; simpl;
    try constructor; [apply IH|].
  rewrite Forall_forall in *. intros y Hy. apply Hx.
  eapply In_firstn_In; eassumption.
Qed.

(** C4: [get_upcoming_departures] processes the deduplicated trips in
    non-decreasing order of their arrival time (the processing order is a
    sorted rearrangement of them), so the arrival times of every row of
    its result are in non-decreasing order, and the first of them is no
    later than the arrival of any trip of that row's key. *)
Theorem rows_in_order_of_arrival
  (fetched : list (stop * list departure)) (coords : float * float)
  (departure_dict : list (string * display_row)) (updated_stop_list : list stop) :
  get_upcoming_departures fetched coords = Ok (departure_dict, updated_stop_list) ->
  exists all_departures,
    get_next_departures_for_stop_list fetched coords = Ok all_departures
    /\ Permutation all_departures (sorted_by_arrival all_departures)
    /\ StronglySorted arrival_le (sorted_by_arrival all_departures)
    /\ fold_result add_departure (sorted_by_arrival all_departures) []
       = Ok departure_dict
    /\ forall k row, In (k, row) departure_dict ->
         StronglySorted (fun a b => datetime_leb a b = true)
                        (g_arrival_times row)
         /\ exists earliest later,
              g_arrival_times row = earliest :: later
              /\ forall t e, In (t, e) all_departures ->
                   route_headsign_combo (t_departure e) = k ->
                   datetime_leb earliest (t_arrival_time e) = true.
Proof.
  intros H.
  destruct (get_upcoming_departures_stages _ _ _ _ H)
    as (all_departures & Hall & Hfold & _).
  pose proof (rows_ok_fold _ [] [] departure_dict rows_ok_nil Hfold) as Hok.
  change (rows_ok (sorted_by_arrival all_departures) departure_dict) in Hok.
  destruct Hok as (Hnd & _ & Hsome).
  pose proof (sorted_by_arrival_sorted all_departures) as Hsorted.
  pose proof (sorted_by_arrival_perm all_departures) as Hperm.
  exists all_departures. repeat split; try assumption;
    apply (In_dict_get String.eqb string_eqb_eq) in H0; try exact Hnd;
    destruct (Hsome _ _ H0) as (Ht & _ & first & rest & Hw & _).
  - rewrite Ht. apply StronglySorted_firstn. unfold arrivals_for.
    apply (StronglySorted_map arrival_le); [auto|].
    now apply StronglySorted_filter.
  - exists (arrival_of first), (firstn 3 (map arrival_of rest)).
    split; [rewrite Ht; unfold arrivals_for; now rewrite Hw|].
    intros t e Hin Hk.
    assert (Hin' : In (t, e) (with_combo k (sorted_by_arrival all_departures))).
    { apply filter_In. split.
      - eapply Permutation_in; eassumption.
      - unfold combo_of. simpl. rewrite Hk. apply String.eqb_refl. }
    assert (Hs : StronglySorted arrival_le
                   (with_combo k (sorted_by_arrival all_departures)))
      by (now apply StronglySorted_filter).
    rewrite Hw in Hin', Hs. destruct Hin' as [E|Hin'].
    + subst first. apply datetime_leb_refl.
    + inversion Hs as [|? ? _ Hall']; subst.
      rewrite Forall_forall in Hall'. apply (Hall' _ Hin').
Qed.

(** ** The stops kept for monitoring *)

Definition has_stop_id (stops : list stop) (s : stop) : bool :=
  existsb (fun stop_list_entry => stop_id stop_list_entry =? stop_id s) stops.

Lemma has_stop_id_In stops s :
  has_stop_id stops s = true <-> In (stop_id s) (map stop_id stops).
Proof.
  unfold has_stop_id. rewrite existsb_exists, in_map_iff. split.
  - intros (x & Hx & E). apply Z.eqb_eq in E. eauto.
  - intros (x & E & Hx). exists x. split; [exact Hx | now apply Z.eqb_eq].
Qed.

Definition stops_used (rows : list (string * display_row)) (stops : list stop) : Prop :=
  NoDup (map stop_id stops)
  /\ (forall s, In s stops -> exists k row, In (k, row) rows /\ g_full_stop row = s)
  /\ (forall k row, In (k, row) rows ->
        In (stop_id (g_full_stop row)) (map stop_id stops)).

Lemma add_stop_used rows :
  forall seen acc,
    stops_used seen acc ->
    stops_used (seen ++ rows) (fold_left add_stop rows acc).
Proof.
  induction rows as [|[k row] rows IH]; intros seen acc Hacc; simpl.
  - now rewrite app_nil_r.
  - replace (seen ++ (k, row) :: rows) with ((seen ++ [(k, row)]) ++ rows)
      by (now rewrite <- app_assoc).
    apply IH. destruct Hacc as (Hnd & Hfrom & Hall).
    unfold add_stop. simpl. fold (has_stop_id acc (g_full_stop row)).
    destruct (has_stop_id acc (g_full_stop row)) eqn:E.
    + apply has_stop_id_In in E. repeat split; auto.
      * intros s Hs. destruct (Hfrom s Hs) as (k0 & row0 & Hin & Hs0).
        exists k0, row0. rewrite in_app_iff. auto.
      * intros k0 row0 Hin. apply in_app_iff in Hin.
        destruct Hin as [Hin | [Hin | []]]; [eauto|].
        inversion Hin; subst. exact E.
    + assert (Hnot : ~ In (stop_id (g_full_stop row)) (map stop_id acc)).
      { intros Hin. apply has_stop_id_In in Hin. congruence. }
      repeat split.
      * rewrite map_app. simpl.
        apply NoDup_rev in Hnd. rewrite <- (rev_involutive (_ ++ _)).
        apply NoDup_rev. rewrite rev_app_distr. simpl.
        constructor; [now rewrite <- in_rev | exact Hnd].
      * intros s Hs. apply in_app_iff in Hs. destruct Hs as [Hs | [<- | []]].
        -- destruct (Hfrom s Hs) as (k0 & row0 & Hin & Hs0).
           exists k0, row0. rewrite in_app_iff. auto.
        -- exists k, row. rewrite in_app_iff. simpl. auto.
      * intros k0 row0 Hin. rewrite map_app, in_app_iff.
        apply in_app_iff in Hin. destruct Hin as [Hin | [Hin | []]]; [eauto|].
        inversion Hin; subst. right. simpl. auto.
Qed.

Lemma updated_stop_list_used fetched coords departure_dict updated_stop_list :
  get_upcoming_departures fetched coords = Ok (departure_dict, updated_stop_list) ->
  stops_used departure_dict updated_stop_list.
Proof.
  intros H. apply get_upcoming_departures_stages in H.
  destruct H as (all_departures & _ & _ & ->).
  apply (add_stop_used departure_dict [] []).
  repeat split; simpl; try constructor; tauto.
Qed.

(** ** The worker loop *)

Lemma run_iteration_Ok coords p w w' display_data :
  run_iteration coords p w = Ok (w', display_data) ->
  exists updated_stops_list,
    get_upcoming_departures (fetch p (monitored_stop_list w)) coords
      = Ok (display_data, updated_stops_list)
    /\ w' = (if negb (update_intervals_to_use_cached_stop_data w =? 0)
             then mk_worker_thread updated_stops_list
                    (update_intervals_to_use_cached_stop_data w - 1)
             else mk_worker_thread (nearby_stops p)
                    UPDATE_INTERVALS_TO_USE_CACHED_STOP_DATA).
Proof.
  unfold run_iteration. intros H. apply bind_Ok in H.
  destruct H as ([data updated] & Hget & H). inversion H; subst. eauto.
Qed.

Lemma run_counter coords polls stops0 n :
  forall w,
    run coords polls n (new_worker stops0) = Ok w ->
    update_intervals_to_use_cached_stop_data w = 30 - Z.of_nat n mod 31.
Proof.
  induction n as [|n IH]; intros w Hrun.
  - inversion Hrun. reflexivity.
  - cbn [run] in Hrun. apply bind_Ok in Hrun.
    destruct Hrun as (w1 & Hw1 & Hit). specialize (IH w1 Hw1).
    apply bind_Ok in Hit. destruct Hit as ([w' d] & Hit & Hw).
    inversion Hw; subst w'. clear Hw.
    apply run_iteration_Ok in Hit. destruct Hit as (updated & _ & ->).
    rewrite IH. unfold UPDATE_INTERVALS_TO_USE_CACHED_STOP_DATA.
    rewrite Nat2Z.inj_succ.
    destruct (Z.eqb_spec (30 - Z.of_nat n mod 31) 0) as [E|E];
      cbn [negb update_intervals_to_use_cached_stop_data]; zdiv.
Qed.

(** C6: an iteration of the worker loop polls the monitored stops; while
    the counter is not zero it replaces the monitored list by the stops
    used for the departures now displayed (the stop of every row, once
    per stop id) and takes one off the counter; when the counter is zero
    it replaces the list by all nearby stops and sets the counter to 30
    again.  The data an iteration displays depends on earlier iterations
    through the monitored list only.  From a new thread the counter after
    [n] iterations is 30 minus [n] modulo 31, so iterations 30, 61, 92,
    ... are full refreshes, for as long as the thread runs. *)
Theorem worker_refreshes_periodically (coords : float * float) :
  (forall p w w' display_data,
      run_iteration coords p w = Ok (w', display_data) ->
      exists updated_stops_list,
        get_upcoming_departures (fetch p (monitored_stop_list w)) coords
          = Ok (display_data, updated_stops_list)
        /\ stops_used display_data updated_stops_list
        /\ (update_intervals_to_use_cached_stop_data w <> 0 ->
            monitored_stop_list w' = updated_stops_list
            /\ update_intervals_to_use_cached_stop_data w'
               = update_intervals_to_use_cached_stop_data w - 1)
        /\ (update_intervals_to_use_cached_stop_data w = 0 ->
            monitored_stop_list w' = nearby_stops p
            /\ update_intervals_to_use_cached_stop_data w'
               = UPDATE_INTERVALS_TO_USE_CACHED_STOP_DATA))
  /\ (forall p w1 w2,
        monitored_stop_list w1 = monitored_stop_list w2 ->
        bind (run_iteration coords p w1) (fun r => Ok (snd r))
        = bind (run_iteration coords p w2) (fun r => Ok (snd r)))
  /\ (forall polls stops0 n w,
        run coords polls n (new_worker stops0) = Ok w ->
        update_intervals_to_use_cached_stop_data w = 30 - Z.of_nat n mod 31)
  /\ (forall polls stops0 m w,
        run coords polls (31 * m + 31) (new_worker stops0) = Ok w ->
        monitored_stop_list w = nearby_stops (polls (31 * m + 30)%nat)
        /\ update_intervals_to_use_cached_stop_data w
           = UPDATE_INTERVALS_TO_USE_CACHED_STOP_DATA).
Proof.
  repeat split.
  - intros p w w' display_data Hit.
    destruct (run_iteration_Ok _ _ _ _ _ Hit) as (updated & Hget & ->).
    exists updated. split; [exact Hget|].
    split; [eapply updated_stop_list_used; exact Hget|].
    split; intros Hc.
    + destruct (Z.eqb_spec (update_intervals_to_use_cached_stop_data w) 0);
        [contradiction | simpl; auto].
    + rewrite Hc. simpl. auto.
  - intros p w1 w2 Hm. unfold run_iteration. rewrite Hm.
    destruct (get_upcoming_departures _ coords) as [[data updated]|e];
      reflexivity.
  - intros polls stops0 n w. apply run_counter.
  - replace (31 * m + 31)%nat with (S (31 * m + 30)) in H by lia.
    cbn [run] in H. apply bind_Ok in H. destruct H as (w1 & Hw1 & Hit).
    apply run_counter in Hw1.
    apply bind_Ok in Hit. destruct Hit as ([w' d] & Hit & Hw).
    inversion Hw; subst w'. clear Hw.
    apply run_iteration_Ok in Hit. destruct Hit as (updated & _ & ->).
    assert (E : update_intervals_to_use_cached_stop_data w1 = 0)
      by (rewrite Hw1; zdiv).
    rewrite E. reflexivity.
  - replace (31 * m + 31)%nat with (S (31 * m + 30)) in H by lia.
    cbn [run] in H. apply bind_Ok in H. destruct H as (w1 & Hw1 & Hit).
    apply run_counter in Hw1.
    apply bind_Ok in Hit. destruct Hit as ([w' d] & Hit & Hw).
    inversion Hw; subst w'. clear Hw.
    apply run_iteration_Ok in Hit. destruct Hit as (updated & _ & ->).
    assert (E : update_intervals_to_use_cached_stop_data w1 = 0)
      by (rewrite Hw1; zdiv).
    rewrite E. reflexivity.
Qed.

(** ** [BusStopApp]: the pages and the page in view

    Of a row only the text of its third label is kept; the three calls
    of [time_difference_strings] are taken at one reading of the clock.
    The icon of a row is not part of the model: its colour is
    [string_to_dark_background_color] of the simplified route name, which
    raises [UnicodeEncodeError] on a route name that cannot be encoded. *)

Variable truncated_minutes : Z -> Z.

Record bus_stop_app : Type := mk_bus_stop_app {
  departure_info : list (string * display_row);
  current_page : Z;
  stacked_widget : list (list string);
  page_indicator_total_pages : Z;
  page_indicator_current_page : Z
}.

(** [BusStopApp.__init__]. *)
Definition new_app : bus_stop_app := mk_bus_stop_app [] 0 [] 0 0.

Definition switch_page (a : bus_stop_app) : bus_stop_app :=
  let total_pages := Z.of_nat (List.length (stacked_widget a)) in
  if total_pages >? 1
  then
    let page := (current_page a + 1) mod total_pages in
    mk_bus_stop_app (departure_info a) page (stacked_widget a)
      (page_indicator_total_pages a) page
  else a.

Fixpoint map_result {A B : Type} (f : A -> result B) (l : list A)
  : result (list B) :=
  match l with
  | [] => Ok []
  | a :: l' => b <- f a ;; bs <- map_result f l' ;; Ok (b :: bs)
  end.

Definition newline : string := String (ascii_of_nat 10) "".

Definition label_text3 (now : datetime) (info : display_row) : result string :=
  strings <- time_difference_strings truncated_minutes now
               (g_arrival_times info) (Some (g_realtime_data info)) ;;
  match strings with
  | [] => Raise IndexError
  | first :: rest =>
      Ok (if (1 <? List.length strings)%nat
          then (first ++ newline ++ "also " ++ String.concat ",  " rest)%string
          else first)
  end.

Definition items_per_page : Z := 4.

Definition page_rows (now : datetime) (info : list (string * display_row))
  (page : nat) : result (list string) :=
  let start_index := (page * Z.to_nat items_per_page)%nat in
  let end_index :=
    Nat.min ((page + 1) * Z.to_nat items_per_page) (List.length info) in
  map_result (fun entry => label_text3 now (snd entry))
    (firstn (end_index - start_index) (skipn start_index info)).

Definition update_table (now : datetime) (a : bus_stop_app)
  (display_data : list (string * display_row)) : result bus_stop_app :=
  let total_departures := Z.of_nat (List.length display_data) in
  let total_pages := (total_departures + items_per_page - 1) / items_per_page in
  pages <- map_result (page_rows now display_data)
             (seq 0 (Z.to_nat total_pages)) ;;
  Ok (mk_bus_stop_app display_data 0 pages total_pages 0).

(** ** Pages *)

Lemma map_result_length {A B : Type} (f : A -> result B) (l : list A) :
  forall out, map_result f l = Ok out -> List.length out = List.length l.
Proof.
  induction l as [|a l IH]; intros out H; simpl in H.
  - inversion H. reflexivity.
  - apply bind_Ok in H. destruct H as (b & _ & H).
    apply bind_Ok in H. destruct H as (bs & Hbs & H).
    inversion H; subst. simpl. now rewrite (IH bs).
Qed.

Lemma map_result_returns {A B : Type} (f : A -> result B) (l : list A) :
  (forall a, In a l -> exists b, f a = Ok b) ->
  exists out, map_result f l = Ok out.
Proof.
  induction l as [|a l IH]; intros H; simpl; [eauto|].
  destruct (H a (or_introl eq_refl)) as (b & ->). simpl.
  destruct IH as (bs & ->); [intros a' Ha'; apply H; now right|].
  simpl. eauto.
Qed.

(** A row as [get_upcoming_departures] makes them: at least one arrival
    time, and a realtime flag for each. *)
Definition row_shows (row : display_row) : Prop :=
  g_arrival_times row <> []
  /\ List.length (g_realtime_data row) = List.length (g_arrival_times row).

Lemma label_text3_returns now row :
  row_shows row -> exists text, label_text3 now row = Ok text.
Proof.
  intros (Hne & Hlen). unfold label_text3.
  destruct (time_difference_strings_returns truncated_minutes now
              (g_arrival_times row) (g_realtime_data row))
    as (strings & -> & Hl); [lia|].
  simpl. destruct strings as [|first rest]; [|eauto].
  destruct (g_arrival_times row); [congruence | discriminate].
Qed.

Lemma update_table_returns now a display_data :
  (forall k row, In (k, row) display_data -> row_shows row) ->
  exists a', update_table now a display_data = Ok a'.
Proof.
  intros Hrows. unfold update_table.
  destruct (map_result_returns (page_rows now display_data)
              (seq 0 (Z.to_nat ((Z.of_nat (List.length display_data)
                                 + items_per_page - 1) / items_per_page))))
    as (pages & ->); [|simpl; eauto].
  intros page _. unfold page_rows. apply map_result_returns.
  intros [k row] Hin. apply label_text3_returns. apply (Hrows k).
  apply In_firstn_In in Hin.
  rewrite <- (firstn_skipn (page * Z.to_nat items_per_page) display_data).
  apply in_or_app. now right.
Qed.

Definition total_pages (a : bus_stop_app) : Z :=
  Z.of_nat (List.length (stacked_widget a)).

Lemma switch_page_turns (a : bus_stop_app) :
  1 < total_pages a ->
  switch_page a
  = mk_bus_stop_app (departure_info a)
      ((current_page a + 1) mod total_pages a) (stacked_widget a)
      (page_indicator_total_pages a)
      ((current_page a + 1) mod total_pages a).
Proof.
  intros Hp. unfold switch_page. fold (total_pages a).
  assert (E : (total_pages a >? 1) = true) by lia.
  now rewrite E.
Qed.

Lemma switch_page_stays (a : bus_stop_app) :
  total_pages a <= 1 -> switch_page a = a.
Proof.
  intros Hp. unfold switch_page. fold (total_pages a).
  assert (E : (total_pages a >? 1) = false) by lia.
  now rewrite E.
Qed.

(** C5: with more than one page a tick of the page-turn timer moves
    [current_page] to [(current_page + 1) mod total_pages], which lies in
    [0, total_pages): the next page, and the first page after the last;
    with at most one page a tick changes nothing; and a data refresh,
    which succeeds on the rows the worker emits, leaves [current_page] at
    0 with one page per four rows. *)
Theorem pages_rotate (a : bus_stop_app) :
  (1 < total_pages a ->
     current_page (switch_page a) = (current_page a + 1) mod total_pages a
     /\ 0 <= current_page (switch_page a) < total_pages a
     /\ page_indicator_current_page (switch_page a) = current_page (switch_page a)
     /\ stacked_widget (switch_page a) = stacked_widget a
     /\ (0 <= current_page a < total_pages a - 1 ->
         current_page (switch_page a) = current_page a + 1)
     /\ (current_page a = total_pages a - 1 ->
         current_page (switch_page a) = 0))
  /\ (total_pages a <= 1 -> switch_page a = a)
  /\ (forall now display_data a',
        update_table now a display_data = Ok a' ->
        current_page a' = 0
        /\ page_indicator_current_page a' = 0
        /\ departure_info a' = display_data
        /\ total_pages a' = (Z.of_nat (List.length display_data) + 3) / 4)
  /\ (forall now display_data,
        (forall k row, In (k, row) display_data -> row_shows row) ->
        exists a', update_table now a display_data = Ok a').
Proof.
  pose proof (switch_page_turns a) as Hturn.
  assert (Hupdate : forall now display_data a',
            update_table now a display_data = Ok a' ->
            exists pages,
              map_result (page_rows now display_data)
                (seq 0 (Z.to_nat ((Z.of_nat (List.length display_data)
                                   + items_per_page - 1) / items_per_page)))
              = Ok pages
              /\ a' = mk_bus_stop_app display_data 0 pages
                        ((Z.of_nat (List.length display_data)
                          + items_per_page - 1) / items_per_page) 0).
  { intros now display_data a' H. unfold update_table in H.
    apply bind_Ok in H. destruct H as (pages & Hpages & H).
    inversion H. eauto. }
  split; [|split; [|split]].
  - intros Hp. rewrite (Hturn Hp).
    cbn [current_page page_indicator_current_page stacked_widget].
    pose proof (Z.mod_pos_bound (current_page a + 1) (total_pages a)
                  ltac:(lia)) as Hb.
    split; [reflexivity|]. split; [exact Hb|].
    split; [reflexivity|]. split; [reflexivity|]. split.
    + intros Hc. apply Z.mod_small. lia.
    + intros Hc. replace (current_page a + 1) with (total_pages a) by lia.
      apply Z.mod_same. lia.
  - apply switch_page_stays.
  - intros now display_data a' H.
    destruct (Hupdate _ _ _ H) as (pages & Hpages & ->).
    split; [reflexivity|]. split; [reflexivity|]. split; [reflexivity|].
    unfold total_pages. cbn [stacked_widget].
    apply map_result_length in Hpages. rewrite Hpages, length_seq.
    unfold items_per_page.
    replace (Z.of_nat (List.length display_data) + 4 - 1)
      with (Z.of_nat (List.length display_data) + 3) by lia.
    apply Z2Nat.id. apply Z.div_pos; lia.
  - intros now display_data. apply update_table_returns.
Qed.

(** The states the application goes through: ticks of the timer and
    data refreshes that complete, from the state [__init__] leaves.  In
    all of them the page in view is a page of the stack (or 0 when there
    is no page), and the indicator shows that page. *)
Inductive app_event : Type :=
| Tick
| DataUpdated (now : datetime) (display_data : list (string * display_row)).

Definition app_step (a : bus_stop_app) (ev : app_event) : result bus_stop_app :=
  match ev with
  | Tick => Ok (switch_page a)
  | DataUpdated now display_data => update_table now a display_data
  end.

Inductive reachable : bus_stop_app -> Prop :=
| reachable_new : reachable new_app
| reachable_step a ev a' :
    reachable a -> app_step a ev = Ok a' -> reachable a'.

Lemma reachable_page_in_range (a : bus_stop_app) :
  reachable a ->
  page_indicator_current_page a = current_page a
  /\ 0 <= current_page a
  /\ (current_page a < total_pages a
      \/ (total_pages a = 0 /\ current_page a = 0)).
Proof.
  induction 1 as [|a ev a' Hr IH Hstep].
  - unfold total_pages. simpl. lia.
  - destruct IH as (Hind & H0 & Hlt).
    destruct ev as [|now display_data]; simpl in Hstep.
    + inversion Hstep; subst a'; clear Hstep.
      destruct (Z_lt_le_dec 1 (total_pages a)) as [Hp|Hp].
      * rewrite (switch_page_turns a Hp). unfold total_pages in *.
        cbn [page_indicator_current_page current_page stacked_widget].
        pose proof (Z.mod_pos_bound (current_page a + 1)
                      (Z.of_nat (List.length (stacked_widget a)))
                      ltac:(lia)).
        split; [reflexivity | lia].
      * rewrite (switch_page_stays a Hp). auto.
    + unfold update_table in Hstep. apply bind_Ok in Hstep.
      destruct Hstep as (pages & _ & Hstep). inversion Hstep; subst a'.
      unfold total_pages. simpl. lia.
Qed.

(** What the worker emits can be shown: every row of
    [get_upcoming_departures] has an arrival time and a flag for each. *)
Lemma emitted_rows_show fetched coords departure_dict updated_stop_list :
  get_upcoming_departures fetched coords = Ok (departure_dict, updated_stop_list) ->
  forall k row, In (k, row) departure_dict -> row_shows row.
Proof.
  intros H k row Hin.
  destruct (rows_ok_result _ _ _ _ H) as (all_departures & _ & Hnd & _ & Hsome).
  apply (In_dict_get String.eqb string_eqb_eq) in Hin; [|exact Hnd].
  destruct (Hsome _ _ Hin) as (Ht & Hf & first & rest & Hw & _).
  split.
  - rewrite Ht. unfold arrivals_for. rewrite Hw. discriminate.
  - rewrite Ht, Hf. unfold arrivals_for, flags_for.
    now rewrite !length_firstn, !length_map.
Qed.

End Transit.

(** ** A run on integer coordinates

    The float operations are instantiated with integers and the
    approximations for small angles ([sin x] by [x], [cos x] by 1,
    [atan2 y x] by [y]), which is enough to run the aggregation. *)

Definition grid : float_ops :=
  mk_float_ops Z Z.ltb (fun n => n) Z.add Z.sub Z.mul Z.div
    (fun x => Ok (x * x)) (fun x => x) (fun x => Ok x) (fun _ => Ok 1)
    (fun x => Ok (Z.sqrt x)) (fun y _ => y).

Definition far_stop : stop grid := mk_stop grid 1 "Market St" (10, 10).
Definition near_stop : stop grid := mk_stop grid 2 "34th St" (2, 2).

Definition bus (trip : Z) (route headsign : string)
  (estimated scheduled : option string) : departure :=
  mk_departure trip route 3 "SEPTA" headsign "2024-03-01" estimated scheduled.

Definition sample_fetched : list (stop grid * list departure) :=
  [ (far_stop,
     [ bus 7 "21" "West" None (Some "12:10:00");
       bus 8 "21" "West" None (Some "24:10:00") ]);
    (near_stop,
     [ bus 7 "21" "West" (Some "12:05:30") (Some "12:05:00");
       bus 9 "42" "East" None (Some "12:00:00");
       bus 10 "21" "West" None (Some "12:20:00");
       bus 11 "21" "West" None (Some "12:30:00");
       bus 12 "21" "West" None (Some "12:40:00");
       bus 13 "21" "West" None (Some "12:50:00") ]) ].

Definition at_time (d h mi s : Z) : datetime := mk_datetime 2024 3 d h mi s 0.

Definition sample_tracked : list (Z * tracked grid) :=
  [ (7, mk_tracked grid (bus 7 "21" "West" (Some "12:05:30") (Some "12:05:00"))
          near_stop 12742 (at_time 1 12 5 30) true);
    (8, mk_tracked grid (bus 8 "21" "West" None (Some "24:10:00"))
          far_stop 89194 (at_time 2 0 10 0) false);
    (9, mk_tracked grid (bus 9 "42" "East" None (Some "12:00:00"))
          near_stop 12742 (at_time 1 12 0 0) false);
    (10, mk_tracked grid (bus 10 "21" "West" None (Some "12:20:00"))
           near_stop 12742 (at_time 1 12 20 0) false);
    (11, mk_tracked grid (bus 11 "21" "West" None (Some "12:30:00"))
           near_stop 12742 (at_time 1 12 30 0) false);
    (12, mk_tracked grid (bus 12 "21" "West" None (Some "12:40:00"))
           near_stop 12742 (at_time 1 12 40 0) false);
    (13, mk_tracked grid (bus 13 "21" "West" None (Some "12:50:00"))
           near_stop 12742 (at_time 1 12 50 0) false) ].

Example sample_aggregation :
  get_next_departures_for_stop_list grid sample_fetched (0, 0)
  = Ok sample_tracked.
Proof. vm_compute. reflexivity. Qed.

Definition sample_rows : list (string * display_row grid) :=
  [ ("42 - East",
     mk_display_row grid "42" ("Bus " ++ utf8 [195; 176; 197; 184; 197; 161])
       "East" "34th St" [at_time 1 12 0 0] [false] "SEPTA" near_stop);
    ("21 - West",
     mk_display_row grid "21" ("Bus " ++ utf8 [195; 176; 197; 184; 197; 161])
       "West" "34th St"
       [at_time 1 12 5 30; at_time 1 12 20 0; at_time 1 12 30 0;
        at_time 1 12 40 0]
       [true; false; false; false] "SEPTA" near_stop) ]%string.

(** Six trips of route 21 are tracked; the row keeps the first four. *)
Example sample_display :
  get_upcoming_departures grid sample_fetched (0, 0)
  = Ok (sample_rows, [near_stop]).
Proof. vm_compute. reflexivity. Qed.

Lemma closer_stop_after_midnight_raises_witness :
  get_next_departures_for_stop_list grid
    [ (far_stop, [mk_departure 7 "21" 3 "SEPTA" "West" "2024-01-01"
                               None (Some "24:10:00")]);
      (near_stop, [mk_departure 7 "21" 3 "SEPTA" "West" "2024-01-01"
                                None (Some "24:10:00")]) ]
    (0, 0)
  = Raise ValueError.
Proof.
  apply (closer_stop_after_midnight_raises grid
           far_stop near_stop (0, 0) 89194 12742);
    reflexivity.
Defined.

Lemma one_entry_per_trip_witness :
  NoDup (map fst sample_tracked)
  /\ exists d, get_next_departures_for_stop_list grid
                 [(far_stop, [bus 7 "21" "West" None (Some "12:10:00")])]
                 (0, 0) = Ok d.
Proof.
  split.
  - apply (proj1 (one_entry_per_trip grid
                     sample_fetched (0, 0)) sample_tracked).
    vm_compute. reflexivity.
  - apply (proj2 (one_entry_per_trip grid
                     [(far_stop, [bus 7 "21" "West" None (Some "12:10:00")])]
                     (0, 0))).
    intros s ds dep [H | []] Hdep. inversion H; subst s ds.
    destruct Hdep as [<- | []].
    split; [eexists; reflexivity|].
    split; eexists; vm_compute; reflexivity.
Defined.

Lemma rows_hold_at_most_four_witness :
  exists all_departures,
    get_next_departures_for_stop_list grid sample_fetched (0, 0)
      = Ok all_departures
    /\ NoDup (map fst sample_rows)
    /\ forall k row, In (k, row) sample_rows ->
         (List.length (g_arrival_times grid row) <= 4)%nat
         /\ List.length (g_realtime_data grid row)
            = List.length (g_arrival_times grid row).
Proof.
  destruct (rows_hold_at_most_four grid sample_fetched (0, 0)
              sample_rows [near_stop])
    as (all_departures & Hall & Hnd & _ & Hrows).
  - vm_compute. reflexivity.
  - exists all_departures. split; [exact Hall|]. split; [exact Hnd|].
    intros k row Hin. destruct (Hrows k row Hin) as (H4 & Hlen & _).
    split; assumption.
Defined.

Lemma rows_in_order_of_arrival_witness :
  exists all_departures,
    get_next_departures_for_stop_list grid sample_fetched (0, 0)
      = Ok all_departures
    /\ StronglySorted (arrival_le grid) (sorted_by_arrival grid all_departures).
Proof.
  destruct (rows_in_order_of_arrival grid sample_fetched (0, 0)
              sample_rows [near_stop])
    as (all_departures & Hall & _ & Hsorted & _).
  - vm_compute. reflexivity.
  - exists all_departures. split; assumption.
Defined.

Definition three_pages : bus_stop_app grid :=
  mk_bus_stop_app grid [] 2 [[]; []; []] 3 2.

Lemma pages_rotate_witness :
  current_page grid (switch_page grid three_pages) = 0
  /\ switch_page grid (new_app grid) = new_app grid
  /\ exists a', update_table grid exact_minutes (at_time 1 12 0 30) three_pages
                  sample_rows = Ok a'.
Proof.
  pose proof (pages_rotate grid exact_minutes three_pages) as (Hturn & _ & _ & Hshow).
  pose proof (pages_rotate grid exact_minutes (new_app grid)) as (_ & Hstay & _).
  split; [|split].
  - apply Hturn; reflexivity.
  - apply Hstay. vm_compute. discriminate.
  - apply Hshow. intros k row Hin.
    apply (emitted_rows_show grid sample_fetched (0, 0)
             sample_rows [near_stop]) with (k := k); [|exact Hin].
    vm_compute. reflexivity.
Defined.

Definition quiet_polls (i : nat) : poll grid :=
  mk_poll grid (fun _ _ => []) [near_stop; far_stop].

Lemma worker_refreshes_periodically_witness :
  let w := mk_worker_thread grid [near_stop; far_stop] 30 in
  run grid (0, 0) quiet_polls 31 (new_worker grid []) = Ok w
  /\ monitored_stop_list grid w = nearby_stops grid (quiet_polls 30)
  /\ update_intervals_to_use_cached_stop_data grid w
     = UPDATE_INTERVALS_TO_USE_CACHED_STOP_DATA.
Proof.
  intros w.
  assert (Hrun : run grid (0, 0) quiet_polls (31 * 0 + 31)
                   (new_worker grid []) = Ok w)
    by (vm_compute; reflexivity).
  split; [exact Hrun|].
  apply (proj2 (proj2 (proj2
           (worker_refreshes_periodically grid (0, 0))))
           quiet_polls [] 0%nat w Hrun).
Defined.

(** * Further properties of [utils.py] *)

(** ** What [get_corrected_datetime] can return and raise, on any text *)

Lemma make_datetime_outcomes (y m d h mi s us : Z) :
  match make_datetime y m d h mi s us with
  | Ok dt => dt = mk_datetime y m d h mi s us
             /\ valid_date y m d = true /\ valid_time h mi s us = true
  | Raise e => e = ValueError
  end.
Proof.
  unfold make_datetime.
  destruct (valid_date y m d) eqn:Hd; [|reflexivity].
  destruct (valid_time h mi s us) eqn:Ht; simpl; auto.
Qed.

Lemma full_match_raises {A : Type} (p : parser A) (s : string) (e : exn) :
  full_match p s = Raise e -> e = ValueError.
Proof.
  unfold full_match. destruct (p _) as [|[a [|c r]] l]; congruence.
Qed.

Lemma strptime_date_outcomes (s : string) :
  match strptime_date s with
  | Ok dt => valid_date (year dt) (month dt) (day dt) = true
             /\ hour dt = 0 /\ minute dt = 0 /\ second dt = 0
             /\ microsecond dt = 0
  | Raise e => e = ValueError
  end.
Proof.
  unfold strptime_date.
  destruct (full_match p_date s) as [[[y m] d]|e] eqn:E; simpl.
  - pose proof (make_datetime_outcomes y m d 0 0 0 0) as H.
    destruct (make_datetime y m d 0 0 0 0) as [dt|e]; [|exact H].
    destruct H as (-> & Hd & _). simpl. auto.
  - eapply full_match_raises; exact E.
Qed.

Lemma py_int_chars_raises (base : Z) (l : list ascii) (e : exn) :
  py_int_chars base l = Raise e -> e = ValueError.
Proof.
  unfold py_int_chars.
  destruct (match strip l with
            | "-"%char :: r => (-1, r)
            | "+"%char :: r => (1, r)
            | _ => (1, strip l)
            end) as [sign rest].
  destruct (int_digits base 0 false (skip_prefix base rest));
    [|congruence].
  destruct (negb (is_power_of_two base) && _); congruence.
Qed.

Lemma unpack_hms_raises (parts : list (list ascii)) (e : exn) :
  unpack_hms parts = Raise e -> e = ValueError.
Proof.
  unfold unpack_hms.
  destruct parts as [|a [|b [|c [|x parts]]]]; try congruence.
  destruct (py_int_chars 10 a) eqn:Ea; simpl;
    [|intros H; inversion H; subst; eapply py_int_chars_raises; exact Ea].
  destruct (py_int_chars 10 b) eqn:Eb; simpl;
    [|intros H; inversion H; subst; eapply py_int_chars_raises; exact Eb].
  destruct (py_int_chars 10 c) eqn:Ec; simpl;
    [discriminate|intros H; inversion H; subst; eapply py_int_chars_raises; exact Ec].
Qed.

Lemma add_one_day_outcomes (dt : datetime) :
  valid_date (year dt) (month dt) (day dt) = true ->
  match add_one_day dt with
  | Ok dt' => dt' = next_day dt
  | Raise e => e = OverflowError
               /\ year dt = 9999 /\ month dt = 12 /\ day dt = 31
  end.
Proof.
  intros Hv. unfold add_one_day.
  destruct (Z.leb_spec (toordinal dt + 1) MAXORDINAL) as [H|H]; [reflexivity|].
  split; [reflexivity|].
  pose proof (toordinal_max _ _ _ Hv) as [Hle Hmax].
  change (toordinal (mk_datetime (year dt) (month dt) (day dt) 0 0 0 0))
    with (toordinal dt) in Hle, Hmax.
  apply Hmax. lia.
Qed.

(** Text whose characters are all ASCII. *)
Definition ascii_text (s : string) : bool :=
  forallb (fun c => code c <? 128) (list_ascii_of_string s).

Example get_corrected_datetime_field_too_large :
  get_corrected_datetime "2024-01-01" "12:2147483648:00" = Raise OverflowError
  /\ get_corrected_datetime "2024-01-01" "12:2147483647:00" = Raise ValueError
  /\ get_corrected_datetime "2024-01-01" "-2147483649:00:00"
     = Raise OverflowError
  /\ get_corrected_datetime "2024-01-01" "2147483648:00:00"
     = Ok (mk_datetime 2024 1 2 8 0 0 0).
Proof. repeat split; vm_compute; reflexivity. Qed.

(** X1: on any two ASCII texts, [get_corrected_datetime] either returns
    a datetime that is a calendar date of the years 1 to 9999 with a
    time of day (hour below 24, minute and second below 60, no
    microseconds), or raises [ValueError], or raises [OverflowError].  It
    raises [OverflowError] only where both texts have been read and
    either the service date is 9999-12-31 and the hour is above 23, or
    the minute, the second or an hour not above 23 does not fit a C
    [int].  The texts are ASCII: that is where [strptime], [split] and
    [int] are embedded as Python has them. *)
Theorem get_corrected_datetime_outcomes (service_date arrival_time : string) :
  ascii_text service_date = true ->
  ascii_text arrival_time = true ->
  match get_corrected_datetime service_date arrival_time with
  | Ok dt =>
      valid_date (year dt) (month dt) (day dt) = true
      /\ valid_time (hour dt) (minute dt) (second dt) (microsecond dt) = true
      /\ microsecond dt = 0
  | Raise e =>
      e = ValueError
      \/ (e = OverflowError
          /\ exists arrival_date h mi s,
               strptime_date service_date = Ok arrival_date
               /\ unpack_hms (split_on ":" (list_ascii_of_string arrival_time))
                  = Ok (h, mi, s)
               /\ ((23 < h /\ arrival_date = mk_datetime 9999 12 31 0 0 0 0)
                   \/ (h <= 23 /\ fits_c_int h = false)
                   \/ fits_c_int mi = false
                   \/ fits_c_int s = false))
  end.
Proof.
  intros _ _. unfold get_corrected_datetime.
  pose proof (strptime_date_outcomes service_date) as Hdate.
  destruct (strptime_date service_date) as [d0|e]; simpl; [|now left].
  destruct Hdate as (Hv & Hh & Hmi & Hs & Hus).
  destruct (unpack_hms _) as [[[h mi] s]|e] eqn:Eu; simpl;
    [|left; eapply unpack_hms_raises; exact Eu].
  assert (Hrep : forall dt hh,
            microsecond dt = 0 ->
            match replace_time dt hh mi s with
            | Ok r => valid_date (year r) (month r) (day r) = true
                      /\ valid_time (hour r) (minute r) (second r)
                           (microsecond r) = true
                      /\ microsecond r = 0
            | Raise e => e = ValueError
                         \/ (e = OverflowError
                             /\ (fits_c_int hh = false \/ fits_c_int mi = false
                                 \/ fits_c_int s = false))
            end).
  { intros dt hh Hz. unfold replace_time.
    destruct (fits_c_int hh) eqn:Fh; [|right; auto].
    destruct (fits_c_int mi) eqn:Fmi; [|right; auto].
    destruct (fits_c_int s) eqn:Fs; [|right; auto].
    cbn [andb].
    pose proof (make_datetime_outcomes (year dt) (month dt) (day dt)
                  hh mi s (microsecond dt)) as H.
    destruct (make_datetime _ _ _ _ _ _ _) as [r|e]; [|now left].
    destruct H as (-> & Hd & Ht). simpl. auto. }
  destruct (Z.gtb_spec h 23) as [Hgt|Hle].
  - pose proof (add_one_day_outcomes d0 Hv) as Hadd.
    destruct (add_one_day d0) as [d1|e]; simpl.
    + subst d1.
      pose proof (Hrep (next_day d0) (h mod 24)
                    ltac:(rewrite next_day_microsecond; exact Hus)) as H.
      destruct (replace_time _ _ _ _) as [r|e]; [exact H|].
      destruct H as [H | (-> & [H | [H | H]])]; [now left | | |].
      * exfalso. unfold fits_c_int in H.
        pose proof (Z.mod_pos_bound h 24 ltac:(lia)). lia.
      * right. split; [reflexivity|]. exists d0, h, mi, s. auto 6.
      * right. split; [reflexivity|]. exists d0, h, mi, s. auto 6.
    + right. destruct Hadd as (-> & Hy & Hm & Hd). split; [reflexivity|].
      exists d0, h, mi, s. split; [reflexivity|]. split; [reflexivity|].
      left. split; [lia|].
      destruct d0 as [y m d hh mm ss us]. simpl in *. congruence.
  - simpl. pose proof (Hrep d0 h Hus) as H.
    destruct (replace_time _ _ _ _) as [r|e]; [exact H|].
    destruct H as [H | (-> & [H | [H | H]])]; [now left | | |];
      right; (split; [reflexivity|]); exists d0, h, mi, s; auto 6.
Qed.

Lemma get_corrected_datetime_outcomes_witness :
  match get_corrected_datetime "9999-12-31" "24:00:00" with
  | Ok _ => False
  | Raise e => e = ValueError \/ e = OverflowError
  end.
Proof.
  pose proof (get_corrected_datetime_outcomes "9999-12-31" "24:00:00"
                eq_refl eq_refl) as H.
  destruct (get_corrected_datetime "9999-12-31" "24:00:00") as [dt|e] eqn:E.
  - vm_compute in E. discriminate.
  - destruct H as [H | (H & _)]; auto.
Defined.

(** ** How far after the service date the corrected datetime lies *)

Lemma get_corrected_datetime_value (y m d : Z) (hs : list ascii) (mi s : Z) :
  valid_date y m d = true ->
  Forall (fun c => is_digit c = true) hs -> hs <> [] ->
  (List.length hs <= 4300)%nat ->
  0 <= mi <= 59 -> 0 <= s <= 59 ->
  digits_value hs <= 23 \/ (y, m, d) <> (9999, 12, 31) ->
  get_corrected_datetime (date_text y m d) (time_text hs mi s)
  = Ok (with_time (if digits_value hs >? 23
                   then next_day (mk_datetime y m d 0 0 0 0)
                   else mk_datetime y m d 0 0 0 0)
                  (digits_value hs mod 24) mi s).
Proof.
  intros Hv Hhs Hne Hlen Hmi Hs Hdom.
  pose proof (digits_value_nonneg hs Hhs) as Hh0.
  rewrite get_corrected_datetime_on_text by assumption.
  destruct (Z.gtb_spec (digits_value hs) 23) as [Hgt|Hle].
  - assert (Hnot : (y, m, d) <> (9999, 12, 31)) by (destruct Hdom; [lia | assumption]).
    pose proof (add_one_day_outcomes (mk_datetime y m d 0 0 0 0) Hv) as Hadd.
    destruct (add_one_day (mk_datetime y m d 0 0 0 0)) as [d1|e].
    + subst d1. simpl bind.
      apply replace_time_valid;
        [now apply next_day_valid | apply next_day_microsecond
        | pose proof (Z.mod_pos_bound (digits_value hs) 24); lia | lia | lia].
    + exfalso. destruct Hadd as (_ & Hy & Hm & Hd). simpl in *.
      apply Hnot. congruence.
  - simpl bind. rewrite Z.mod_small by lia.
    apply replace_time_valid; [exact Hv | reflexivity | lia | lia | lia].
Qed.

Lemma toordinal_with_time (dt : datetime) (h mi s : Z) :
  toordinal (with_time dt h mi s) = toordinal dt.
Proof. reflexivity. Qed.

(** X2: on a calendar date other than 9999-12-31 and a time [H:MM:SS]
    with an hour of one to 4300 digits, the datetime returned lies [H]
    hours, [MM] minutes and [SS] seconds after midnight of the service
    date exactly when the hour is at most 47: one day at most is added,
    so from hour 48 on the result is whole days early. *)
Theorem get_corrected_datetime_elapsed
  (y m d : Z) (hs : list ascii) (mi s : Z) :
  valid_date y m d = true ->
  Forall (fun c => is_digit c = true) hs -> hs <> [] ->
  (List.length hs <= 4300)%nat ->
  0 <= mi <= 59 -> 0 <= s <= 59 ->
  (y, m, d) <> (9999, 12, 31) ->
  let h := digits_value hs in
  exists dt,
    get_corrected_datetime (date_text y m d) (time_text hs mi s) = Ok dt
    /\ datetime_sub dt (mk_datetime y m d 0 0 0 0)
       = ((h mod 24 + (if h >? 23 then 24 else 0)) * 3600 + mi * 60 + s)
         * 1000000
    /\ (datetime_sub dt (mk_datetime y m d 0 0 0 0)
        = (h * 3600 + mi * 60 + s) * 1000000 <-> h <= 47).
Proof.
  intros Hv Hhs Hne Hlen Hmi Hs Hnot h.
  pose proof (digits_value_nonneg hs Hhs) as Hh0. fold h in Hh0.
  rewrite (get_corrected_datetime_value y m d hs mi s) by auto.
  fold h. eexists. split; [reflexivity|].
  assert (E : datetime_sub
                (with_time (if h >? 23
                            then next_day (mk_datetime y m d 0 0 0 0)
                            else mk_datetime y m d 0 0 0 0) (h mod 24) mi s)
                (mk_datetime y m d 0 0 0 0)
              = ((h mod 24 + (if h >? 23 then 24 else 0)) * 3600 + mi * 60 + s)
                * 1000000).
  { unfold datetime_sub. rewrite toordinal_with_time.
    unfold seconds_of_day, with_time.
    cbn [hour minute second microsecond].
    destruct (h >? 23).
    - rewrite (toordinal_next_day (mk_datetime y m d 0 0 0 0) Hv).
      rewrite next_day_microsecond. cbn [microsecond]. lia.
    - cbn [microsecond]. lia. }
  split; [exact E|]. rewrite E.
  destruct (Z.gtb_spec h 23); zdiv.
Qed.

Lemma get_corrected_datetime_elapsed_witness :
  exists dt,
    get_corrected_datetime "2024-02-28" "49:30:00" = Ok dt
    /\ datetime_sub dt (mk_datetime 2024 2 28 0 0 0 0)
       = (25 * 3600 + 30 * 60) * 1000000.
Proof.
  destruct (get_corrected_datetime_elapsed 2024 2 28
              (list_ascii_of_string "49") 30 0
              eq_refl ltac:(repeat constructor) ltac:(discriminate)
              ltac:(simpl; lia) ltac:(lia) ltac:(lia) ltac:(discriminate))
    as (dt & Hdt & Hsub & _).
  exists dt. split; [exact Hdt | exact Hsub].
Defined.

(** * The branch that replaces a tracked entry *)

Lemma p_two_exact (r : list ascii) (n : Z) :
  0 <= n <= 99 ->
  p_two (p_digit 0 9) (p_digit 0 9) (two_digits n ++ r) = [(n, r)].
Proof.
  intros Hn. unfold p_two, p_bind, p_ret, two_digits. simpl app.
  rewrite p_digit_digit_char by zdiv. cbn [flat_map app].
  rewrite p_digit_digit_char by zdiv. cbn [flat_map app].
  replace (10 * (n / 10) + n mod 10) with n by zdiv. reflexivity.
Qed.

Lemma p_Y_exact (r : list ascii) (y : Z) :
  0 <= y <= 9999 -> p_Y (four_digits y ++ r) = [(y, r)].
Proof.
  intros Hy. unfold p_Y, p_bind, p_ret.
  rewrite four_digits_split by assumption. rewrite <- app_assoc.
  rewrite p_two_exact by zdiv. cbn [flat_map app].
  rewrite p_two_exact by zdiv. cbn [flat_map app].
  replace (100 * (y / 100) + y mod 100) with y by zdiv. reflexivity.
Qed.

Lemma p_m_exact (r : list ascii) (m : Z) :
  1 <= m <= 12 ->
  p_m (two_digits m ++ r)
  = (m, r) :: (if 10 <=? m then [(1, digit_char (m - 10) :: r)] else []).
Proof.
  intros Hm. range_cases m 1 12%nat ltac:(reflexivity).
Qed.

Lemma p_d_exact (r : list ascii) (d : Z) :
  1 <= d <= 31 ->
  p_d (two_digits d ++ r)
  = (d, r) :: (if 10 <=? d then [(d / 10, digit_char (d mod 10) :: r)] else []).
Proof.
  intros Hd. range_cases d 1 31%nat ltac:(reflexivity).
Qed.

Lemma p_H_late (r : list ascii) (h : Z) :
  24 <= h <= 99 ->
  p_H (two_digits h ++ r) = [(h / 10, digit_char (h mod 10) :: r)].
Proof.
  intros Hh. range_cases h 24 76%nat ltac:(reflexivity).
Qed.

Lemma p_lit_digit (c : ascii) (k : Z) (r : list ascii) :
  is_digit c = false -> 0 <= k <= 9 -> p_lit c (digit_char k :: r) = [].
Proof.
  intros Hc Hk. unfold p_lit.
  destruct (Ascii.eqb (digit_char k) c) eqn:E; [|reflexivity].
  apply Ascii.eqb_eq in E. subst c.
  rewrite is_digit_digit_char in Hc by assumption. discriminate.
Qed.

Lemma p_lit_same (c : ascii) (r : list ascii) : p_lit c (c :: r) = [(tt, r)].
Proof. unfold p_lit. now rewrite Ascii.eqb_refl. Qed.

Lemma p_spaces_digit (k : Z) (r : list ascii) :
  0 <= k <= 9 -> p_spaces (digit_char k :: r) = [].
Proof.
  intros Hk. simpl.
  assert (E : is_re_space (digit_char k) = false).
  { unfold is_re_space. rewrite code_digit_char by lia. lia. }
  now rewrite E.
Qed.

Lemma p_spaces_one (k : Z) (r : list ascii) :
  0 <= k <= 9 ->
  p_spaces (" "%char :: digit_char k :: r) = [(tt, digit_char k :: r)].
Proof.
  intros Hk. change (p_spaces (" "%char :: digit_char k :: r))
    with (p_spaces (digit_char k :: r) ++ [(tt, digit_char k :: r)]).
  now rewrite p_spaces_digit.
Qed.

Lemma strptime_date_time_late (y m d h mi s : Z) :
  valid_date y m d = true ->
  24 <= h <= 99 ->
  strptime_date_time (date_text y m d ++ " " ++ time_text (two_digits h) mi s)
  = Raise ValueError.
Proof.
  intros Hv Hh.
  pose proof (valid_date_fields _ _ _ Hv) as (Hy & Hm & Hd).
  pose proof (days_in_month_range y m).
  unfold strptime_date_time, full_match.
  rewrite !list_ascii_of_string_append. unfold date_text, time_text.
  rewrite !list_ascii_of_string_of_list_ascii.
  match goal with
  | |- context [match ?P with _ => _ end] =>
      match P with
      | p_bind _ _ _ => assert (E : P = [])
      end
  end.
  { unfold p_date, p_time, p_bind, p_ret.
    rewrite <- app_assoc. rewrite p_Y_exact by lia. cbn [flat_map app].
    rewrite p_lit_same. cbn [flat_map app].
    rewrite !app_nil_r.
    rewrite <- app_assoc. rewrite <- app_comm_cons. rewrite p_m_exact by lia.
    assert (Hlit : forall k r0, 0 <= k <= 9 -> p_lit "-" (digit_char k :: r0) = [])
      by (intros; apply p_lit_digit; [reflexivity | assumption]).
    assert (Hcol : forall k r0, 0 <= k <= 9 -> p_lit ":" (digit_char k :: r0) = [])
      by (intros; apply p_lit_digit; [reflexivity | assumption]).
    assert (Hrest :
      flat_map
        (fun '(a, r) =>
         flat_map
           (fun '(_, r0) =>
            flat_map (fun '(a1, r1) => [(y, a, a1, r1)]) (p_d r0))
           (p_lit "-" r))
        (if 10 <=? m then [(1, digit_char (m - 10) :: "-"%char :: two_digits d ++
            list_ascii_of_string " " ++
            two_digits h ++
            ":"%char :: two_digits mi ++ ":"%char :: two_digits s)] else []) = []).
    { destruct (10 <=? m) eqn:E; [|reflexivity].
      cbn [flat_map app]. rewrite Hlit by lia. reflexivity. }
    cbn [flat_map]. rewrite Hrest, !app_nil_r. clear Hrest.
    rewrite p_lit_same. cbn [flat_map]. rewrite !app_nil_r.
    rewrite p_d_exact by lia.
    change (list_ascii_of_string " ") with [" "%char].
    unfold two_digits at 1. cbn [app flat_map].
    rewrite p_spaces_one by zdiv. cbn [flat_map]. rewrite !app_nil_r.
    change (digit_char (h / 10) :: digit_char (h mod 10) :: ?r)
      with (two_digits h ++ r).
    rewrite p_H_late by assumption. cbn [flat_map].
    rewrite Hcol by zdiv. cbn [flat_map app].
    destruct (10 <=? d); [|reflexivity].
    cbn [flat_map app]. rewrite p_spaces_digit by zdiv. reflexivity. }
  rewrite E. reflexivity.
Qed.

(** X3: when a stop strictly closer than the cached one reports a trip
    already tracked, with a service date [YYYY-MM-DD] and a time
    [HH:MM:SS] of two-digit hour, [get_next_departures_for_stop_list]
    replaces the entry only for hours up to 23, with the same arrival
    time the first sighting computes; for every hour from 24 to 99 this
    branch raises [ValueError], although the first sighting of the same
    departure returns the day after the service date with the hour taken
    modulo 24 (or, on 9999-12-31, raises [OverflowError]). *)
Theorem closer_stop_reads_hours_below_24
  (F : float_ops) (starting_coords : fl F * fl F) (s : stop F)
  (departures : list (Z * tracked F)) (dep : departure) (cached : tracked F)
  (dist : fl F) (realtime : bool) (y m d h mi sec : Z) :
  distance_to F starting_coords s = Ok dist ->
  dict_get Z.eqb (trip_id dep) departures = Some cached ->
  fl_ltb F dist (t_distance F cached) = true ->
  service_date dep = date_text y m d ->
  valid_date y m d = true ->
  chosen_arrival dep = (realtime, Some (time_text (two_digits h) mi sec)) ->
  0 <= h <= 99 -> 0 <= mi <= 59 -> 0 <= sec <= 59 ->
  let update := track_departure F starting_coords s departures dep in
  let first_sighting := track_departure F starting_coords s [] dep in
  (h <= 23 ->
     update = Ok (dict_set Z.eqb (trip_id dep)
                    (mk_tracked F dep s dist (mk_datetime y m d h mi sec 0) realtime)
                    departures)
     /\ first_sighting
        = Ok [(trip_id dep,
               mk_tracked F dep s dist (mk_datetime y m d h mi sec 0) realtime)])
  /\ (24 <= h ->
        update = Raise ValueError
        /\ ((y, m, d) <> (9999, 12, 31) ->
            first_sighting
            = Ok [(trip_id dep,
                   mk_tracked F dep s dist
                     (with_time (next_day (mk_datetime y m d 0 0 0 0))
                                (h mod 24) mi sec)
                     realtime)])
        /\ ((y, m, d) = (9999, 12, 31) ->
            first_sighting = Raise OverflowError)).
Proof.
  intros Hdist Hget Hlt Hdate Hv Hch Hh Hmi Hsec update first_sighting.
  unfold distance_to in Hdist.
  destruct (digits_value_two_digits h Hh) as (Hdig & Hne & Hval).
  assert (Hupd : update =
    (arrival_datetime <-
       strptime_date_time
         (date_text y m d ++ " " ++ time_text (two_digits h) mi sec) ;;
     Ok (dict_set Z.eqb (trip_id dep)
           (mk_tracked F dep s dist arrival_datetime realtime) departures))).
  { unfold update, track_departure. rewrite Hdist. simpl bind.
    rewrite Hch, Hget, Hlt. unfold date_and_time_text. now rewrite Hdate. }
  assert (Hfirst : first_sighting =
    (arrival_datetime <-
       get_corrected_datetime (date_text y m d) (time_text (two_digits h) mi sec) ;;
     Ok [(trip_id dep, mk_tracked F dep s dist arrival_datetime realtime)])).
  { unfold first_sighting, track_departure. rewrite Hdist. simpl bind.
    rewrite Hch. simpl dict_get. unfold get_corrected_datetime_opt.
    now rewrite Hdate. }
  rewrite Hupd, Hfirst. split.
  - intros Hs.
    rewrite strptime_date_time_text by (assumption || lia).
    rewrite get_corrected_datetime_text by (assumption || lia).
    split; reflexivity.
  - intros Hl. split; [|split].
    + now rewrite strptime_date_time_late by (assumption || lia).
    + intros Hnot.
      rewrite (get_corrected_datetime_value y m d (two_digits h) mi sec)
        by (auto; simpl; lia).
      rewrite Hval. destruct (Z.gtb_spec h 23); [|lia]. reflexivity.
    + intros Hmax. inversion Hmax; subst y m d.
      rewrite get_corrected_datetime_on_text
        by (assumption || (simpl; lia)).
      rewrite Hval. destruct (Z.gtb_spec h 23); [|lia]. reflexivity.
Qed.

Lemma closer_stop_reads_hours_below_24_witness :
  let dep := mk_departure 7 "21" 3 "SEPTA" "West" "2024-01-01"
                          None (Some "24:10:00") in
  let cached := mk_tracked grid dep far_stop 89194
                  (mk_datetime 2024 1 2 0 10 0 0) false in
  track_departure grid (0, 0) near_stop [(7, cached)] dep = Raise ValueError.
Proof.
  intros dep cached.
  destruct (closer_stop_reads_hours_below_24 grid (0, 0) near_stop
              [(7, cached)] dep cached 12742 false 2024 1 1 24 10 0
              eq_refl eq_refl eq_refl eq_refl eq_refl eq_refl
              ltac:(lia) ltac:(lia) ltac:(lia)) as (_ & Hlate).
  apply (proj1 (Hlate ltac:(lia))).
Defined.

(** * Which stop an entry keeps *)

Section Closest.

Variable F : float_ops.

(** The order of distances: [<] on floats that are numbers. *)
Hypothesis closer_trans :
  forall x y z, fl_ltb F x y = true -> fl_ltb F y z = true -> fl_ltb F x z = true.
Hypothesis closer_between :
  forall x y z, fl_ltb F x z = true -> fl_ltb F x y = true \/ fl_ltb F y z = true.

(** The entry [e] of trip [t] was made from a report of the trip that is
    strictly closer than every earlier report of it, and no later report
    of it is strictly closer. *)
Definition first_of_the_closest (starting_coords : fl F * fl F)
  (seen : list (stop F * departure)) (t : Z) (e : tracked F) : Prop :=
  exists before r after,
    seen = before ++ r :: after
    /\ trip_id (snd r) = t
    /\ t_closest_stop F e = fst r
    /\ t_departure F e = snd r
    /\ distance_to F starting_coords (fst r) = Ok (t_distance F e)
    /\ (forall r', In r' before -> trip_id (snd r') = t ->
          exists dist, distance_to F starting_coords (fst r') = Ok dist
                       /\ fl_ltb F (t_distance F e) dist = true)
    /\ (forall r', In r' after -> trip_id (snd r') = t ->
          exists dist, distance_to F starting_coords (fst r') = Ok dist
                       /\ fl_ltb F dist (t_distance F e) = false).

Lemma first_of_the_closest_other starting_coords seen t e r :
  trip_id (snd r) <> t ->
  first_of_the_closest starting_coords seen t e ->
  first_of_the_closest starting_coords (seen ++ [r]) t e.
Proof.
  intros Hne (before & r0 & after & -> & Ht & Hs & Hd & Hdist & Hb & Ha).
  exists before, r0, (after ++ [r]).
  split; [now rewrite <- app_assoc|].
  repeat (split; [assumption|]).
  intros r' Hin Ht'. apply in_app_iff in Hin.
  destruct Hin as [Hin | [<- | []]]; [auto | contradiction].
Qed.

Lemma first_of_the_closest_step starting_coords seen d r d' :
  tracking_ok F starting_coords seen d ->
  (forall t e, dict_get Z.eqb t d = Some e ->
     first_of_the_closest starting_coords seen t e) ->
  track_report F starting_coords d r = Ok d' ->
  forall t e, dict_get Z.eqb t d' = Some e ->
    first_of_the_closest starting_coords (seen ++ [r]) t e.
Proof.
  intros (Hnd & Hkeys & _) Hw Hstep.
  unfold track_report, track_departure in Hstep.
  apply bind_Ok in Hstep. destruct Hstep as (dist & Hdist & Hstep).
  fold (distance_to F starting_coords (fst r)) in Hdist.
  destruct (chosen_arrival (snd r)) as [rt at_].
  destruct (dict_get Z.eqb (trip_id (snd r)) d) as [cached|] eqn:Hget.
  - destruct (fl_ltb F dist (t_distance F cached)) eqn:Hlt.
    + apply bind_Ok in Hstep. destruct Hstep as (a & _ & Hd').
      inversion Hd'; subst d'. intros t e Hget'.
      rewrite (dict_get_set Z.eqb Z_eqb_eq) in Hget'.
      destruct (Z.eqb_spec t (trip_id (snd r))) as [->|Hne];
        [|apply first_of_the_closest_other; auto].
      inversion Hget'; subst e. clear Hget'.
      exists seen, r, []. cbn [t_closest_stop t_departure t_distance].
      repeat (split; [reflexivity || assumption|]).
      split; [|intros r' []].
      destruct (Hw _ _ Hget)
        as (before & r0 & after & -> & Ht0 & _ & _ & Hd0 & Hb & Ha).
      intros r' Hin Ht'. apply in_app_iff in Hin.
      destruct Hin as [Hin | [<- | Hin]].
      * destruct (Hb r' Hin Ht') as (dist' & Hr' & Hlt').
        exists dist'. split; [exact Hr'|]. eapply closer_trans; eassumption.
      * eauto.
      * destruct (Ha r' Hin Ht') as (dist' & Hr' & Hge).
        exists dist'. split; [exact Hr'|].
        destruct (closer_between dist dist' _ Hlt) as [H|H];
          [exact H | congruence].
    + inversion Hstep; subst d'. intros t e Hget'.
      destruct (Z.eq_dec (trip_id (snd r)) t) as [E|Hne];
        [|apply first_of_the_closest_other; auto].
      subst t. rewrite Hget in Hget'. inversion Hget'; subst e.
      destruct (Hw _ _ Hget)
        as (before & r0 & after & -> & Ht0 & Hs & Hd & Hd0 & Hb & Ha).
      exists before, r0, (after ++ [r]).
      split; [now rewrite <- app_assoc|].
      repeat (split; [assumption|]).
      intros r' Hin Ht'. apply in_app_iff in Hin.
      destruct Hin as [Hin | [<- | []]]; eauto.
  - apply bind_Ok in Hstep. destruct Hstep as (a & _ & Hd').
    inversion Hd'; subst d'. intros t e Hget'.
    rewrite (dict_get_set Z.eqb Z_eqb_eq) in Hget'.
    destruct (Z.eqb_spec t (trip_id (snd r))) as [->|Hne];
      [|apply first_of_the_closest_other; auto].
    inversion Hget'; subst e. clear Hget'.
    exists seen, r, []. cbn [t_closest_stop t_departure t_distance].
    repeat (split; [reflexivity || assumption|]).
    split; [|intros r' []].
    intros r' Hin Ht'. exfalso.
    apply (dict_get_None Z.eqb Z_eqb_eq) in Hget. apply Hget.
    apply Hkeys. eauto.
Qed.

Lemma first_of_the_closest_fold starting_coords l :
  forall seen d d',
    tracking_ok F starting_coords seen d ->
    (forall t e, dict_get Z.eqb t d = Some e ->
       first_of_the_closest starting_coords seen t e) ->
    fold_result (track_report F starting_coords) l d = Ok d' ->
    forall t e, dict_get Z.eqb t d' = Some e ->
      first_of_the_closest starting_coords (seen ++ l) t e.
Proof.
  induction l as [|r l IH]; intros seen d d' Hok Hw Hrun; simpl in Hrun.
  - inversion Hrun; subst. now rewrite app_nil_r.
  - apply bind_Ok in Hrun. destruct Hrun as (d1 & H1 & Hrest).
    replace (seen ++ r :: l) with ((seen ++ [r]) ++ l)
      by (now rewrite <- app_assoc).
    eapply IH; [| |exact Hrest].
    + eapply tracking_ok_step; eassumption.
    + eapply first_of_the_closest_step; eassumption.
Qed.

(** X4: whenever the aggregation returns, the entry of a trip keeps the
    stop, the departure and the distance of one report of that trip: the
    first, in the order the stops are polled, of those at the least
    distance.  Every earlier report of the trip is strictly farther and
    no later one is strictly closer, so of two stops at the same
    distance the one polled first is kept. *)
Theorem kept_stop_is_first_of_the_closest
  (fetched : list (stop F * list departure)) (starting_coords : fl F * fl F)
  (d : list (Z * tracked F)) (t : Z) (e : tracked F) :
  get_next_departures_for_stop_list F fetched starting_coords = Ok d ->
  In (t, e) d ->
  exists before r after,
    reports F fetched = before ++ r :: after
    /\ trip_id (snd r) = t
    /\ t_closest_stop F e = fst r
    /\ t_departure F e = snd r
    /\ distance_to F starting_coords (fst r) = Ok (t_distance F e)
    /\ (forall r', In r' before -> trip_id (snd r') = t ->
          exists dist, distance_to F starting_coords (fst r') = Ok dist
                       /\ fl_ltb F (t_distance F e) dist = true)
    /\ (forall r', In r' after -> trip_id (snd r') = t ->
          exists dist, distance_to F starting_coords (fst r') = Ok dist
                       /\ fl_ltb F dist (t_distance F e) = false).
Proof.
  intros Hrun Hin.
  pose proof (tracking_ok_result F _ _ _ Hrun) as (Hnd & _).
  apply (In_dict_get Z.eqb Z_eqb_eq) in Hin; [|exact Hnd].
  rewrite get_next_departures_flat in Hrun.
  apply (first_of_the_closest_fold starting_coords (reports F fetched) [] [] d);
    [| |exact Hrun|exact Hin].
  - repeat split; simpl; try constructor; try tauto.
    + intros (r & [] & _).
    + discriminate.
  - discriminate.
Qed.

End Closest.

Lemma grid_ltb_trans (x y z : fl grid) :
  fl_ltb grid x y = true -> fl_ltb grid y z = true -> fl_ltb grid x z = true.
Proof. simpl. lia. Qed.

Lemma grid_ltb_between (x y z : fl grid) :
  fl_ltb grid x z = true -> fl_ltb grid x y = true \/ fl_ltb grid y z = true.
Proof. simpl. lia. Qed.

Lemma kept_stop_is_first_of_the_closest_witness :
  exists before r after,
    reports grid sample_fetched = before ++ r :: after
    /\ fst r = near_stop
    /\ trip_id (snd r) = 7
    /\ forall r', In r' before -> trip_id (snd r') = 7 ->
         exists dist, distance_to grid (0, 0) (fst r') = Ok dist
                      /\ (12742 <? dist) = true.
Proof.
  destruct (kept_stop_is_first_of_the_closest grid
              grid_ltb_trans grid_ltb_between
              sample_fetched (0, 0) sample_tracked 7
              (mk_tracked grid
                 (bus 7 "21" "West" (Some "12:05:30") (Some "12:05:00"))
                 near_stop 12742 (at_time 1 12 5 30) true)
              ltac:(vm_compute; reflexivity) ltac:(now left))
    as (before & r & after & Hsplit & Ht & Hs & _ & _ & Hb & _).
  exists before, r, after.
  split; [exact Hsplit|]. split; [now rewrite <- Hs|].
  split; [exact Ht | exact Hb].
Defined.

(** * The first report of a trip *)

Section FirstReport.

Variable F : float_ops.

Definition first_sighting_parses (r : stop F * departure) : Prop :=
  exists arrival_datetime,
    get_corrected_datetime_opt (service_date (snd r))
      (snd (chosen_arrival (snd r))) = Ok arrival_datetime.

Definition first_reports_parse (seen : list (stop F * departure)) : Prop :=
  forall before r after,
    seen = before ++ r :: after ->
    (forall r', In r' before -> trip_id (snd r') <> trip_id (snd r)) ->
    first_sighting_parses r.

Lemma first_reports_parse_step starting_coords seen d r d' :
  tracking_ok F starting_coords seen d ->
  first_reports_parse seen ->
  track_report F starting_coords d r = Ok d' ->
  first_reports_parse (seen ++ [r]).
Proof.
  intros (_ & Hkeys & _) Hseen Hstep before r0 after Hsplit Hfirst.
  destruct (exists_last (l := r0 :: after) ltac:(discriminate))
    as (init & last & Hlast).
  rewrite Hlast, app_assoc in Hsplit.
  apply app_inj_tail in Hsplit. destruct Hsplit as (Hs & <-).
  destruct init as [|x init].
  - (* the new report is the first of its trip *)
    simpl in Hlast. inversion Hlast; subst r0 after. clear Hlast.
    rewrite app_nil_r in Hs. subst before.
    unfold track_report, track_departure in Hstep.
    apply bind_Ok in Hstep. destruct Hstep as (dist & _ & Hstep).
    destruct (chosen_arrival (snd r)) as [rt at_] eqn:Hch.
    destruct (dict_get Z.eqb (trip_id (snd r)) d) as [cached|] eqn:Hget.
    + exfalso.
      apply (dict_get_Some_key Z.eqb Z_eqb_eq) in Hget.
      apply Hkeys in Hget. destruct Hget as (r' & Hin & Ht).
      exact (Hfirst r' Hin Ht).
    + apply bind_Ok in Hstep. destruct Hstep as (dt & Hdt & _).
      exists dt. rewrite Hch. exact Hdt.
  - simpl in Hlast. inversion Hlast; subst x. 
    apply (Hseen before r0 init); [|exact Hfirst].
    now rewrite Hs.
Qed.

Lemma first_reports_parse_fold starting_coords l :
  forall seen d d',
    tracking_ok F starting_coords seen d ->
    first_reports_parse seen ->
    fold_result (track_report F starting_coords) l d = Ok d' ->
    first_reports_parse (seen ++ l).
Proof.
  induction l as [|r l IH]; intros seen d d' Hok Hseen Hrun; simpl in Hrun.
  - now rewrite app_nil_r.
  - apply bind_Ok in Hrun. destruct Hrun as (d1 & H1 & Hrest).
    replace (seen ++ r :: l) with ((seen ++ [r]) ++ l)
      by (now rewrite <- app_assoc).
    eapply IH; [| |exact Hrest].
    + eapply tracking_ok_step; eassumption.
    + eapply first_reports_parse_step; eassumption.
Qed.

(** X5: the aggregation returns only if, for every trip, the first
    report of the trip in the order of polling carries an arrival time
    (the estimated one, or else the scheduled one) that
    [get_corrected_datetime] reads together with the service date.  A
    trip first reported without any arrival time makes the function
    raise, whatever the other stops report. *)
Theorem first_report_of_a_trip_has_a_time
  (fetched : list (stop F * list departure)) (starting_coords : fl F * fl F)
  (d : list (Z * tracked F)) :
  get_next_departures_for_stop_list F fetched starting_coords = Ok d ->
  forall before r after,
    reports F fetched = before ++ r :: after ->
    (forall r', In r' before -> trip_id (snd r') <> trip_id (snd r)) ->
    exists arrival_time arrival_datetime,
      snd (chosen_arrival (snd r)) = Some arrival_time
      /\ get_corrected_datetime (service_date (snd r)) arrival_time
         = Ok arrival_datetime.
Proof.
  intros Hrun before r after Hsplit Hfirst.
  rewrite get_next_departures_flat in Hrun.
  assert (Hall : first_reports_parse ([] ++ reports F fetched)).
  { eapply first_reports_parse_fold; [| |exact Hrun].
    - repeat split; simpl; try constructor; try tauto.
      + intros (r0 & [] & _).
      + discriminate.
    - intros [|x b] r0 a H; discriminate. }
  destruct (Hall before r after Hsplit Hfirst) as (dt & Hdt).
  unfold get_corrected_datetime_opt in Hdt.
  destruct (snd (chosen_arrival (snd r))) as [text|].
  - exists text, dt. split; [reflexivity | exact Hdt].
  - destruct (strptime_date (service_date (snd r))); discriminate.
Qed.

End FirstReport.

Lemma first_report_of_a_trip_has_a_time_witness :
  exists arrival_time arrival_datetime,
    snd (chosen_arrival (bus 8 "21" "West" None (Some "24:10:00")))
      = Some arrival_time
    /\ get_corrected_datetime "2024-03-01" arrival_time = Ok arrival_datetime.
Proof.
  apply (first_report_of_a_trip_has_a_time grid sample_fetched (0, 0)
           sample_tracked ltac:(vm_compute; reflexivity)
           [(far_stop, bus 7 "21" "West" None (Some "12:10:00"))]
           (far_stop, bus 8 "21" "West" None (Some "24:10:00"))
           (map (pair near_stop) (snd (nth 1 sample_fetched (near_stop, []))))).
  - reflexivity.
  - intros r' [<- | []]. discriminate.
Defined.

(** * The order of the tracked trips *)

(** The values of a list in the order of their first occurrence. *)
Definition first_seen (l : list Z) : list Z :=
  fold_left (fun acc t => if existsb (Z.eqb t) acc then acc else acc ++ [t]) l [].

Lemma first_seen_snoc (l : list Z) (t : Z) :
  first_seen (l ++ [t])
  = if existsb (Z.eqb t) (first_seen l) then first_seen l
    else first_seen l ++ [t].
Proof. unfold first_seen. now rewrite fold_left_app. Qed.

Section SightingOrder.

Variable F : float_ops.

Definition trip_of (r : stop F * departure) : Z := trip_id (snd r).

Lemma dict_get_existsb (t : Z) (d : list (Z * tracked F)) :
  existsb (Z.eqb t) (map fst d)
  = match dict_get Z.eqb t d with Some _ => true | None => false end.
Proof.
  induction d as [|[k v] d IH]; [reflexivity|].
  simpl. destruct (Z.eqb t k); [reflexivity | exact IH].
Qed.

Lemma track_report_keys starting_coords d r d' :
  track_report F starting_coords d r = Ok d' ->
  map fst d'
  = if existsb (Z.eqb (trip_of r)) (map fst d) then map fst d
    else map fst d ++ [trip_of r].
Proof.
  intros Hstep. rewrite dict_get_existsb.
  unfold track_report, track_departure in Hstep. fold (trip_of r) in Hstep.
  apply bind_Ok in Hstep. destruct Hstep as (dist & _ & Hstep).
  destruct (chosen_arrival (snd r)) as [rt at_].
  destruct (dict_get Z.eqb (trip_of r) d) as [cached|] eqn:Hget.
  - destruct (fl_ltb F dist (t_distance F cached)).
    + apply bind_Ok in Hstep. destruct Hstep as (a & _ & Hd').
      inversion Hd'; subst d'. eapply dict_set_keys. exact Hget.
    + now inversion Hstep.
  - apply bind_Ok in Hstep. destruct Hstep as (a & _ & Hd').
    inversion Hd'; subst d'. now apply dict_set_keys_fresh.
Qed.

Lemma track_reports_keys starting_coords l :
  forall seen d d',
    map fst d = first_seen (map trip_of seen) ->
    fold_result (track_report F starting_coords) l d = Ok d' ->
    map fst d' = first_seen (map trip_of (seen ++ l)).
Proof.
  induction l as [|r l IH]; intros seen d d' Hd Hrun; simpl in Hrun.
  - inversion Hrun; subst. now rewrite app_nil_r.
  - apply bind_Ok in Hrun. destruct Hrun as (d1 & H1 & Hrest).
    replace (seen ++ r :: l) with ((seen ++ [r]) ++ l)
      by (now rewrite <- app_assoc).
    apply (IH _ d1); [|exact Hrest].
    rewrite map_app. cbn [map]. rewrite first_seen_snoc, <- Hd.
    eapply track_report_keys. exact H1.
Qed.

(** X6: the trips are tracked in the order in which they are first
    reported, whichever stop ends up being kept for them; and of trips
    that arrive at the same time, [get_upcoming_departures] processes
    first the one that was reported first: sorting by arrival time keeps
    the order of equal arrival times. *)
Theorem trips_keep_the_order_of_first_report
  (fetched : list (stop F * list departure)) (starting_coords : fl F * fl F)
  (d : list (Z * tracked F)) :
  get_next_departures_for_stop_list F fetched starting_coords = Ok d ->
  map fst d
  = first_seen (map (fun r => trip_id (snd r)) (reports F fetched))
  /\ forall arrival,
       filter (same_arrival F arrival) (sorted_by_arrival F d)
       = filter (same_arrival F arrival) d.
Proof.
  intros Hrun. split.
  - rewrite get_next_departures_flat in Hrun.
    apply (track_reports_keys starting_coords (reports F fetched) [] [] d);
      [reflexivity | exact Hrun].
  - intros arrival. apply sorted_by_arrival_stable.
Qed.

End SightingOrder.

Lemma trips_keep_the_order_of_first_report_witness :
  map fst sample_tracked = [7; 8; 9; 10; 11; 12; 13].
Proof.
  apply (proj1 (trips_keep_the_order_of_first_report grid sample_fetched (0, 0)
                  sample_tracked ltac:(vm_compute; reflexivity))).
Defined.

(** * Route types without a name *)


Section Grouping.

Variable F : float_ops.





End Grouping.


(** * The order of the rows *)

Lemma StronglySorted_snoc {A : Type} (R : A -> A -> Prop) (l : list A) (x : A) :
  StronglySorted R l -> Forall (fun y => R y x) l -> StronglySorted R (l ++ [x]).
Proof.
  induction 1 as [|y l Hl IH Hy]; intros Hx; simpl.
  - repeat constructor.
  - inversion Hx; subst. constructor; [now apply IH|].
    apply Forall_app. split; [exact Hy | now constructor].
Qed.

Lemma StronglySorted_before {A : Type} (R : A -> A -> Prop) (a b : list A) (x : A) :
  StronglySorted R (a ++ x :: b) -> Forall (fun y => R y x) a.
Proof.
  induction a as [|y a IH]; intros H; [constructor|].
  simpl in H. inversion H as [|? ? Hs Hy]; subst.
  constructor; [|now apply IH].
  rewrite Forall_forall in Hy. apply Hy. apply in_or_app. right. now left.
Qed.

Lemma StronglySorted_of_map {A B : Type} (R : B -> B -> Prop) (f : A -> B) l :
  StronglySorted R (map f l) -> StronglySorted (fun x y => R (f x) (f y)) l.
Proof.
  induction l as [|x l IH]; intros H; [constructor|].
  simpl in H. inversion H as [|? ? Hs Hx]; subst.
  constructor; [now apply IH|]. apply Forall_map. exact Hx.
Qed.

Section RowOrder.

Variable F : float_ops.

(** The first arrival time of a row. *)
Definition first_arrival (entry : string * display_row F) : option datetime :=
  hd_error (g_arrival_times F (snd entry)).

Definition no_later (a b : option datetime) : Prop :=
  match a, b with
  | Some x, Some y => datetime_leb x y = true
  | _, _ => False
  end.

Lemma dict_set_first_arrival (k : string) (row row' : display_row F)
  (dd : list (string * display_row F)) :
  dict_get String.eqb k dd = Some row ->
  first_arrival (k, row') = first_arrival (k, row) ->
  map first_arrival (dict_set String.eqb k row' dd) = map first_arrival dd.
Proof.
  intros Hget Hsame. induction dd as [|[k0 row0] dd IH]; [discriminate|].
  simpl in *. destruct (String.eqb k k0).
  - inversion Hget; subst row0. simpl. f_equal. exact Hsame.
  - simpl. f_equal. now apply IH.
Qed.

Lemma row_first_arrival done dd k row :
  rows_ok F done dd -> In (k, row) dd ->
  exists first, In first done /\ first_arrival (k, row) = Some (arrival_of F first).
Proof.
  intros (Hnd & _ & Hsome) Hin.
  apply (In_dict_get String.eqb string_eqb_eq) in Hin; [|exact Hnd].
  destruct (Hsome _ _ Hin) as (Ht & _ & first & rest & Hw & _).
  exists first. split.
  - assert (H : In first (with_combo F k done)) by (rewrite Hw; now left).
    now apply filter_In in H.
  - unfold first_arrival. cbn [snd]. rewrite Ht. unfold arrivals_for.
    now rewrite Hw.
Qed.

Lemma rows_sorted_step done dd item dd' :
  rows_ok F done dd ->
  StronglySorted no_later (map first_arrival dd) ->
  Forall (fun x => arrival_le F x item) done ->
  add_departure F dd item = Ok dd' ->
  StronglySorted no_later (map first_arrival dd').
Proof.
  intros Hok Hs Hle Hstep. unfold add_departure in Hstep.
  apply bind_Ok in Hstep. destruct Hstep as (logged & _ & Hstep).
  fold (combo_of F item) in Hstep.
  destruct (dict_get String.eqb (combo_of F item) dd) as [row|] eqn:Hget.
  - destruct (_ <? 4)%nat; inversion Hstep; subst dd'; [|exact Hs].
    rewrite (dict_set_first_arrival _ row); [exact Hs | exact Hget|].
    apply (dict_get_In String.eqb string_eqb_eq) in Hget.
    destruct (row_first_arrival _ _ _ _ Hok Hget) as (first & _ & Hf).
    unfold first_arrival in *. cbn [snd g_arrival_times] in *.
    destruct (g_arrival_times F row); [discriminate | reflexivity].
  - apply bind_Ok in Hstep. destruct Hstep as (name & _ & Hstep).
    inversion Hstep; subst dd'. clear Hstep.
    rewrite dict_set_fresh by exact Hget. rewrite map_app.
    apply StronglySorted_snoc; [exact Hs|].
    apply Forall_map. rewrite Forall_forall. intros [k row] Hin.
    destruct (row_first_arrival _ _ _ _ Hok Hin) as (first & Hfirst & ->).
    rewrite Forall_forall in Hle. apply (Hle first Hfirst).
Qed.

Lemma rows_sorted_fold l :
  forall done dd dd',
    rows_ok F done dd ->
    StronglySorted no_later (map first_arrival dd) ->
    StronglySorted (arrival_le F) (done ++ l) ->
    fold_result (add_departure F) l dd = Ok dd' ->
    StronglySorted no_later (map first_arrival dd').
Proof.
  induction l as [|item l IH]; intros done dd dd' Hok Hs Hsorted Hrun;
    simpl in Hrun.
  - now inversion Hrun; subst.
  - apply bind_Ok in Hrun. destruct Hrun as (d1 & H1 & Hrest).
    apply (IH (done ++ [item]) d1 dd').
    + eapply rows_ok_step; eassumption.
    + eapply rows_sorted_step; try eassumption.
      eapply StronglySorted_before; exact Hsorted.
    + now rewrite <- app_assoc.
    + exact Hrest.
Qed.

(** X8: the rows of the display data are listed by their first arrival
    time: a row's first arrival is no later than the first arrival of any
    row after it, so that the first page shows the routes that arrive
    soonest. *)
Theorem rows_are_listed_by_first_arrival
  (fetched : list (stop F * list departure)) (coords : fl F * fl F)
  (departure_dict : list (string * display_row F))
  (updated_stop_list : list (stop F)) :
  get_upcoming_departures F fetched coords
    = Ok (departure_dict, updated_stop_list) ->
  StronglySorted
    (fun earlier later =>
       match g_arrival_times F (snd earlier), g_arrival_times F (snd later) with
       | first :: _, first' :: _ => datetime_leb first first' = true
       | _, _ => False
       end)
    departure_dict.
Proof.
  intros H. apply get_upcoming_departures_stages in H.
  destruct H as (all_departures & _ & Hfold & _).
  pose proof (rows_sorted_fold _ [] [] departure_dict (rows_ok_nil F)
                (SSorted_nil _) (sorted_by_arrival_sorted F all_departures)
                Hfold) as Hs.
  apply StronglySorted_of_map in Hs.
  eapply StronglySorted_ind with (P := fun l => StronglySorted _ l);
    [constructor | | exact Hs].
  intros x l _ IH Hx. constructor; [exact IH|].
  eapply Forall_impl; [|exact Hx].
  intros y. unfold no_later, first_arrival.
  destruct (g_arrival_times F (snd x)), (g_arrival_times F (snd y)); auto.
Qed.

End RowOrder.

Lemma rows_are_listed_by_first_arrival_witness :
  StronglySorted
    (fun earlier later =>
       match g_arrival_times grid (snd earlier),
             g_arrival_times grid (snd later) with
       | first :: _, first' :: _ => datetime_leb first first' = true
       | _, _ => False
       end)
    sample_rows.
Proof.
  apply (rows_are_listed_by_first_arrival grid sample_fetched (0, 0)
           sample_rows [near_stop]).
  vm_compute. reflexivity.
Defined.

(** * What a row says *)

Section RowFields.

Variable F : float_ops.

(** The row is the one made from the tracked departure [item]. *)
Definition describes (row : display_row F) (item : Z * tracked F) : Prop :=
  g_route F row = route_short_name (t_departure F (snd item))
  /\ g_direction F row = trip_headsign (t_departure F (snd item))
  /\ g_agency_name F row = agency_name (t_departure F (snd item))
  /\ gtfs_route_type_to_string (route_type (t_departure F (snd item)))
     = Ok (g_route_type F row)
  /\ g_full_stop F row = t_closest_stop F (snd item)
  /\ g_stop F row = stop_name F (t_closest_stop F (snd item)).

Definition rows_describe (done : list (Z * tracked F))
  (dd : list (string * display_row F)) : Prop :=
  forall k row, dict_get String.eqb k dd = Some row ->
    exists first rest,
      with_combo F k done = first :: rest /\ describes row first.

Lemma rows_describe_step done dd item dd' :
  rows_ok F done dd ->
  rows_describe done dd ->
  add_departure F dd item = Ok dd' ->
  rows_describe (done ++ [item]) dd'.
Proof.
  intros (_ & Hnone & _) Hdesc Hstep k row Hget.
  unfold add_departure in Hstep.
  apply bind_Ok in Hstep. destruct Hstep as (logged & _ & Hstep).
  fold (combo_of F item) in Hstep.
  rewrite with_combo_snoc.
  destruct (dict_get String.eqb (combo_of F item) dd) as [row0|] eqn:Hget0.
  - destruct (Hdesc _ _ Hget0) as (first0 & rest0 & Hw0 & Hd0).
    destruct (_ <? 4)%nat; inversion Hstep; subst dd'; clear Hstep.
    + rewrite (dict_get_set String.eqb string_eqb_eq) in Hget.
      destruct (String.eqb k (combo_of F item)) eqn:E.
      * apply String.eqb_eq in E. subst k. inversion Hget; subst row.
        rewrite Hw0. exists first0, (rest0 ++ if String.eqb (combo_of F item)
                                                  (combo_of F item)
                                               then [item] else []).
        split; [reflexivity | exact Hd0].
      * destruct (Hdesc _ _ Hget) as (first & rest & Hw & Hd).
        rewrite Hw. eexists _, _. split; [reflexivity | exact Hd].
    + destruct (Hdesc _ _ Hget) as (first & rest & Hw & Hd).
      rewrite Hw. eexists _, _. split; [reflexivity | exact Hd].
  - apply bind_Ok in Hstep. destruct Hstep as (name & Hname & Hstep).
    inversion Hstep; subst dd'. clear Hstep.
    rewrite (dict_get_set String.eqb string_eqb_eq) in Hget.
    destruct (String.eqb k (combo_of F item)) eqn:E.
    + apply String.eqb_eq in E. subst k. inversion Hget; subst row.
      rewrite (Hnone _ Hget0), String.eqb_refl.
      exists item, []. split; [reflexivity|].
      repeat split; try reflexivity. exact Hname.
    + destruct (Hdesc _ _ Hget) as (first & rest & Hw & Hd).
      rewrite Hw. eexists _, _. split; [reflexivity | exact Hd].
Qed.

Lemma rows_describe_fold l :
  forall done dd dd',
    rows_ok F done dd ->
    rows_describe done dd ->
    fold_result (add_departure F) l dd = Ok dd' ->
    rows_describe (done ++ l) dd'.
Proof.
  induction l as [|item l IH]; intros done dd dd' Hok Hdesc Hrun;
    simpl in Hrun.
  - inversion Hrun; subst. now rewrite app_nil_r.
  - apply bind_Ok in Hrun. destruct Hrun as (d1 & H1 & Hrest).
    replace (done ++ item :: l) with ((done ++ [item]) ++ l)
      by (now rewrite <- app_assoc).
    apply (IH _ d1).
    + eapply rows_ok_step; eassumption.
    + eapply rows_describe_step; eassumption.
    + exact Hrest.
Qed.

(** X9: a row is keyed by its route and direction, and what it says is
    taken from the earliest departure of that key alone: the route
    type, the agency and the closest stop with its name are those of the
    earliest departure, also where later departures of the key, whose
    times the row lists too, leave from another stop. *)
Theorem row_describes_its_earliest_departure
  (fetched : list (stop F * list departure)) (coords : fl F * fl F)
  (departure_dict : list (string * display_row F))
  (updated_stop_list : list (stop F)) (k : string) (row : display_row F) :
  get_upcoming_departures F fetched coords
    = Ok (departure_dict, updated_stop_list) ->
  In (k, row) departure_dict ->
  k = (g_route F row ++ " - " ++ g_direction F row)%string
  /\ exists all_departures t e,
       get_next_departures_for_stop_list F fetched coords = Ok all_departures
       /\ In (t, e) all_departures
       /\ route_headsign_combo (t_departure F e) = k
       /\ g_arrival_times F row
          = t_arrival_time F e
            :: tl (firstn 4 (arrivals_for F k (sorted_by_arrival F all_departures)))
       /\ (forall t' e', In (t', e') all_departures ->
             route_headsign_combo (t_departure F e') = k ->
             datetime_leb (t_arrival_time F e) (t_arrival_time F e') = true)
       /\ g_agency_name F row = agency_name (t_departure F e)
       /\ gtfs_route_type_to_string (route_type (t_departure F e))
          = Ok (g_route_type F row)
       /\ g_full_stop F row = t_closest_stop F e
       /\ g_stop F row = stop_name F (t_closest_stop F e).
Proof.
  intros H Hin.
  destruct (get_upcoming_departures_stages F _ _ _ _ H)
    as (all_departures & Hall & Hfold & _).
  pose proof (rows_ok_fold F _ [] [] departure_dict (rows_ok_nil F) Hfold)
    as Hok.
  pose proof (rows_describe_fold _ [] [] departure_dict (rows_ok_nil F)
                ltac:(intros ? ? ?; discriminate) Hfold) as Hdesc.
  cbn [app] in Hok, Hdesc.
  destruct Hok as (Hnd & _ & Hsome).
  apply (In_dict_get String.eqb string_eqb_eq) in Hin; [|exact Hnd].
  destruct (Hdesc _ _ Hin) as ([t e] & rest & Hw & Hd).
  destruct Hd as (Hroute & Hdir & Hagency & Htype & Hfull & Hstop).
  destruct (Hsome _ _ Hin) as (Ht & _).
  cbn [snd] in *.
  assert (Hfirst : In (t, e) (with_combo F k (sorted_by_arrival F all_departures)))
    by (rewrite Hw; now left).
  apply filter_In in Hfirst. destruct Hfirst as (Hin1 & Hk).
  apply String.eqb_eq in Hk. unfold combo_of in Hk. cbn [snd] in Hk.
  pose proof (sorted_by_arrival_perm F all_departures) as Hperm.
  split.
  - rewrite Hroute, Hdir. now rewrite <- Hk.
  - exists all_departures, t, e.
    split; [exact Hall|].
    split; [eapply Permutation_in;
            [apply Permutation_sym; exact Hperm | exact Hin1]|].
    split; [exact Hk|].
    split; [rewrite Ht; unfold arrivals_for; rewrite Hw; reflexivity|].
    split; [|repeat split; assumption].
    intros t' e' Hin' Hk'.
    assert (Hin2 : In (t', e') (with_combo F k (sorted_by_arrival F all_departures))).
    { apply filter_In. split.
      - eapply Permutation_in; eassumption.
      - unfold combo_of. cbn [snd]. rewrite Hk'. apply String.eqb_refl. }
    assert (Hs : StronglySorted (arrival_le F)
                   (with_combo F k (sorted_by_arrival F all_departures)))
      by (apply StronglySorted_filter, sorted_by_arrival_sorted).
    rewrite Hw in Hin2, Hs. destruct Hin2 as [E|Hin2].
    + inversion E; subst. apply datetime_leb_refl.
    + inversion Hs as [|? ? _ Hall']; subst.
      rewrite Forall_forall in Hall'. apply (Hall' _ Hin2).
Qed.

End RowFields.

Lemma row_describes_its_earliest_departure_witness :
  exists all_departures t e,
    get_next_departures_for_stop_list grid sample_fetched (0, 0)
      = Ok all_departures
    /\ In (t, e) all_departures
    /\ t_arrival_time grid e = at_time 1 12 5 30
    /\ t_closest_stop grid e = near_stop.
Proof.
  destruct (row_describes_its_earliest_departure grid sample_fetched (0, 0)
              sample_rows [near_stop] "21 - West"
              (mk_display_row grid "21"
                 ("Bus " ++ utf8 [195; 176; 197; 184; 197; 161])
                 "West" "34th St"
                 [at_time 1 12 5 30; at_time 1 12 20 0; at_time 1 12 30 0;
                  at_time 1 12 40 0]
                 [true; false; false; false] "SEPTA" near_stop)
              ltac:(vm_compute; reflexivity) ltac:(right; left; reflexivity))
    as (_ & all_departures & t & e & Hall & Hin & _ & Htimes & _ & _ & _
        & Hfull & _).
  exists all_departures, t, e.
  split; [exact Hall|]. split; [exact Hin|].
  split; [now inversion Htimes | now rewrite <- Hfull].
Defined.

(** * More on [time_difference_strings] *)

Section TimeStrings.

Variable truncated_minutes : Z -> Z.

Lemma time_strings_loop_short_flags marker current_time flags date_list :
  forall i acc,
    flags <> [] ->
    (i <= List.length flags)%nat ->
    (List.length flags < i + List.length date_list)%nat ->
    time_strings_loop truncated_minutes marker current_time (Some flags) i
      date_list acc
    = Raise IndexError.
Proof.
  induction date_list as [|date rest IH]; intros i acc Hne Hi Hlen.
  - simpl in Hlen. lia.
  - cbn [time_strings_loop]. unfold time_string, realtime_flag.
    destruct flags as [|b flags']; [congruence|].
    destruct (nth_error (b :: flags') i) as [x|] eqn:E.
    + cbn [bind]. apply IH; [assumption| |simpl in *; lia].
      assert (i < List.length (b :: flags'))%nat; [|lia].
      apply nth_error_Some. congruence.
    + reflexivity.
Qed.

(** X10: [time_difference_strings] raises exactly when the realtime flag
    list is not empty and shorter than the list of datetimes, and what it
    raises is [IndexError]: the index is taken for every datetime as soon
    as the flag list is not empty. *)
Theorem time_difference_strings_raises
  (current_time : datetime) (date_list : list datetime)
  (realtime_data : option (list bool)) :
  (forall e,
     time_difference_strings truncated_minutes current_time date_list
       realtime_data = Raise e -> e = IndexError)
  /\ (time_difference_strings truncated_minutes current_time date_list
        realtime_data = Raise IndexError
      <-> exists flags,
            realtime_data = Some flags /\ flags <> []
            /\ (List.length flags < List.length date_list)%nat).
Proof.
  unfold time_difference_strings.
  destruct realtime_data as [flags|].
  - destruct flags as [|b flags].
    + destruct (time_strings_loop_covered truncated_minutes realtime_marker
                  current_time (Some []) date_list 0%nat [] I)
        as (out & -> & _).
      split; [discriminate|]. split; [discriminate|].
      intros (flags & E & Hne & _). inversion E. congruence.
    + destruct (le_lt_dec (List.length date_list) (List.length (b :: flags)))
        as [Hle|Hlt].
      * destruct (time_strings_loop_covered truncated_minutes realtime_marker
                    current_time (Some (b :: flags)) date_list 0%nat [] Hle)
          as (out & -> & _).
        split; [discriminate|]. split; [discriminate|].
        intros (flags' & E & _ & Hlt). inversion E; subst flags'. lia.
      * rewrite time_strings_loop_short_flags by (discriminate || lia).
        split; [intros e H; now inversion H|].
        split; [|reflexivity].
        intros _. exists (b :: flags).
        split; [reflexivity|]. split; [discriminate | exact Hlt].
  - destruct (time_strings_loop_covered truncated_minutes realtime_marker
                current_time None date_list 0%nat [] I)
      as (out & -> & _).
    split; [discriminate|]. split; [discriminate|].
    intros (flags & E & _). discriminate.
Qed.

(** The texts do not tell a departure that is due from one that has
    left. *)
Hypothesis truncated_minutes_opp :
  forall microseconds,
    truncated_minutes (- microseconds) = - truncated_minutes microseconds.

Lemma time_string_mirrored marker current_time realtime_data i past future :
  datetime_sub past current_time = - datetime_sub future current_time ->
  time_string truncated_minutes marker current_time realtime_data i past
  = time_string truncated_minutes marker current_time realtime_data i future.
Proof.
  intros H. unfold time_string. rewrite H, truncated_minutes_opp.
  rewrite Z.abs_opp.
  replace (- truncated_minutes (datetime_sub future current_time) =? 0)
    with (truncated_minutes (datetime_sub future current_time) =? 0);
    [reflexivity|].
  destruct (Z.eqb_spec (truncated_minutes (datetime_sub future current_time)) 0),
           (Z.eqb_spec (- truncated_minutes (datetime_sub future current_time)) 0);
    (reflexivity || lia).
Qed.

(** X11: the texts show how far an arrival is from the current time, not
    on which side: where each datetime of one list is as long before the
    current time as the datetime in the same place of another list is
    after it, [time_difference_strings] gives the same result for both
    lists.  The truncation of the minutes is towards zero, hence the same
    on both sides. *)
Theorem time_difference_strings_hide_the_direction
  (current_time : datetime) (past future : list datetime)
  (realtime_data : option (list bool)) :
  Forall2 (fun p f => datetime_sub p current_time
                      = - datetime_sub f current_time) past future ->
  time_difference_strings truncated_minutes current_time past realtime_data
  = time_difference_strings truncated_minutes current_time future realtime_data.
Proof.
  intros H. unfold time_difference_strings.
  generalize (@nil string) as acc. generalize 0%nat as i.
  induction H as [|p f past future Hpf _ IH]; intros i acc; [reflexivity|].
  cbn [time_strings_loop]. rewrite (time_string_mirrored _ _ _ _ p f Hpf).
  destruct (time_string _ _ _ _ _ f); cbn [bind]; [apply IH | reflexivity].
Qed.

End TimeStrings.

Lemma exact_minutes_opp (microseconds : Z) :
  exact_minutes (- microseconds) = - exact_minutes microseconds.
Proof. unfold exact_minutes. apply Z.quot_opp_l. discriminate. Qed.

Lemma time_difference_strings_hide_the_direction_witness :
  time_difference_strings exact_minutes (at_time 1 12 0 0)
    [at_time 1 11 55 0; at_time 1 11 0 0] (Some [true; false])
  = time_difference_strings exact_minutes (at_time 1 12 0 0)
      [at_time 1 12 5 0; at_time 1 13 0 0] (Some [true; false]).
Proof.
  apply (time_difference_strings_hide_the_direction exact_minutes
           exact_minutes_opp).
  repeat constructor.
Defined.

(** * [simplify_route_name] *)

(** [text.startswith(prefix)]. *)
Fixpoint starts_with (prefix l : list ascii) : bool :=
  match prefix, l with
  | [], _ => true
  | p :: prefix', c :: l' => Ascii.eqb c p && starts_with prefix' l'
  | _ :: _, [] => false
  end.

(** [str.replace(old, new)] for an [old] that is not empty: the
    occurrences are taken from the left and do not overlap.  [skip]
    counts the characters of the occurrence in hand still to be passed. *)
Fixpoint replace_from (old new : list ascii) (skip : nat) (l : list ascii)
  : list ascii :=
  match l with
  | [] => []
  | c :: l' =>
      match skip with
      | S skip' => replace_from old new skip' l'
      | O =>
          if starts_with old l
          then new ++ replace_from old new (List.length old - 1) l'
          else c :: replace_from old new 0 l'
      end
  end.

Definition str_replace (old new s : string) : string :=
  string_of_list_ascii
    (replace_from (list_ascii_of_string old) (list_ascii_of_string new) 0
       (list_ascii_of_string s)).

Definition simplify_route_name (route_name : string) : string :=
  let route_name := str_replace " Line" "" route_name in
  let route_name := str_replace "/" newline route_name in
  route_name.

Example simplify_route_name_line :
  simplify_route_name "Broad Street Line" = "Broad Street".
Proof. reflexivity. Qed.

Example simplify_route_name_slash :
  simplify_route_name "Market/Frankford Line"
  = ("Market" ++ newline ++ "Frankford")%string.
Proof. reflexivity. Qed.

(** The occurrences are replaced in one pass: what the removals bring
    together is not looked at again. *)
Example simplify_route_name_one_pass :
  simplify_route_name " L Lineine" = " Line"
  /\ simplify_route_name "  LineLine Line" = " Line"
  /\ simplify_route_name " Li Line ne" = " Li ne".
Proof. repeat split. Qed.

Lemma starts_with_prefix (prefix l : list ascii) :
  starts_with prefix l = true <-> exists rest, l = prefix ++ rest.
Proof.
  revert l. induction prefix as [|p prefix IH]; intros l; simpl.
  - split; eauto.
  - destruct l as [|c l].
    + split; [discriminate | intros (rest & H); discriminate].
    + rewrite andb_true_iff, Ascii.eqb_eq, IH. split.
      * intros (-> & rest & ->). eauto.
      * intros (rest & H). inversion H. eauto.
Qed.

Lemma replace_from_length (old : list ascii) (l : list ascii) :
  forall skip,
    (List.length (replace_from old [] skip l) <= List.length l)%nat.
Proof.
  induction l as [|c l IH]; intros skip; simpl; [lia|].
  destruct skip as [|skip].
  - destruct (starts_with old (c :: l)); simpl.
    + specialize (IH (List.length old - 1)%nat). lia.
    + specialize (IH 0%nat). lia.
  - specialize (IH skip). lia.
Qed.

Lemma replace_from_char (a b : ascii) (l : list ascii) :
  replace_from [a] [b] 0 l = map (fun c => if Ascii.eqb c a then b else c) l.
Proof.
  induction l as [|c l IH]; [reflexivity|].
  cbn [replace_from starts_with List.length Nat.sub app map].
  rewrite andb_true_r. destruct (Ascii.eqb c a); now rewrite IH.
Qed.

Lemma replace_from_absent (old new : list ascii) (l : list ascii) :
  (forall before after, l <> before ++ old ++ after) ->
  replace_from old new 0 l = l.
Proof.
  induction l as [|c l IH]; intros Habs; [reflexivity|].
  cbn [replace_from].
  destruct (starts_with old (c :: l)) eqn:E.
  - apply starts_with_prefix in E. destruct E as (rest & E).
    exfalso. apply (Habs [] rest). exact E.
  - f_equal. apply IH. intros before after H.
    apply (Habs (c :: before) after). simpl. now f_equal.
Qed.

Lemma string_of_list_ascii_app (a b : list ascii) :
  string_of_list_ascii (a ++ b)
  = (string_of_list_ascii a ++ string_of_list_ascii b)%string.
Proof. induction a as [|c a IH]; simpl; congruence. Qed.

Lemma length_list_ascii_of_string (s : string) :
  List.length (list_ascii_of_string s) = String.length s.
Proof. induction s; simpl; congruence. Qed.

(** X12: the text [simplify_route_name] returns has no slash left
    (every slash has become a line break) and is not longer than the
    route name; a route name without [" Line"] and without a slash is
    returned as it is. *)
Theorem simplify_route_name_shape (route_name : string) :
  ~ In "/"%char (list_ascii_of_string (simplify_route_name route_name))
  /\ (String.length (simplify_route_name route_name)
      <= String.length route_name)%nat
  /\ ((forall before after,
         route_name <> (before ++ " Line" ++ after)%string) ->
      ~ In "/"%char (list_ascii_of_string route_name) ->
      simplify_route_name route_name = route_name).
Proof.
  unfold simplify_route_name, str_replace.
  rewrite !list_ascii_of_string_of_list_ascii.
  change (list_ascii_of_string "/") with ["/"%char].
  change (list_ascii_of_string newline) with [ascii_of_nat 10].
  change (list_ascii_of_string "") with (@nil ascii).
  rewrite replace_from_char.
  split; [|split].
  - intros H. apply in_map_iff in H. destruct H as (c & Hc & _).
    destruct (Ascii.eqb_spec c "/"%char); [discriminate | congruence].
  - rewrite <- !length_list_ascii_of_string.
    rewrite list_ascii_of_string_of_list_ascii, length_map.
    apply replace_from_length.
  - intros Hline Hslash.
    rewrite replace_from_absent.
    + rewrite <- (string_of_list_ascii_of_string route_name) at 2.
      f_equal. rewrite <- (map_id (list_ascii_of_string route_name)) at 2.
      apply map_ext_in. intros c Hc.
      destruct (Ascii.eqb_spec c "/"%char); [subst; contradiction | reflexivity].
    + intros before after H. apply (Hline (string_of_list_ascii before)
                                      (string_of_list_ascii after)).
      rewrite <- (string_of_list_ascii_of_string route_name), H.
      now rewrite !string_of_list_ascii_app.
Qed.

Lemma simplify_route_name_shape_witness :
  simplify_route_name "10" = "10"
  /\ (String.length (simplify_route_name "Market/Frankford Line") <= 21)%nat.
Proof.
  split.
  - apply (simplify_route_name_shape "10").
    + intros before after H.
      apply (f_equal String.length) in H.
      rewrite !length_append in H. simpl in H. lia.
    + simpl. intros [H | [H | []]]; discriminate.
  - apply (simplify_route_name_shape "Market/Frankford Line").
Defined.

(** * Answers of the lookup service that are not a list of places *)

Section GeocoderAnswers.

Variable float : Type.
Variable zero : float.
Variable float_of_text : string -> result float.
Variable float_of_Z : Z -> result float.
Variable float_is_zero : float -> bool.

Local Abbreviation lat_long :=
  (get_lat_long_from_string_address float zero float_of_text float_of_Z
     float_is_zero).

(** X13: an answer that is not a list is not refused as such.  One
    that Python counts as false ([null], [false], 0, the empty text or
    object) gives (0.0, 0.0) like the empty list; any other makes the
    function raise, [KeyError] for an object, as the service's error
    messages are, and [TypeError] for the rest.  So does a list whose
    first item is not an object, with [TypeError]. *)
Theorem get_lat_long_on_other_answers (data : json float) :
  ((forall items, data <> JArray float items) ->
   lat_long data
   = if truthy float float_is_zero data
     then Raise (match data with
                 | JObject _ _ => KeyError
                 | _ => TypeError
                 end)
     else Ok (zero, zero))
  /\ (forall first rest,
        data = JArray float (first :: rest) ->
        (forall members, first <> JObject float members) ->
        lat_long data = Raise TypeError).
Proof.
  unfold get_lat_long_from_string_address. split.
  - intros Hnot. destruct data as [|b|n|x|s|items|members]; simpl.
    + reflexivity.
    + now destruct b.
    + now destruct (n =? 0).
    + now destruct (float_is_zero x).
    + destruct s as [|c s]; reflexivity.
    + now destruct (Hnot items).
    + destruct members; reflexivity.
  - intros first rest -> Hnot. simpl.
    destruct first; try reflexivity. now destruct (Hnot members).
Qed.

End GeocoderAnswers.

Lemma get_lat_long_on_other_answers_witness :
  get_lat_long_from_string_address Z 0 (py_int 10) Ok (Z.eqb 0)
    (JObject Z [("error", JString Z "Unable to geocode")])
  = Raise KeyError.
Proof.
  apply (proj1 (get_lat_long_on_other_answers Z 0 (py_int 10) Ok (Z.eqb 0)
                  (JObject Z [("error", JString Z "Unable to geocode")]))).
  discriminate.
Defined.

(** * The stops the worker polls *)

Section Monitored.

Variable F : float_ops.

Lemma fetch_stops (p : poll F) (stops : list (stop F)) :
  map fst (fetch F p stops) = stops.
Proof.
  unfold fetch. rewrite map_map.
  generalize 0%nat as start.
  induction stops as [|s stops IH]; intros start; [reflexivity|].
  cbn [List.length seq combine map fst]. now rewrite IH.
Qed.

Lemma kept_stops_are_polled fetched coords departure_dict updated_stop_list :
  get_upcoming_departures F fetched coords
    = Ok (departure_dict, updated_stop_list) ->
  forall s, In s updated_stop_list -> In s (map fst fetched).
Proof.
  intros H s Hs.
  destruct (updated_stop_list_used F _ _ _ _ H) as (_ & Hfrom & _).
  destruct (Hfrom s Hs) as (k & row & Hin & <-).
  destruct (rows_ok_result F _ _ _ _ H) as (all_departures & Hall & Hok).
  destruct Hok as (Hnd & _ & Hsome).
  apply (In_dict_get String.eqb string_eqb_eq) in Hin; [|exact Hnd].
  destruct (Hsome _ _ Hin) as (_ & _ & first & rest & Hw & ->).
  assert (Hfirst : In first (sorted_by_arrival F all_departures)).
  { assert (Hin' : In first (with_combo F k (sorted_by_arrival F all_departures)))
      by (rewrite Hw; now left).
    now apply filter_In in Hin'. }
  apply (Permutation_in _ (Permutation_sym (sorted_by_arrival_perm F _)))
    in Hfirst.
  destruct first as [t e]. cbn [snd].
  destruct (tracking_ok_result F _ _ _ Hall) as (Hnd' & _ & Hent).
  apply (In_dict_get Z.eqb Z_eqb_eq) in Hfirst; [|exact Hnd'].
  destruct (Hent _ _ Hfirst) as ([s0 dep] & Hr & _ & (-> & _)).
  apply In_reports in Hr. destruct Hr as (ds & Hs0 & _).
  apply in_map_iff. exists (s0, ds). auto.
Qed.

(** X14: between two refreshes the worker never takes up a stop again:
    after an iteration that keeps the cached stops, every monitored stop
    was polled in that iteration, the monitored stops have distinct ids,
    and there are no more of them than before. *)
Theorem monitored_stops_only_shrink
  (coords : fl F * fl F) (p : poll F) (w w' : worker_thread F)
  (display_data : list (string * display_row F)) :
  run_iteration F coords p w = Ok (w', display_data) ->
  update_intervals_to_use_cached_stop_data F w <> 0 ->
  NoDup (map (stop_id F) (monitored_stop_list F w'))
  /\ incl (monitored_stop_list F w') (monitored_stop_list F w)
  /\ (List.length (monitored_stop_list F w')
      <= List.length (monitored_stop_list F w))%nat.
Proof.
  intros Hit Hc.
  destruct (run_iteration_Ok F _ _ _ _ _ Hit) as (updated & Hget & ->).
  destruct (Z.eqb_spec (update_intervals_to_use_cached_stop_data F w) 0);
    [contradiction|].
  cbn [negb monitored_stop_list].
  destruct (updated_stop_list_used F _ _ _ _ Hget) as (Hnd & _).
  assert (Hincl : incl updated (monitored_stop_list F w)).
  { intros s Hs. rewrite <- (fetch_stops p (monitored_stop_list F w)).
    eapply kept_stops_are_polled; eassumption. }
  split; [exact Hnd|]. split; [exact Hincl|].
  rewrite <- (length_map (stop_id F) updated),
          <- (length_map (stop_id F) (monitored_stop_list F w)).
  apply NoDup_incl_length; [exact Hnd|].
  intros i Hi. apply in_map_iff in Hi. destruct Hi as (s & <- & Hs).
  apply in_map. now apply Hincl.
Qed.

End Monitored.

Lemma monitored_stops_only_shrink_witness :
  let w := new_worker grid [far_stop; near_stop] in
  let p := mk_poll grid (fun i _ => nth i (map snd sample_fetched) [])
             [near_stop; far_stop] in
  exists w' display_data,
    run_iteration grid (0, 0) p w = Ok (w', display_data)
    /\ monitored_stop_list grid w' = [near_stop]
    /\ incl (monitored_stop_list grid w') (monitored_stop_list grid w).
Proof.
  intros w p.
  exists (mk_worker_thread grid [near_stop] 29), sample_rows.
  assert (Hit : run_iteration grid (0, 0) p w
                = Ok (mk_worker_thread grid [near_stop] 29, sample_rows))
    by (vm_compute; reflexivity).
  split; [exact Hit|]. split; [reflexivity|].
  apply (monitored_stops_only_shrink grid (0, 0) p w _ sample_rows Hit).
  vm_compute. discriminate.
Defined.

(** * The pages of [update_table] *)

Lemma firstn_plus {A : Type} (a b : nat) (l : list A) :
  firstn (a + b) l = firstn a l ++ firstn b (skipn a l).
Proof.
  revert l. induction a as [|a IH]; intros l; [reflexivity|].
  destruct l as [|x l]; simpl; [now rewrite firstn_nil | now rewrite IH].
Qed.

Lemma firstn_min_length {A : Type} (n : nat) (l : list A) :
  firstn (Nat.min n (List.length l)) l = firstn n l.
Proof.
  destruct (Nat.le_ge_cases n (List.length l)) as [H|H].
  - now rewrite Nat.min_l.
  - rewrite Nat.min_r by exact H.
    now rewrite firstn_all, (@firstn_all2 _ n l).
Qed.

Lemma map_result_app {A B : Type} (f : A -> result B) (l1 l2 : list A) :
  map_result f (l1 ++ l2)
  = (o1 <- map_result f l1 ;; o2 <- map_result f l2 ;; Ok (o1 ++ o2)).
Proof.
  induction l1 as [|a l1 IH]; simpl.
  - destruct (map_result f l2); reflexivity.
  - destruct (f a) as [b|e]; simpl; [|reflexivity]. rewrite IH.
    destruct (map_result f l1) as [o1|e]; simpl; [|reflexivity].
    destruct (map_result f l2); reflexivity.
Qed.

Lemma map_result_nth {A B : Type} (f : A -> result B) (l : list A) :
  forall out i b,
    map_result f l = Ok out -> nth_error out i = Some b ->
    exists a, nth_error l i = Some a /\ f a = Ok b.
Proof.
  induction l as [|a l IH]; intros out i b H Hb; simpl in H.
  - inversion H; subst. destruct i; discriminate.
  - apply bind_Ok in H. destruct H as (b0 & Hb0 & H).
    apply bind_Ok in H. destruct H as (bs & Hbs & H).
    inversion H; subst out. destruct i as [|i]; simpl in *.
    + inversion Hb; subst. eauto.
    + eapply IH; eassumption.
Qed.

Section Pages.

Variable F : float_ops.
Variable truncated_minutes : Z -> Z.

(** The third label of every row, in the order of the rows. *)
Definition labels (now : datetime) (rows : list (string * display_row F))
  : result (list string) :=
  map_result (fun entry => label_text3 F truncated_minutes now (snd entry)) rows.

Lemma page_rows_slice now display_data page :
  page_rows F truncated_minutes now display_data page
  = labels now (firstn 4 (skipn (page * 4) display_data)).
Proof.
  unfold page_rows, labels.
  change (Z.to_nat items_per_page) with 4%nat.
  f_equal.
  destruct (Nat.le_ge_cases (page * 4) (List.length display_data)) as [H|H].
  - replace (Nat.min ((page + 1) * 4) (List.length display_data) - page * 4)%nat
      with (Nat.min 4 (List.length (skipn (page * 4) display_data)))
      by (rewrite length_skipn; lia).
    apply firstn_min_length.
  - rewrite skipn_all2 by exact H. now rewrite !firstn_nil.
Qed.

Lemma pages_concat now display_data (n : nat) :
  forall pages,
    map_result (page_rows F truncated_minutes now display_data) (seq 0 n)
      = Ok pages ->
    labels now (firstn (n * 4) display_data) = Ok (List.concat pages).
Proof.
  induction n as [|n IH]; intros pages H.
  - inversion H. reflexivity.
  - rewrite seq_S, map_result_app in H. cbn [Nat.add map_result] in H.
    apply bind_Ok in H. destruct H as (o1 & H1 & H).
    apply bind_Ok in H. destruct H as (o2 & H2 & H).
    inversion H; subst pages. clear H.
    apply bind_Ok in H2. destruct H2 as (page & Hpage & H2).
    inversion H2; subst o2. clear H2.
    rewrite page_rows_slice in Hpage.
    replace (S n * 4)%nat with (n * 4 + 4)%nat by lia.
    rewrite firstn_plus. unfold labels in *. rewrite map_result_app.
    rewrite (IH o1 H1). cbn [bind]. rewrite Hpage. cbn [bind].
    rewrite concat_app. simpl. now rewrite app_nil_r.
Qed.

Lemma update_table_Ok now a display_data a' :
  update_table F truncated_minutes now a display_data = Ok a' ->
  let n := Z.to_nat ((Z.of_nat (List.length display_data) + 3) / 4) in
  map_result (page_rows F truncated_minutes now display_data) (seq 0 n)
    = Ok (stacked_widget F a')
  /\ departure_info F a' = display_data
  /\ current_page F a' = 0
  /\ page_indicator_current_page F a' = 0
  /\ page_indicator_total_pages F a' = Z.of_nat n
  /\ List.length (stacked_widget F a') = n.
Proof.
  intros H n. unfold update_table in H. unfold items_per_page in H.
  replace (Z.of_nat (List.length display_data) + 4 - 1)
    with (Z.of_nat (List.length display_data) + 3) in H by lia.
  fold n in H. apply bind_Ok in H. destruct H as (pages & Hpages & H).
  inversion H; subst a'. cbn.
  split; [exact Hpages|]. repeat (split; [reflexivity|]).
  split.
  - unfold n. rewrite Z2Nat.id; [reflexivity | zdiv].
  - apply map_result_length in Hpages. now rewrite Hpages, length_seq.
Qed.

Lemma update_table_pages now a display_data a' :
  update_table F truncated_minutes now a display_data = Ok a' ->
  labels now display_data = Ok (List.concat (stacked_widget F a'))
  /\ forall i page,
       nth_error (stacked_widget F a') i = Some page ->
       (1 <= List.length page <= 4)%nat
       /\ ((S i < List.length (stacked_widget F a'))%nat ->
           List.length page = 4%nat).
Proof.
  intros H. apply update_table_Ok in H. cbv zeta in H.
  destruct H as (Hpages & _ & _ & _ & _ & Hlen).
  set (n := Z.to_nat ((Z.of_nat (List.length display_data) + 3) / 4)) in *.
  assert (Hn : (List.length display_data <= n * 4
                /\ n * 4 < List.length display_data + 4)%nat).
  { unfold n. zdiv. }
  split.
  - rewrite <- (pages_concat _ _ _ _ Hpages).
    now rewrite (@firstn_all2 _ (n * 4) display_data) by lia.
  - intros i page Hi.
    destruct (map_result_nth _ _ _ _ _ Hpages Hi) as (p & Hp & Hrows).
    assert (Hin : (i < n)%nat).
    { rewrite <- (length_seq n 0). apply nth_error_Some. congruence. }
    rewrite nth_error_seq in Hp.
    destruct (Nat.ltb_spec i n); [|lia]. inversion Hp; subst p. clear Hp.
    rewrite page_rows_slice in Hrows. apply map_result_length in Hrows.
    rewrite Hrows, length_firstn, length_skipn, Hlen. lia.
Qed.

(** X15: the pages [update_table] builds hold the rows of the display
    data in their order, each row once: the labels of the pages, one page
    after the other, are the labels of the rows.  A page has from one to
    four rows, and every page but the last has four. *)
Theorem pages_hold_the_rows_in_order
  (now : datetime) (a a' : bus_stop_app F)
  (display_data : list (string * display_row F)) :
  update_table F truncated_minutes now a display_data = Ok a' ->
  map_result (fun entry => label_text3 F truncated_minutes now (snd entry))
    display_data
  = Ok (List.concat (stacked_widget F a'))
  /\ forall i page,
       nth_error (stacked_widget F a') i = Some page ->
       (1 <= List.length page <= 4)%nat
       /\ ((S i < List.length (stacked_widget F a'))%nat ->
           List.length page = 4%nat).
Proof. apply update_table_pages. Qed.

(** X16: the arrival times the worker emits can be put in words:
    whenever an iteration of the worker loop completes, every row of the
    emitted display data has at least one arrival time and a realtime
    flag for each, so that each of the calls of [time_difference_strings]
    that [update_table] makes for the row, at whatever time, returns (it
    does not raise [IndexError]) a list of as many texts as the row has
    arrival times, of which [update_table] takes the first. *)
Theorem emitted_rows_give_time_strings
  (coords : fl F * fl F) (p : poll F) (w w' : worker_thread F)
  (display_data : list (string * display_row F)) :
  run_iteration F coords p w = Ok (w', display_data) ->
  forall route_headsign_combo info,
    In (route_headsign_combo, info) display_data ->
    g_arrival_times F info <> []
    /\ List.length (g_realtime_data F info)
       = List.length (g_arrival_times F info)
    /\ forall current_time,
         exists first rest,
           time_difference_strings truncated_minutes current_time
             (g_arrival_times F info) (Some (g_realtime_data F info))
           = Ok (first :: rest)
           /\ List.length (first :: rest)
              = List.length (g_arrival_times F info).
Proof.
  intros Hit k row Hin.
  destruct (run_iteration_Ok F _ _ _ _ _ Hit) as (updated & Hget & _).
  destruct (emitted_rows_show F _ _ _ _ Hget k row Hin) as (Hne & Hlen).
  split; [exact Hne|]. split; [exact Hlen|].
  intros current_time.
  destruct (time_difference_strings_returns truncated_minutes current_time
              (g_arrival_times F row) (g_realtime_data F row))
    as (strings & Hs & Hl); [lia|].
  destruct strings as [|first rest].
  - destruct (g_arrival_times F row); [congruence | discriminate].
  - exists first, rest. split; assumption.
Qed.

(** ** Turning the pages *)

Lemma switch_page_iter (a : bus_stop_app F) (k : nat) :
  1 < total_pages F a ->
  0 <= current_page F a < total_pages F a ->
  stacked_widget F (Nat.iter k (switch_page F) a) = stacked_widget F a
  /\ current_page F (Nat.iter k (switch_page F) a)
     = (current_page F a + Z.of_nat k) mod total_pages F a.
Proof.
  intros Hp Hc. induction k as [|k (IHs & IHc)].
  - simpl. split; [reflexivity|]. rewrite Z.add_0_r. now rewrite Z.mod_small.
  - rewrite Nat.iter_succ.
    assert (Ht : total_pages F (Nat.iter k (switch_page F) a) = total_pages F a)
      by (unfold total_pages; now rewrite IHs).
    rewrite switch_page_turns by (rewrite Ht; exact Hp).
    cbn [stacked_widget current_page]. split; [exact IHs|].
    rewrite Ht, IHc, Nat2Z.inj_succ.
    rewrite Z.add_mod_idemp_l by lia. f_equal. lia.
Qed.

(** X17: with more than one page, [k] ticks of the page-turn timer move
    the page in view [k] pages on, around the stack: after as many ticks
    as there are pages the same page is in view again, and every page is
    in view after fewer ticks than that. *)
Theorem pages_come_round (a : bus_stop_app F) :
  1 < total_pages F a ->
  0 <= current_page F a < total_pages F a ->
  (forall k,
     current_page F (Nat.iter k (switch_page F) a)
     = (current_page F a + Z.of_nat k) mod total_pages F a)
  /\ current_page F (Nat.iter (Z.to_nat (total_pages F a)) (switch_page F) a)
     = current_page F a
  /\ forall page, 0 <= page < total_pages F a ->
       exists k, (k < Z.to_nat (total_pages F a))%nat
                 /\ current_page F (Nat.iter k (switch_page F) a) = page.
Proof.
  intros Hp Hc. split; [|split].
  - intros k. now apply switch_page_iter.
  - rewrite (proj2 (switch_page_iter a _ Hp Hc)).
    rewrite Z2Nat.id by lia.
    replace (current_page F a + total_pages F a)
      with (current_page F a + 1 * total_pages F a) by lia.
    rewrite Z.mod_add by lia. now apply Z.mod_small.
  - intros page Hpage.
    exists (Z.to_nat ((page - current_page F a) mod total_pages F a)).
    pose proof (Z.mod_pos_bound (page - current_page F a) (total_pages F a)
                  ltac:(lia)) as Hb.
    split; [lia|].
    rewrite (proj2 (switch_page_iter a _ Hp Hc)).
    rewrite Z2Nat.id by lia.
    rewrite Z.add_mod_idemp_r by lia.
    replace (current_page F a + (page - current_page F a)) with page by lia.
    now apply Z.mod_small.
Qed.

End Pages.

Lemma pages_hold_the_rows_in_order_witness :
  exists a',
    update_table grid exact_minutes (at_time 1 12 0 30) (new_app grid)
      sample_rows = Ok a'
    /\ map_result
         (fun entry => label_text3 grid exact_minutes (at_time 1 12 0 30)
                         (snd entry)) sample_rows
       = Ok (List.concat (stacked_widget grid a')).
Proof.
  eexists. split; [vm_compute; reflexivity|].
  apply (pages_hold_the_rows_in_order grid exact_minutes (at_time 1 12 0 30)
           (new_app grid)).
  vm_compute. reflexivity.
Defined.

Lemma emitted_rows_give_time_strings_witness :
  exists first rest,
    time_difference_strings exact_minutes (at_time 1 12 0 30)
      [at_time 1 12 0 0] (Some [false])
    = Ok (first :: rest).
Proof.
  destruct (emitted_rows_give_time_strings grid exact_minutes (0, 0)
              (mk_poll grid
                 (fun i _ => nth i (map snd sample_fetched) [])
                 [near_stop; far_stop])
              (new_worker grid [far_stop; near_stop])
              (mk_worker_thread grid [near_stop] 29)
              sample_rows ltac:(vm_compute; reflexivity)
              "42 - East"
              (mk_display_row grid "42"
                 ("Bus " ++ utf8 [195; 176; 197; 184; 197; 161])
                 "East" "34th St" [at_time 1 12 0 0] [false] "SEPTA" near_stop)
              ltac:(left; reflexivity))
    as (_ & _ & Hstrings).
  destruct (Hstrings (at_time 1 12 0 30)) as (first & rest & Hs & _).
  exists first, rest. exact Hs.
Defined.

Lemma pages_come_round_witness :
  current_page grid (Nat.iter 3 (switch_page grid) three_pages) = 2
  /\ exists k, (k < 3)%nat
               /\ current_page grid (Nat.iter k (switch_page grid) three_pages)
                  = 1.
Proof.
  destruct (pages_come_round grid three_pages)
    as (_ & Hround & Hall);
    [reflexivity | unfold total_pages; simpl; lia|].
  split; [exact Hround|].
  apply (Hall 1). unfold total_pages. simpl. lia.
Defined.

(** * [PageIndicator.paintEvent] *)

(** The ellipses added to the path that is drawn: [addEllipse(x, y, w, h)]. *)
Record ellipse : Type := mk_ellipse {
  e_x : Z;
  e_y : Z;
  e_width : Z;
  e_height : Z
}.

(** [range(n)]. *)
Definition range (n : Z) : list Z := map Z.of_nat (seq 0 (Z.to_nat n)).

Definition paintEvent (total_pages current_page : Z) : list ellipse :=
  let dot_radius := 5 in
  let dot_spacing := 5 in
  let path :=
    flat_map
      (fun i =>
         let x := i * (dot_radius * 2 + dot_spacing) in
         let y := 0 in
         [ mk_ellipse x y (dot_radius * 2) (dot_radius * 2);
           mk_ellipse x y (dot_radius * 2) (dot_radius * 2) ])
      (range total_pages) in
  if total_pages >? 0
  then
    let current_x := current_page * (dot_radius * 2 + dot_spacing) in
    path ++ [mk_ellipse current_x 0 (dot_radius * 2) (dot_radius * 2)]
  else path.

(** [self.page_indicator.setFixedSize(100, 20)]. *)
Definition page_indicator_width : Z := 100.
Definition page_indicator_height : Z := 20.

(** The dot of page [i], and how many times a path holds it. *)
Definition dot (i : Z) : ellipse := mk_ellipse (15 * i) 0 10 10.

Definition same_ellipse (a b : ellipse) : bool :=
  (e_x a =? e_x b) && (e_y a =? e_y b)
  && (e_width a =? e_width b) && (e_height a =? e_height b).

Definition times_drawn (el : ellipse) (path : list ellipse) : nat :=
  List.length (filter (same_ellipse el) path).

Definition dots (start : nat) (n : nat) : list ellipse :=
  flat_map (fun i => [dot i; dot i]) (map Z.of_nat (seq start n)).

Lemma paintEvent_dots (total_pages current_page : Z) :
  paintEvent total_pages current_page
  = dots 0 (Z.to_nat total_pages)
    ++ (if total_pages >? 0 then [dot current_page] else []).
Proof.
  unfold paintEvent, dots, range, dot.
  assert (E : forall l,
            flat_map (fun i => [mk_ellipse (i * (5 * 2 + 5)) 0 (5 * 2) (5 * 2);
                                mk_ellipse (i * (5 * 2 + 5)) 0 (5 * 2) (5 * 2)]) l
            = flat_map (fun i => [mk_ellipse (15 * i) 0 10 10;
                                  mk_ellipse (15 * i) 0 10 10]) l).
  { intros l. apply flat_map_ext. intros i.
    replace (i * (5 * 2 + 5)) with (15 * i) by lia. reflexivity. }
  rewrite E. destruct (total_pages >? 0).
  - replace (current_page * (5 * 2 + 5)) with (15 * current_page) by lia.
    reflexivity.
  - now rewrite app_nil_r.
Qed.

Lemma same_ellipse_dot (i j : Z) : same_ellipse (dot i) (dot j) = (i =? j).
Proof.
  unfold same_ellipse, dot. cbn [e_x e_y e_width e_height].
  rewrite Z.eqb_refl, !andb_true_r.
  destruct (Z.eqb_spec i j), (Z.eqb_spec (15 * i) (15 * j)); (reflexivity || lia).
Qed.

Lemma times_drawn_dots (i : Z) (n : nat) :
  forall start,
    times_drawn (dot i) (dots start n)
    = if (Z.of_nat start <=? i) && (i <? Z.of_nat (start + n)) then 2%nat else 0%nat.
Proof.
  unfold times_drawn, dots.
  induction n as [|n IH]; intros start.
  - simpl. destruct (Z.leb_spec (Z.of_nat start) i), (Z.ltb_spec i (Z.of_nat (start + 0)));
      simpl; (reflexivity || lia).
  - cbn [seq map flat_map app filter]. rewrite !same_ellipse_dot.
    specialize (IH (S start)).
    destruct (Z.eqb_spec i (Z.of_nat start)) as [E|E]; cbn [List.length];
      rewrite IH;
      destruct (Z.leb_spec (Z.of_nat (S start)) i),
               (Z.ltb_spec i (Z.of_nat (S start + n))),
               (Z.leb_spec (Z.of_nat start) i),
               (Z.ltb_spec i (Z.of_nat (start + S n)));
      simpl; (reflexivity || lia).
Qed.

Lemma In_dots (el : ellipse) (n : nat) :
  In el (dots 0 n) <-> exists i, 0 <= i < Z.of_nat n /\ el = dot i.
Proof.
  unfold dots. rewrite in_flat_map. split.
  - intros (i & Hi & Hel). apply in_map_iff in Hi.
    destruct Hi as (k & <- & Hk). apply in_seq in Hk.
    exists (Z.of_nat k). split; [lia|].
    destruct Hel as [<- | [<- | []]]; reflexivity.
  - intros (i & Hi & ->). exists i. split; [|now left].
    apply in_map_iff. exists (Z.to_nat i). split; [lia|].
    apply in_seq. lia.
Qed.

Section Indicator.

Variable F : float_ops.
Variable truncated_minutes : Z -> Z.

Lemma reachable_indicator (a : bus_stop_app F) :
  reachable F truncated_minutes a ->
  page_indicator_total_pages F a = total_pages F a.
Proof.
  induction 1 as [|a ev a' Hr IH Hstep]; [reflexivity|].
  destruct ev as [|now display_data]; simpl in Hstep.
  - inversion Hstep; subst a'. clear Hstep.
    destruct (Z_lt_le_dec 1 (total_pages F a)) as [Hp|Hp].
    + rewrite (switch_page_turns F a Hp). unfold total_pages in *.
      cbn [page_indicator_total_pages stacked_widget]. exact IH.
    + now rewrite (switch_page_stays F a Hp).
  - apply update_table_Ok in Hstep. cbv zeta in Hstep.
    destruct Hstep as (_ & _ & _ & _ & Ht & Hl).
    unfold total_pages. now rewrite Ht, Hl.
Qed.

(** X18: in every state the window goes through, the path the page
    indicator paints holds the dot of every page twice and the dot of
    the page in view a third time, and nothing else; the dots are 15
    pixels apart, so that they all lie within the 100 pixels of the
    indicator exactly when there are at most 7 pages. *)
Theorem page_indicator_marks_the_page_in_view (a : bus_stop_app F) :
  reachable F truncated_minutes a ->
  let path := paintEvent (page_indicator_total_pages F a)
                         (page_indicator_current_page F a) in
  (forall i, 0 <= i < total_pages F a ->
     times_drawn (dot i) path = if i =? current_page F a then 3%nat else 2%nat)
  /\ (forall el, In el path -> exists i, 0 <= i < total_pages F a /\ el = dot i)
  /\ ((forall el, In el path -> e_x el + e_width el <= page_indicator_width)
      <-> total_pages F a <= 7).
Proof.
  intros Hr path.
  pose proof (reachable_indicator a Hr) as Htotal.
  destruct (reachable_page_in_range F truncated_minutes a Hr)
    as (Hcur & H0 & Hrange).
  assert (Hn : 0 <= total_pages F a) by (unfold total_pages; lia).
  assert (Hpath : path = dots 0 (Z.to_nat (total_pages F a))
                         ++ (if total_pages F a >? 0
                             then [dot (current_page F a)] else []))
    by (unfold path; rewrite paintEvent_dots, Htotal, Hcur; reflexivity).
  assert (Hin : forall el, In el path ->
            exists i, 0 <= i < total_pages F a /\ el = dot i).
  { intros el Hel. rewrite Hpath in Hel. apply in_app_iff in Hel.
    destruct Hel as [Hel|Hel].
    - apply In_dots in Hel. destruct Hel as (i & Hi & ->).
      exists i. split; [lia | reflexivity].
    - destruct (Z.gtb_spec (total_pages F a) 0); [|destruct Hel].
      destruct Hel as [<- | []]. exists (current_page F a).
      split; [lia | reflexivity]. }
  split; [|split; [exact Hin|]].
  - intros i Hi. rewrite Hpath. unfold times_drawn.
    rewrite filter_app, length_app.
    fold (times_drawn (dot i) (dots 0 (Z.to_nat (total_pages F a)))).
    rewrite times_drawn_dots.
    destruct (Z.leb_spec (Z.of_nat 0) i); [|lia].
    destruct (Z.ltb_spec i (Z.of_nat (0 + Z.to_nat (total_pages F a)))); [|lia].
    destruct (Z.gtb_spec (total_pages F a) 0); [|lia].
    cbn [andb filter]. rewrite same_ellipse_dot.
    destruct (i =? current_page F a); reflexivity.
  - split.
    + intros Hfit. destruct (Z_le_gt_dec (total_pages F a) 7) as [H|H]; [exact H|].
      exfalso.
      assert (Hel : In (dot 7) path).
      { rewrite Hpath. apply in_or_app. left. apply In_dots.
        exists 7. split; [lia | reflexivity]. }
      apply Hfit in Hel. unfold page_indicator_width in Hel. simpl in Hel. lia.
    + intros H7 el Hel. destruct (Hin el Hel) as (i & Hi & ->).
      unfold page_indicator_width, dot. cbn [e_x e_width]. lia.
Qed.

End Indicator.

Lemma page_indicator_marks_the_page_in_view_witness :
  times_drawn (dot 0) (paintEvent 1 0) = 3%nat
  /\ forall el, In el (paintEvent 1 0) -> el = dot 0.
Proof.
  destruct (update_table grid exact_minutes (at_time 1 12 0 30) (new_app grid)
              sample_rows) as [a'|e] eqn:E; [|vm_compute in E; discriminate].
  assert (Hr : reachable grid exact_minutes a').
  { apply (reachable_step grid exact_minutes (new_app grid)
             (DataUpdated grid (at_time 1 12 0 30) sample_rows));
      [apply reachable_new | exact E]. }
  destruct (page_indicator_marks_the_page_in_view grid exact_minutes a' Hr)
    as (Hcount & Hin & _).
  vm_compute in E. inversion E; subst a'. clear E.
  split.
  - apply (Hcount 0). unfold total_pages. simpl. lia.
  - intros el Hel. destruct (Hin el Hel) as (i & Hi & ->).
    unfold total_pages in Hi. simpl in Hi. f_equal. lia.
Defined.
